(** * Structural extraction pipeline of the Perl-to-Java migration tool

    A shallow embedding of [perl parser/perform_perl_parser.py] (block
    segmentation, block classification, registry construction, cross-file
    call resolution, dependency analysis) and of the graph transformation
    in [perl parser/neo4j_writer.py], followed by the properties of the
    specification that concern them.

    Text is a list of characters.  A character is a code point below 256;
    the Python predicates on characters ([str.isspace], the classes [\s]
    and [\w] of [re]) are given for that range. *)

From Stdlib Require Import String DecimalString.
From Stdlib Require Import Ascii List ZArith Bool Lia Arith.
Import ListNotations.

Set Implicit Arguments.

(* ================================================================== *)
(** * Python strings *)
(* ================================================================== *)

Module PyStr.

Definition text := list ascii.

(** A Python string literal. *)
Definition py (s : String.string) : text := String.list_ascii_of_string s.

Definition code (c : ascii) : nat := nat_of_ascii c.

Fixpoint eqb (a b : text) : bool :=
  match a, b with
  | [], [] => true
  | x :: a', y :: b' => Ascii.eqb x y && eqb a' b'
  | _, _ => false
  end.

(** [str.isspace] on one character. *)
Definition isspace (c : ascii) : bool :=
  let n := code c in
  ((9 <=? n) && (n <=? 13)) || ((28 <=? n) && (n <=? 32))
  || (n =? 133) || (n =? 160).

(** [str.isalnum] on one character. *)
Definition isalnum (c : ascii) : bool :=
  let n := code c in
  ((48 <=? n) && (n <=? 57)) || ((65 <=? n) && (n <=? 90))
  || ((97 <=? n) && (n <=? 122))
  || (n =? 170) || (n =? 178) || (n =? 179) || (n =? 181)
  || (n =? 185) || (n =? 186) || ((188 <=? n) && (n <=? 190))
  || ((192 <=? n) && (n <=? 214)) || ((216 <=? n) && (n <=? 246))
  || ((248 <=? n) && (n <=? 255)).

Fixpoint lstrip (s : text) : text :=
  match s with
  | c :: s' => if isspace c then lstrip s' else s
  | [] => []
  end.

Definition rstrip (s : text) : text := rev (lstrip (rev s)).

(** [s.strip()] *)
Definition strip (s : text) : text := rstrip (lstrip s).

(** [s.startswith(p)] *)
Fixpoint startswith (s p : text) : bool :=
  match p, s with
  | [], _ => true
  | x :: p', y :: s' => Ascii.eqb x y && startswith s' p'
  | _ :: _, [] => false
  end.

(** [s.count(c)] for a one-character [c]. *)
Fixpoint count (s : text) (c : ascii) : Z :=
  match s with
  | [] => 0
  | x :: s' => ((if Ascii.eqb x c then 1 else 0) + count s' c)%Z
  end.

(** [c in s] for a one-character [c]. *)
Definition contains_char (s : text) (c : ascii) : bool :=
  existsb (fun x => Ascii.eqb x c) s.

(** [sub in s] *)
Fixpoint contains (s sub : text) : bool :=
  startswith s sub || match s with [] => false | _ :: s' => contains s' sub end.

(** [s.find(c)]: index of the first [c], or -1. *)
Fixpoint find (s : text) (c : ascii) : Z :=
  match s with
  | [] => (-1)%Z
  | x :: s' =>
      if Ascii.eqb x c then 0%Z
      else let r := find s' c in if (r <? 0)%Z then (-1)%Z else (r + 1)%Z
  end.

(** [s.rfind(c)]: index of the last [c], or -1. *)
Fixpoint rfind (s : text) (c : ascii) : Z :=
  match s with
  | [] => (-1)%Z
  | x :: s' =>
      let r := rfind s' c in
      if (0 <=? r)%Z then (r + 1)%Z
      else if Ascii.eqb x c then 0%Z else (-1)%Z
  end.

(** A slice bound as Python normalises it: a negative bound counts from
    the end, and the result is clamped to [0, len]. *)
Definition clamp (len i : Z) : Z :=
  let j := if (i <? 0)%Z then (i + len)%Z else i in
  Z.max 0 (Z.min len j).

(** [s[a:b]] *)
Definition slice (s : text) (a b : Z) : text :=
  let len := Z.of_nat (length s) in
  let lo := clamp len a in
  let hi := clamp len b in
  firstn (Z.to_nat (hi - lo)) (skipn (Z.to_nat lo) s).

(** [''.join(l)] *)
Definition join (l : list text) : text := concat l.

(** [s.replace(c, d)] for one-character [c]. *)
Definition replace_char (c : ascii) (d : text) (s : text) : text :=
  flat_map (fun x => if Ascii.eqb x c then d else [x]) s.

(** [s.replace("::", d)]: occurrences are found left to right and do not
    overlap. *)
Fixpoint replace_colons (d : text) (s : text) : text :=
  match s with
  | [] => []
  | c1 :: s1 =>
      match s1 with
      | [] => [c1]
      | c2 :: s2 =>
          if Ascii.eqb c1 ":" && Ascii.eqb c2 ":"
          then d ++ replace_colons d s2
          else c1 :: replace_colons d s1
      end
  end.

(** [s.split("::")], with the piece being read kept in reverse in [cur]. *)
Fixpoint split_colons_from (cur : text) (s : text) : list text :=
  match s with
  | [] => [rev cur]
  | c1 :: s1 =>
      match s1 with
      | [] => [rev (c1 :: cur)]
      | c2 :: s2 =>
          if Ascii.eqb c1 ":" && Ascii.eqb c2 ":"
          then rev cur :: split_colons_from [] s2
          else split_colons_from (c1 :: cur) s1
      end
  end.

Definition split_colons (s : text) : list text := split_colons_from [] s.

(** [s.split()]: the maximal runs of non-whitespace characters. *)
Fixpoint split_ws_from (cur : text) (s : text) : list text :=
  match s with
  | [] => match cur with [] => [] | _ => [rev cur] end
  | c :: s' =>
      if isspace c
      then match cur with
           | [] => split_ws_from [] s'
           | _ => rev cur :: split_ws_from [] s'
           end
      else split_ws_from (c :: cur) s'
  end.

Definition split_ws (s : text) : list text := split_ws_from [] s.

(** [s.split(",")] *)
Fixpoint split_char_from (sep : ascii) (cur : text) (s : text) : list text :=
  match s with
  | [] => [rev cur]
  | c :: s' =>
      if Ascii.eqb c sep then rev cur :: split_char_from sep [] s'
      else split_char_from sep (c :: cur) s'
  end.

Definition split_char (sep : ascii) (s : text) : list text :=
  split_char_from sep [] s.

End PyStr.

(* ================================================================== *)
(** * Regular expressions of [re], as a backtracking matcher *)
(* ================================================================== *)

Module Re.
Import PyStr.

(** The fragment of the pattern language the two source files use.
    Quantifiers are greedy.  [Grp n r] is the capturing group number [n]. *)
Inductive regex : Type :=
| Eps
| Chr (p : ascii -> bool)
| Seq (r1 r2 : regex)
| Alt (r1 r2 : regex)
| Star (r : regex)
| Grp (n : nat) (r : regex).

Definition Plus (r : regex) : regex := Seq r (Star r).
Definition Opt (r : regex) : regex := Alt r Eps.
Definition Lit1 (c : ascii) : regex := Chr (Ascii.eqb c).
Fixpoint Lit (s : text) : regex :=
  match s with
  | [] => Eps
  | c :: s' => Seq (Lit1 c) (Lit s')
  end.
Definition NotIn (cs : text) : regex := Chr (fun c => negb (contains_char cs c)).

(** [\s] and [\w] *)
Definition ws : regex := Chr isspace.
Definition isword (c : ascii) : bool := isalnum c || Ascii.eqb c "_".
Definition word : regex := Chr isword.

(** The captured groups, most recent first. *)
Definition captures := list (nat * text).

Fixpoint group_of (n : nat) (caps : captures) : option text :=
  match caps with
  | [] => None
  | (m, t) :: caps' => if Nat.eqb n m then Some t else group_of n caps'
  end.

Section Matcher.
Variable A : Type.

(** [run r s caps k]: match [r] at the head of [s], then hand what is
    left of [s] to the continuation [k]; the first success is the
    answer, so a later alternative is tried only when every way to
    continue after an earlier one has failed. *)
Fixpoint run (r : regex) (s : text) (caps : captures)
         (k : text -> captures -> option A) {struct r} : option A :=
  match r with
  | Eps => k s caps
  | Chr p =>
      match s with
      | c :: s' => if p c then k s' caps else None
      | [] => None
      end
  | Seq r1 r2 => run r1 s caps (fun s' caps' => run r2 s' caps' k)
  | Alt r1 r2 =>
      match run r1 s caps k with
      | Some a => Some a
      | None => run r2 s caps k
      end
  | Star r1 =>
      (fix star (fuel : nat) (s : text) (caps : captures) {struct fuel}
         : option A :=
         match fuel with
         | O => k s caps
         | S fuel' =>
             match run r1 s caps
                     (fun s' caps' =>
                        if length s' <? length s
                        then star fuel' s' caps' else None) with
             | Some a => Some a
             | None => k s caps
             end
         end) (length s) s caps
  | Grp n r1 =>
      run r1 s caps
        (fun s' caps' =>
           k s' ((n, firstn (length s - length s') s) :: caps'))
  end.
End Matcher.

(** A match object: the matched text ([group(0)]), the groups, and what
    follows the match. *)
Record match_obj : Type := MatchObj {
  group0 : text;
  groups : captures;
  after : text
}.

Definition group (m : match_obj) (n : nat) : text :=
  match group_of n (groups m) with Some t => t | None => [] end.

(** [re.match(r, s)] *)
Definition re_match (r : regex) (s : text) : option match_obj :=
  run r s []
    (fun s' caps => Some (MatchObj (firstn (length s - length s') s) caps s')).

(** [re.search(r, s)] *)
Fixpoint re_search (r : regex) (s : text) : option match_obj :=
  match re_match r s with
  | Some m => Some m
  | None => match s with [] => None | _ :: s' => re_search r s' end
  end.

(** [re.finditer(r, s)]: the matches from left to right, each search
    resuming where the previous match ended.  The patterns of the source
    never match the empty text; an empty match is stepped over. *)
Fixpoint finditer_from (fuel : nat) (r : regex) (s : text) : list match_obj :=
  match fuel with
  | O => []
  | S fuel' =>
      match re_match r s with
      | Some m =>
          if length (after m) <? length s
          then m :: finditer_from fuel' r (after m)
          else match s with
               | [] => [m]
               | _ :: s' => m :: finditer_from fuel' r s'
               end
      | None =>
          match s with
          | [] => []
          | _ :: s' => finditer_from fuel' r s'
          end
      end
  end.

Definition finditer (r : regex) (s : text) : list match_obj :=
  finditer_from (S (length s)) r s.

End Re.

(* ================================================================== *)
(** * Python dictionaries and sets *)
(* ================================================================== *)

(** A [dict] keeps its keys in the order of their first insertion;
    assigning to a key that is present replaces the value where it
    stands.  [items] of the model is the list itself. *)
Module PyDict.
Section Dict.
Variables K V : Type.
Variable keq : K -> K -> bool.

Definition dict : Type := list (K * V).

(** [d.get(k)] *)
Fixpoint get (k : K) (d : dict) : option V :=
  match d with
  | [] => None
  | (k', v) :: d' => if keq k k' then Some v else get k d'
  end.

(** [k in d] *)
Definition mem (k : K) (d : dict) : bool :=
  match get k d with Some _ => true | None => false end.

(** [d[k] = v] *)
Fixpoint setitem (k : K) (v : V) (d : dict) : dict :=
  match d with
  | [] => [(k, v)]
  | (k', v') :: d' =>
      if keq k k' then (k, v) :: d' else (k', v') :: setitem k v d'
  end.

Definition keys (d : dict) : list K := map fst d.
End Dict.

(** A [set], as the list of its elements without repetition.  Python
    leaves the iteration order of a set open; the model lists the
    elements in the order they were first added. *)
Section PySet.
Variable E : Type.
Variable eeq : E -> E -> bool.

Definition set_mem (x : E) (s : list E) : bool := existsb (eeq x) s.

(** [s.add(x)] *)
Definition set_add (x : E) (s : list E) : list E :=
  if set_mem x s then s else s ++ [x].
End PySet.
End PyDict.

(* ================================================================== *)
(** * perform_perl_parser.py *)
(* ================================================================== *)

Module Parser.
Import PyStr Re.

(** A pattern written as the sequence of its items. *)
Definition pattern (items : list regex) : regex := fold_right Seq Eps items.

(** [any(l.strip() for l in lines)] *)
Definition any_nonblank (lines : list text) : bool :=
  existsb (fun l => negb (eqb (strip l) [])) lines.

(** ** Block segmenter: [parse_perl_file_to_blocks] *)

(** A raw block: [{'type': 'global_scope', 'lines': ...}] or
    [{'type': 'package', 'name': ..., 'lines': ...}]. *)
Inductive block : Type :=
| global_scope (lines : list text)
| package (name : text) (lines : list text).

Definition b_lines (b : block) : list text :=
  match b with global_scope ls => ls | package _ ls => ls end.

(** [block.get('name')] *)
Definition b_name (b : block) : option text :=
  match b with global_scope _ => None | package n _ => Some n end.

(** [block['lines'].append(line)] *)
Definition append_line (b : block) (line : text) : block :=
  match b with
  | global_scope ls => global_scope (ls ++ [line])
  | package n ls => package n (ls ++ [line])
  end.

(** [r'^\s*package\s+([^;]+);?'], applied with [re.match], which anchors
    the pattern at the start of the text. *)
Definition package_re : regex :=
  pattern [Star ws; Lit (py "package"); Plus ws;
           Grp 1 (Plus (NotIn (py ";"))); Opt (Lit1 ";")].

(** The state of the scan: the blocks closed so far and the current
    accumulator. *)
Definition seg_state : Type := (list block * block)%type.

Definition seg_init : seg_state := ([], global_scope []).

(** [blocks.append(current_block)] under its guard: a block is kept only
    if one of its lines is not blank. *)
Definition close_block (blocks : list block) (current_block : block)
  : list block :=
  if any_nonblank (b_lines current_block)
  then blocks ++ [current_block] else blocks.

(** One iteration of [for line in lines]. *)
Definition seg_step (st : seg_state) (line : text) : seg_state :=
  let '(blocks, current_block) := st in
  let stripped := strip line in
  if startswith stripped (py "#!") then st
  else
    match re_match package_re stripped with
    | Some pkg_match =>
        let pkg_name := strip (group pkg_match 1) in
        (close_block blocks current_block, package pkg_name [])
    | None => (blocks, append_line current_block line)
    end.

(** The statement after the loop closes the final block. *)
Definition seg_finish (st : seg_state) : list block :=
  let '(blocks, current_block) := st in close_block blocks current_block.

Definition segment (lines : list text) : list block :=
  seg_finish (fold_left seg_step lines seg_init).

(** What [open(...).readlines()] gives for each path: the lines, each
    with its line end, or nothing when the file cannot be read. *)
Definition filesystem : Type := text -> option (list text).

Definition parse_perl_file_to_blocks (fs : filesystem) (file_path : text)
  : list block :=
  match fs file_path with
  | None => []
  | Some lines => segment lines
  end.

(** ** Block content classifier: [parse_block_content] *)

Record use_statement : Type := UseStatement {
  u_module : text;
  u_source_file : option text
}.

Record method : Type := SubDefinition {
  m_name : text;
  m_parameters : list text;
  m_body : text;
  m_package : option text;
  m_full_name : text
}.

(** [r'^\s*(use|no)\s+([^;]+);?'] *)
Definition use_re : regex :=
  pattern [Star ws; Grp 1 (Alt (Lit (py "use")) (Lit (py "no"))); Plus ws;
           Grp 2 (Plus (NotIn (py ";"))); Opt (Lit1 ";")].

(** [r'sub\s+([^\s{]+)'] *)
Definition sub_re : regex :=
  pattern [Lit (py "sub"); Plus ws;
           Grp 1 (Plus (Chr (fun c => negb (isspace c || Ascii.eqb c "{"))))].

(** [r'my\s*\(([^)]+)\)\s*=\s*@_'] *)
Definition param_re : regex :=
  pattern [Lit (py "my"); Star ws; Lit1 "("; Grp 1 (Plus (NotIn (py ")")));
           Lit1 ")"; Star ws; Lit1 "="; Star ws; Lit (py "@_")].

(** [line.count('{') - line.count('}')] *)
Definition brace_delta (line : text) : Z :=
  (count line "{" - count line "}")%Z.

(** The body of a definition from the lines of its span. *)
Definition sub_body (sub_lines : list text) : text :=
  let full_sub := join sub_lines in
  let first_brace := find full_sub "{" in
  let last_brace := rfind full_sub "}" in
  if (first_brace =? -1)%Z then []
  else strip (slice full_sub (first_brace + 1) last_brace).

Definition sub_parameters (body : text) : list text :=
  match re_search param_re body with
  | Some param_match => map strip (split_char "," (group param_match 1))
  | None => []
  end.

(** [f"{package_name}::{sub_name}" if package_name else sub_name]: a
    missing and an empty package name both give the bare name. *)
Definition full_name_of (package_name : option text) (sub_name : text) : text :=
  match package_name with
  | Some (c :: p) => (c :: p) ++ py "::" ++ sub_name
  | _ => sub_name
  end.

Definition make_method (package_name : option text) (sub_name : text)
           (sub_lines : list text) : method :=
  let body := sub_body sub_lines in
  SubDefinition sub_name (sub_parameters body) body package_name
                (full_name_of package_name sub_name).

Definition classified : Type :=
  (list use_statement * list method * list text)%type.

(** The scan of [parse_block_content].  The cursor [i] is the list of
    the lines from index [i] on.  The inner [while] is [scan]: it holds
    the running [brace_count] and the lines of the span, and when it
    stops the outer loop goes on behind the span. *)
Fixpoint classify (package_name : option text) (rest : list text)
         (use_statements : list use_statement) (methods : list method)
         (execution_lines : list text) {struct rest} : classified :=
  match rest with
  | [] => (use_statements, methods, execution_lines)
  | line :: rest' =>
      let stripped := strip line in
      let other :=
        classify package_name rest' use_statements methods
                 (execution_lines ++ [line]) in
      match re_match use_re stripped with
      | Some use_match =>
          classify package_name rest'
                   (use_statements
                      ++ [UseStatement (strip (group use_match 2)) None])
                   methods execution_lines
      | None =>
          if startswith stripped (py "sub ") then
            match re_match sub_re stripped with
            | Some sub_match =>
                if contains_char line "{" then
                  (fix scan (r : list text) (brace_count : Z)
                       (sub_lines : list text) {struct r} : classified :=
                     let methods' :=
                       methods ++ [make_method package_name
                                     (group sub_match 1) sub_lines] in
                     if (brace_count >? 0)%Z then
                       match r with
                       | l :: r' =>
                           scan r' (brace_count + brace_delta l)%Z
                                (sub_lines ++ [l])
                       | [] => (use_statements, methods', execution_lines)
                       end
                     else
                       classify package_name r use_statements methods'
                                execution_lines)
                    rest' (brace_delta line) [line]
                else other
            | None => other
            end
          else other
      end
  end.

Definition parse_block_content (lines : list text) (package_name : option text)
  : classified :=
  classify package_name lines [] [] [].

(** ** File AST builder: [create_ast_from_file] *)

Record script_execution : Type := ScriptExecution {
  se_body : text;
  se_source_file : text
}.

Record package_declaration : Type := PackageDeclaration {
  p_name : text;
  p_use_statements : list use_statement;
  p_methods : list method;
  p_script_execution : option script_execution;
  p_source_file : text
}.

(** The key ["functions"] is present only when the global block has
    definitions. *)
Record global_scope_block : Type := GlobalScope {
  g_body : text;
  g_source_file : text;
  g_functions : option (list method)
}.

Record file_ast : Type := PerlFile {
  f_source_file : text;
  f_use_statements : list use_statement;
  f_packages : list package_declaration;
  f_global_scope : option global_scope_block
}.

(** [any(l.strip() and not l.strip().startswith('#') for l in lines)] *)
Definition has_code (lines : list text) : bool :=
  existsb (fun l => negb (eqb (strip l) [])
                    && negb (startswith (strip l) (py "#"))) lines.

(** [stmt['source_file'] = perl_file] *)
Definition stamp (perl_file : text) (stmt : use_statement) : use_statement :=
  UseStatement (u_module stmt) (Some perl_file).

Definition ast_state : Type :=
  (list package_declaration * option global_scope_block
   * list use_statement)%type.

(** One iteration of [for block in raw_blocks]. *)
Definition ast_step (perl_file : text) (st : ast_state) (b : block)
  : ast_state :=
  let '(packages, global_scope_block, top_level_use) := st in
  let '(use_statements0, methods, execution_lines) :=
    parse_block_content (b_lines b) (b_name b) in
  let use_statements := map (stamp perl_file) use_statements0 in
  match b with
  | package name _ =>
      let package_script_block :=
        if has_code execution_lines
        then Some (ScriptExecution (strip (join execution_lines)) perl_file)
        else None in
      (packages ++ [PackageDeclaration name use_statements methods
                                       package_script_block perl_file],
       global_scope_block, top_level_use)
  | global_scope _ =>
      (packages,
       Some (GlobalScope (strip (join execution_lines)) perl_file
                         (match methods with [] => None | _ => Some methods end)),
       top_level_use ++ use_statements)
  end.

(** [None] is Python's [None]: no AST for a file without blocks. *)
Definition create_ast_from_file (fs : filesystem) (perl_file : text)
  : option file_ast :=
  match parse_perl_file_to_blocks fs perl_file with
  | [] => None
  | raw_blocks =>
      let '(packages, global_scope_block, top_level_use) :=
        fold_left (ast_step perl_file) raw_blocks ([], None, []) in
      Some (PerlFile perl_file top_level_use packages global_scope_block)
  end.

(** ** [process_single_file] *)

Inductive file_result : Type :=
| success (file : text) (ast : file_ast)
| failed (file : text) (error : text).

Definition process_single_file (fs : filesystem) (perl_file : text)
  : file_result :=
  match create_ast_from_file fs perl_file with
  | None => failed perl_file (py "Failed to create AST")
  | Some ast => success perl_file ast
  end.

(** ** Project AST *)

Record registry_entry : Type := RegistryEntry {
  r_file : text;
  r_package : text;
  r_method_name : text;
  r_short_call_patterns : list text
}.

Definition registry : Type := PyDict.dict text registry_entry.

Inductive call_kind : Type :=
| object_method | package_function | constructor | direct_function.

Record cross_file_call : Type := CrossFileCall {
  caller_file : text;
  caller_package : text;
  caller_method : option text;
  target_file : text;
  target_package : text;
  target_method : text;
  target_full_name : text;
  call_pattern : text;
  call_type : call_kind
}.

Record package_definition : Type := PackageDefinition {
  pd_file : text;
  pd_methods : list text
}.

(** The keys ["cross_file_calls"] and ["global_function_registry"] are
    absent until [analyze_cross_file_calls] has run.  Of the metadata,
    the creation time is left out. *)
Record project_ast : Type := ProjectAST {
  files : list file_ast;
  total_files : nat;
  dependencies : PyDict.dict text (list text);
  package_definitions : PyDict.dict text package_definition;
  cross_file_calls : option (list cross_file_call);
  global_function_registry : option registry
}.

(** ** Cross-file call resolver *)

Section FindCalls.
Variable global_functions : registry.
Variable caller_file_ : text.
Variable caller_package_ : text.
Variable caller_method_ : option text.

Definition call_to (info_file info_package method_name full_name : text)
           (m : match_obj) (kind : call_kind) : cross_file_call :=
  CrossFileCall caller_file_ caller_package_ caller_method_
                info_file info_package method_name full_name
                (group0 m) kind.

(** [for full_name in possible_full_names]: the first name the
    registry knows ends the loop, whether or not it gives a call. *)
Fixpoint first_known (m : match_obj) (possible_full_names : list text)
  : list cross_file_call :=
  match possible_full_names with
  | [] => []
  | full_name :: rest =>
      match PyDict.get eqb full_name global_functions with
      | Some target_info =>
          if negb (eqb (r_file target_info) caller_file_)
          then [call_to (r_file target_info) (r_package target_info)
                        (r_method_name target_info) full_name m
                        (if contains (group0 m) (py "->")
                         then object_method else package_function)]
          else []
      | None => first_known m rest
      end
  end.

(** The constructor branch. *)
Definition constructor_call (m : match_obj) (func_call : text)
  : list cross_file_call :=
  let constructor_name := func_call ++ py "::new" in
  match PyDict.get eqb constructor_name global_functions with
  | Some target_info =>
      if negb (eqb (r_file target_info) caller_file_)
      then [call_to (r_file target_info) (r_package target_info)
                    (py "new") constructor_name m constructor]
      else []
  | None => []
  end.

(** [for full_name, target_info in global_functions.items()], left at
    the first entry that passes the test. *)
Fixpoint direct_call (m : match_obj) (func_call : text)
         (items : list (text * registry_entry)) : list cross_file_call :=
  match items with
  | [] => []
  | (full_name, target_info) :: rest =>
      if eqb (r_method_name target_info) func_call
         && negb (eqb (r_file target_info) caller_file_)
      then [call_to (r_file target_info) (r_package target_info)
                    (r_method_name target_info) full_name m direct_function]
      else direct_call m func_call rest
  end.

(** The body of [for match in matches]; [ngroups] is
    [len(match.groups())], the number of groups of the pattern. *)
Definition handle_match (ngroups : nat) (m : match_obj)
  : list cross_file_call :=
  match ngroups with
  | 2 =>
      let package_or_obj := group m 1 in
      let method_name := group m 2 in
      first_known m [package_or_obj ++ py "::" ++ method_name; method_name]
  | 1 =>
      let func_call := group m 1 in
      if contains (group0 m) (py "->new")
      then constructor_call m func_call
      else direct_call m func_call global_functions
  | _ => []
  end.
End FindCalls.

(** [\w+(?:::\w+)*] *)
Definition qualified_word : regex :=
  Seq (Plus word) (Star (Seq (Lit (py "::")) (Plus word))).

(** The four patterns of [find_function_calls_in_code], in the order of
    the source list.  In each, group 1 is [qualified_word], except in
    the third, where it is [\w+].
    - object method call: group 1, then [->\s*(\w+)\s*\(]
    - package function call: group 1, then [::\s*(\w+)\s*\(]
    - direct function call: [(\w+)\s*\(]
    - constructor call: group 1, then [->\s*new\s*\(] *)
Definition object_method_re : regex :=
  pattern [Grp 1 qualified_word; Lit (py "->"); Star ws;
           Grp 2 (Plus word); Star ws; Lit1 "("].

Definition package_function_re : regex :=
  pattern [Grp 1 qualified_word; Lit (py "::"); Star ws;
           Grp 2 (Plus word); Star ws; Lit1 "("].

Definition direct_function_re : regex :=
  pattern [Grp 1 (Plus word); Star ws; Lit1 "("].

Definition constructor_re : regex :=
  pattern [Grp 1 qualified_word; Lit (py "->"); Star ws;
           Lit (py "new"); Star ws; Lit1 "("].

Definition patterns : list regex :=
  [object_method_re; package_function_re; direct_function_re;
   constructor_re].

(** The number of capturing groups of a pattern. *)
Fixpoint ngroups_of (r : regex) : nat :=
  match r with
  | Eps | Chr _ => 0
  | Seq r1 r2 | Alt r1 r2 => ngroups_of r1 + ngroups_of r2
  | Star r1 => ngroups_of r1
  | Grp _ r1 => S (ngroups_of r1)
  end.

Definition find_function_calls_in_code (code : text)
           (global_functions : registry) (caller_file caller_package : text)
           (caller_method : option text) : list cross_file_call :=
  flat_map
    (fun pat =>
       flat_map (handle_match global_functions caller_file caller_package
                              caller_method (ngroups_of pat))
                (finditer pat code))
    patterns.

(** First pass of [analyze_cross_file_calls]: the registry. *)
Definition register_method (file_path package_name : text)
           (global_functions : registry) (m : method) : registry :=
  PyDict.setitem eqb (m_full_name m)
    (RegistryEntry file_path package_name (m_name m)
       [m_name m; package_name ++ py "::" ++ m_name m;
        py "$obj->" ++ m_name m])
    global_functions.

Definition register_package (file_path : text) (global_functions : registry)
           (p : package_declaration) : registry :=
  fold_left (register_method file_path (p_name p)) (p_methods p)
            global_functions.

Definition register_file (global_functions : registry) (f : file_ast)
  : registry :=
  fold_left (register_package (f_source_file f)) (f_packages f)
            global_functions.

Definition build_registry (fs : list file_ast) : registry :=
  fold_left register_file fs [].

(** Second pass: the calls of one package, then of the global scope. *)
Definition package_calls (global_functions : registry) (source_file : text)
           (p : package_declaration) : list cross_file_call :=
  (match p_script_execution p with
   | Some se =>
       match se_body se with
       | [] => []
       | body => find_function_calls_in_code body global_functions
                   source_file (p_name p) None
       end
   | None => []
   end)
  ++ flat_map
       (fun m =>
          match m_body m with
          | [] => []
          | body => find_function_calls_in_code body global_functions
                      source_file (p_name p) (Some (m_full_name m))
          end)
       (p_methods p).

Definition file_calls (global_functions : registry) (f : file_ast)
  : list cross_file_call :=
  flat_map (package_calls global_functions (f_source_file f)) (f_packages f)
  ++ match f_global_scope f with
     | Some g =>
         match g_body g with
         | [] => []
         | body => find_function_calls_in_code body global_functions
                     (f_source_file f) (py "global") None
         end
     | None => []
     end.

Definition analyze_cross_file_calls (combined_ast : project_ast)
  : project_ast :=
  let global_functions := build_registry (files combined_ast) in
  ProjectAST (files combined_ast) (total_files combined_ast)
             (dependencies combined_ast) (package_definitions combined_ast)
             (Some (flat_map (file_calls global_functions)
                             (files combined_ast)))
             (Some global_functions).

(** ** Dependency analysis *)

(** First loop of [analyze_dependencies]. *)
Definition collect_package
           (file_path : text)
           (st : PyDict.dict text package_definition * list use_statement)
           (pkg_decl : package_declaration)
  : PyDict.dict text package_definition * list use_statement :=
  let '(package_definitions, all_use_statements) := st in
  (PyDict.setitem eqb (p_name pkg_decl)
     (PackageDefinition file_path (map m_name (p_methods pkg_decl)))
     package_definitions,
   all_use_statements ++ p_use_statements pkg_decl).

Definition collect_file
           (st : PyDict.dict text package_definition * list use_statement)
           (f : file_ast)
  : PyDict.dict text package_definition * list use_statement :=
  let '(package_definitions, all_use_statements) := st in
  fold_left (collect_package (f_source_file f)) (f_packages f)
            (package_definitions, all_use_statements ++ f_use_statements f).

(** [dependencies[file_of_use].add(target)] on a [defaultdict(set)]. *)
Definition add_dependency (file_of_use target : text)
           (deps : PyDict.dict text (list text)) : PyDict.dict text (list text) :=
  let old := match PyDict.get eqb file_of_use deps with
             | Some s => s | None => [] end in
  PyDict.setitem eqb file_of_use (PyDict.set_add eqb target old) deps.

(** One iteration of [for use_stmt in all_use_statements].  [None] is an
    exception: [module.split()[0]] raises [IndexError] when the module
    text has no token, and [use_stmt["source_file"]] raises [KeyError]
    when the statement carries no file. *)
Definition use_step (package_definitions : PyDict.dict text package_definition)
           (deps : PyDict.dict text (list text)) (use_stmt : use_statement)
  : option (PyDict.dict text (list text)) :=
  match split_ws (u_module use_stmt) with
  | [] => None
  | simple_module :: _ =>
      match u_source_file use_stmt with
      | None => None
      | Some file_of_use =>
          match PyDict.get eqb simple_module package_definitions with
          | Some pd => Some (add_dependency file_of_use (pd_file pd) deps)
          | None => Some deps
          end
      end
  end.

Fixpoint use_loop (package_definitions : PyDict.dict text package_definition)
         (deps : PyDict.dict text (list text)) (stmts : list use_statement)
  : option (PyDict.dict text (list text)) :=
  match stmts with
  | [] => Some deps
  | use_stmt :: rest =>
      match use_step package_definitions deps use_stmt with
      | Some deps' => use_loop package_definitions deps' rest
      | None => None
      end
  end.

Definition analyze_dependencies (fs : list file_ast)
  : option (PyDict.dict text (list text)
            * PyDict.dict text package_definition) :=
  let '(package_definitions, all_use_statements) :=
    fold_left collect_file fs ([], []) in
  match use_loop package_definitions [] all_use_statements with
  | Some deps => Some (deps, package_definitions)
  | None => None
  end.

Definition combine_asts (file_asts : list file_ast) : option project_ast :=
  match analyze_dependencies file_asts with
  | Some (deps, package_definitions) =>
      Some (ProjectAST file_asts (length file_asts) deps package_definitions
                       None None)
  | None => None
  end.

End Parser.

(* ================================================================== *)
(** * neo4j_writer.py: the graph transformation *)
(* ================================================================== *)

Module Writer.
Import PyStr Parser.

(** ** Property values and [json.dumps] *)

Inductive value : Type :=
| VStr (t : text)
| VBool (b : bool)
| VInt (z : Z).

(** Python's [==] on these values: a boolean equals the integer 0 or 1. *)
Definition value_eqb (a b : value) : bool :=
  match a, b with
  | VStr s, VStr t => eqb s t
  | VStr _, _ | _, VStr _ => false
  | VBool x, VBool y => Bool.eqb x y
  | VInt x, VInt y => (x =? y)%Z
  | VBool x, VInt y | VInt y, VBool x => ((if x then 1 else 0) =? y)%Z
  end.

Definition hex_digit (n : nat) : ascii :=
  nth n (py "0123456789abcdef") "0"%char.

Definition dquote : ascii := ascii_of_nat 34.
Definition backslash : ascii := ascii_of_nat 92.

(** One character inside a JSON string, with [ensure_ascii] on. *)
Definition json_escape (c : ascii) : text :=
  let n := code c in
  if n =? 34 then [backslash; dquote]
  else if n =? 92 then [backslash; backslash]
  else if n =? 8 then backslash :: py "b"
  else if n =? 9 then backslash :: py "t"
  else if n =? 10 then backslash :: py "n"
  else if n =? 12 then backslash :: py "f"
  else if n =? 13 then backslash :: py "r"
  else if (32 <=? n) && (n <=? 126) then [c]
  else backslash :: py "u00" ++ [hex_digit (n / 16); hex_digit (n mod 16)].

Definition decimal (z : Z) : text :=
  py (NilZero.string_of_int (Z.to_int z)).

Definition json_value (v : value) : text :=
  match v with
  | VStr t => [dquote] ++ flat_map json_escape t ++ [dquote]
  | VBool true => py "true"
  | VBool false => py "false"
  | VInt z => decimal z
  end.

Fixpoint json_items (l : list value) : text :=
  match l with
  | [] => []
  | [v] => json_value v
  | v :: l' => json_value v ++ py ", " ++ json_items l'
  end.

(** [json.dumps(l)] for a list [l]. *)
Definition json_dumps (l : list value) : text :=
  py "[" ++ json_items l ++ py "]".

(** ** Output model *)

Definition properties : Type := PyDict.dict text value.

(** A node of the graph.  Its display name and its attributes do not
    enter any relationship and are left out. *)
Record graph_node : Type := GraphNode {
  n_id : text;
  n_type : text
}.

Record graph_relationship : Type := GraphRelationship {
  from_id : text;
  to_id : text;
  rel_type : text;
  rel_properties : properties
}.

(** ** Identifiers *)

(** [_normalize_id] *)
Definition _normalize_id (t : text) : text :=
  replace_colons (py "_")
    (replace_char backslash (py "_")
       (replace_char " " (py "_")
          (replace_char "." (py "_")
             (replace_char "/" (py "_") t)))).

Definition file_id_of (file_path : text) : text :=
  py "file_" ++ _normalize_id file_path.

Definition package_id_of (file_id package_name : text) : text :=
  py "package_" ++ file_id ++ py "_" ++ _normalize_id package_name.

Definition method_id_of (package_id method_name : text) : text :=
  py "method_" ++ package_id ++ py "_" ++ _normalize_id method_name.

Definition script_id_of (package_id : text) : text :=
  py "script_" ++ package_id.

Definition use_id_of (module owner_id : text) : text :=
  py "use_" ++ _normalize_id module ++ py "_" ++ owner_id.

(** [x.split('::')[-1]] *)
Definition last_segment (t : text) : text := last (split_colons t) [].

(** [_generate_method_caller_id] *)
Definition _generate_method_caller_id (call : cross_file_call) : text :=
  let caller_file := _normalize_id (caller_file call) in
  let caller_package := _normalize_id (caller_package call) in
  match caller_method call with
  | Some (c :: t) =>
      let caller_method := _normalize_id (last_segment (c :: t)) in
      let package_id :=
        py "package_file_" ++ caller_file ++ py "_" ++ caller_package in
      py "method_" ++ package_id ++ py "_" ++ caller_method
  | _ =>
      let package_id :=
        py "package_file_" ++ caller_file ++ py "_" ++ caller_package in
      py "script_" ++ package_id
  end.

(** [_generate_method_target_id] *)
Definition _generate_method_target_id (call : cross_file_call) : text :=
  let target_file := _normalize_id (target_file call) in
  let target_package := _normalize_id (target_package call) in
  let target_method := _normalize_id (target_method call) in
  let package_id :=
    py "package_file_" ++ target_file ++ py "_" ++ target_package in
  py "method_" ++ package_id ++ py "_" ++ target_method.

(** ** [aggregate_relationships] *)

Definition rel_key : Type := (text * text * text)%type.

Definition key_of (rel : graph_relationship) : rel_key :=
  (from_id rel, to_id rel, rel_type rel).

Definition key_eqb (a b : rel_key) : bool :=
  let '(f1, t1, y1) := a in
  let '(f2, t2, y2) := b in
  eqb f1 f2 && eqb t1 t2 && eqb y1 y2.

(** The accumulator of one key. *)
Record agg_data : Type := AggData {
  a_count : Z;
  a_properties : properties;
  a_call_patterns : list value;
  a_call_types : list value
}.

(** The default of the [defaultdict]. *)
Definition agg_default : agg_data := AggData 0 [] [] [].

Definition add_if_present (name : text) (props : properties)
           (s : list value) : list value :=
  match PyDict.get eqb name props with
  | Some v => PyDict.set_add value_eqb v s
  | None => s
  end.

(** One iteration of [for rel in relationships]. *)
Definition agg_step (aggregated : PyDict.dict rel_key agg_data)
           (rel : graph_relationship) : PyDict.dict rel_key agg_data :=
  let key := key_of rel in
  let d := match PyDict.get key_eqb key aggregated with
           | Some d => d | None => agg_default end in
  let props := rel_properties rel in
  PyDict.setitem key_eqb key
    (AggData (a_count d + 1)
             (match a_properties d with [] => props | p => p end)
             (add_if_present (py "call_pattern") props (a_call_patterns d))
             (add_if_present (py "call_type") props (a_call_types d)))
    aggregated.

(** The relationship built from one item of [aggregated].  [call_type]
    and the two JSON lists follow the iteration order of the sets, which
    Python leaves open; the model takes the order of insertion, and the
    properties below are stated without it. *)
Definition agg_emit (item : rel_key * agg_data) : graph_relationship :=
  let '((from_id, to_id, rel_type), data) := item in
  let props0 := a_properties data in
  let props1 :=
    PyDict.setitem eqb (py "call_count") (VInt (a_count data)) props0 in
  let props2 :=
    match a_call_patterns data with
    | [] => props1
    | ps => PyDict.setitem eqb (py "call_patterns")
                           (VStr (json_dumps ps)) props1
    end in
  let props3 :=
    match a_call_types data with
    | [] => props2
    | t0 :: ts =>
        PyDict.setitem eqb (py "call_type") t0
          (PyDict.setitem eqb (py "call_types")
                          (VStr (json_dumps (t0 :: ts))) props2)
    end in
  GraphRelationship from_id to_id rel_type props3.

Definition aggregate (relationships : list graph_relationship)
  : PyDict.dict rel_key agg_data :=
  fold_left agg_step relationships [].

Definition aggregate_relationships (relationships : list graph_relationship)
  : list graph_relationship :=
  map agg_emit (aggregate relationships).

(** ** [_transform_perl_ast] *)

Definition call_type_name (k : call_kind) : text :=
  match k with
  | object_method => py "object_method"
  | package_function => py "package_function"
  | constructor => py "constructor"
  | direct_function => py "direct_function"
  end.

Definition graph : Type := (list graph_node * list graph_relationship)%type.

Definition emit (g : graph) (n : graph_node) (r : graph_relationship) : graph :=
  (fst g ++ [n], snd g ++ [r]).

Definition use_node (owner_id : text) (g : graph) (use_stmt : use_statement)
  : graph :=
  let use_id := use_id_of (u_module use_stmt) owner_id in
  emit g (GraphNode use_id (py "USE_STATEMENT"))
       (GraphRelationship owner_id use_id (py "USES_MODULE") []).

Definition method_node (package_id : text) (g : graph) (m : method) : graph :=
  let method_id := method_id_of package_id (m_name m) in
  emit g (GraphNode method_id (py "METHOD"))
       (GraphRelationship package_id method_id (py "HAS_METHOD") []).

Definition package_nodes (file_id : text) (g : graph)
           (p : package_declaration) : graph :=
  let package_id := package_id_of file_id (p_name p) in
  let g1 := emit g (GraphNode package_id (py "PACKAGE"))
                 (GraphRelationship file_id package_id
                                    (py "CONTAINS_PACKAGE") []) in
  let g2 := fold_left (use_node package_id) (p_use_statements p) g1 in
  let g3 := fold_left (method_node package_id) (p_methods p) g2 in
  match p_script_execution p with
  | Some _ =>
      let script_id := script_id_of package_id in
      emit g3 (GraphNode script_id (py "SCRIPT_EXECUTION"))
           (GraphRelationship package_id script_id (py "HAS_SCRIPT") [])
  | None => g3
  end.

Definition file_nodes (g : graph) (file_data : file_ast) : graph :=
  let file_id := file_id_of (f_source_file file_data) in
  let g1 := (fst g ++ [GraphNode file_id (py "FILE")], snd g) in
  let g2 := fold_left (use_node file_id) (f_use_statements file_data) g1 in
  fold_left (package_nodes file_id) (f_packages file_data) g2.

Definition call_relationship (call : cross_file_call) : graph_relationship :=
  GraphRelationship
    (_generate_method_caller_id call) (_generate_method_target_id call)
    (py "CALLS_METHOD")
    [(py "call_type", VStr (call_type_name (call_type call)));
     (py "call_pattern", VStr (call_pattern call));
     (py "caller_file", VStr (caller_file call));
     (py "target_file", VStr (target_file call));
     (py "caller_package", VStr (caller_package call));
     (py "target_package", VStr (target_package call));
     (py "is_cross_file", VBool true)].

(** The relationships before aggregation. *)
Definition raw_graph (ast_data : project_ast) : graph :=
  let g := fold_left file_nodes (files ast_data) ([], []) in
  let calls := match cross_file_calls ast_data with
               | Some cs => cs | None => [] end in
  (fst g, snd g ++ map call_relationship calls).

Definition _transform_perl_ast (ast_data : project_ast) : graph :=
  let g := raw_graph ast_data in
  (fst g, aggregate_relationships (snd g)).

End Writer.

(* ================================================================== *)
(** * Notions the properties are stated with *)
(* ================================================================== *)

Module Notions.
Import PyStr Re Parser Writer.

(** A line end. *)
Definition nl : text := [ascii_of_nat 10].

(** A source line: the text followed by its line end. *)
Definition ln (s : string) : text := py s ++ nl.

(** A line is dropped as a shebang line. *)
Definition is_shebang (line : text) : bool :=
  startswith (strip line) (py "#!").

(** A line is blank. *)
Definition is_blank (line : text) : bool := eqb (strip line) [].

(** A line the segmenter takes as a namespace declaration. *)
Definition is_package_line (line : text) : bool :=
  negb (is_shebang line)
  && match re_match package_re (strip line) with
     | Some _ => true | None => false
     end.

Definition package_line_count (lines : list text) : nat :=
  length (filter is_package_line lines).

(** The first line that is not dropped is a namespace declaration. *)
Fixpoint begins_with_package (lines : list text) : bool :=
  match lines with
  | [] => false
  | l :: rest =>
      if is_shebang l then begins_with_package rest else is_package_line l
  end.

(** Every accumulator the segmenter opens, in order, whether or not it
    ever receives a non-blank line: the leading global one, then one for
    each namespace declaration. *)
Definition acc_step (st : seg_state) (line : text) : seg_state :=
  let '(blocks, current_block) := st in
  if is_shebang line then st
  else
    match re_match package_re (strip line) with
    | Some pkg_match =>
        (blocks ++ [current_block], package (strip (group pkg_match 1)) [])
    | None => (blocks, append_line current_block line)
    end.

Definition accumulators (lines : list text) : list block :=
  let '(blocks, current_block) := fold_left acc_step lines seg_init in
  blocks ++ [current_block].

Definition has_content (b : block) : bool := any_nonblank (b_lines b).

(** The lines the brace scan takes after the opening line, and the
    lines it leaves, for a counter that stands at [brace_count]. *)
Fixpoint span (brace_count : Z) (rest : list text) : list text * list text :=
  if (brace_count >? 0)%Z then
    match rest with
    | l :: r =>
        let '(taken, remaining) := span (brace_count + brace_delta l)%Z r in
        (l :: taken, remaining)
    | [] => ([], [])
    end
  else ([], rest).

(** What a greedy [Star (Chr p)] does before a continuation [k]: it
    takes characters while [p] holds, and gives them back one at a time
    as long as [k] fails. *)
Fixpoint star_chr (A : Type) (p : ascii -> bool) (s : text) (caps : captures)
         (k : text -> captures -> option A) : option A :=
  match s with
  | c :: s' =>
      if p c then
        match star_chr p s' caps k with
        | Some a => Some a
        | None => k s caps
        end
      else k s caps
  | [] => k [] caps
  end.

(** The characters of an import statement up to its terminator. *)
Definition not_semicolon (c : ascii) : bool := negb (contains_char (py ";") c).

Fixpoint take_while (p : ascii -> bool) (s : text) : text :=
  match s with
  | c :: s' => if p c then c :: take_while p s' else []
  | [] => []
  end.

Fixpoint drop_while (p : ascii -> bool) (s : text) : text :=
  match s with
  | c :: s' => if p c then drop_while p s' else s
  | [] => []
  end.

(** The part of [use_re] behind the keyword, and its part behind the
    white space. *)
Definition module_tail : regex :=
  pattern [Grp 2 (Plus (NotIn (py ";"))); Opt (Lit1 ";")].

Definition import_tail : regex := Seq (Plus ws) module_tail.

(** The continuation with which [re_match] ends a match of [s0]. *)
Definition finish (s0 : text) : text -> captures -> option match_obj :=
  fun s' caps => Some (MatchObj (firstn (length s0 - length s') s0) caps s').

(** A file declares the qualified name [q]: one of its packages has a
    definition with that full name. *)
Definition declares (f : file_ast) (q : text) : Prop :=
  exists p m, In p (f_packages f) /\ In m (p_methods p) /\ m_full_name m = q.

(** The records the assembly derives from the file structures, and the
    files each of them names. *)
Inductive derived_record : Type :=
| RegistryRecord (full_name : text) (entry : registry_entry)
| CallRecord (call : cross_file_call)
| DependencyRecord (file : text) (targets : list text)
| PackageRecord (name : text) (definition : package_definition).

Definition derived_records (ast : project_ast) : list derived_record :=
  map (fun kv => RegistryRecord (fst kv) (snd kv))
      (match global_function_registry ast with Some r => r | None => [] end)
  ++ map CallRecord
         (match cross_file_calls ast with Some c => c | None => [] end)
  ++ map (fun kv => DependencyRecord (fst kv) (snd kv)) (dependencies ast)
  ++ map (fun kv => PackageRecord (fst kv) (snd kv)) (package_definitions ast).

Definition files_named (r : derived_record) : list text :=
  match r with
  | RegistryRecord _ e => [r_file e]
  | CallRecord c => [caller_file c; target_file c]
  | DependencyRecord f ts => f :: ts
  | PackageRecord _ d => [pd_file d]
  end.

(** The file structures of the files at [paths], in that order, and the
    project assembled from them. *)
Definition asts_of (fs : filesystem) (paths : list text) : list file_ast :=
  flat_map (fun p => match process_single_file fs p with
                     | success _ ast => [ast]
                     | failed _ _ => []
                     end) paths.

Definition assemble (asts : list file_ast) : option project_ast :=
  option_map analyze_cross_file_calls (combine_asts asts).

(** A character that one of the character classes of a pattern takes. *)
Fixpoint accepts (r : regex) (c : ascii) : bool :=
  match r with
  | Eps => false
  | Chr p => p c
  | Seq r1 r2 | Alt r1 r2 => accepts r1 c || accepts r2 c
  | Star r1 | Grp _ r1 => accepts r1 c
  end.

(** The imports of a project, in the order [analyze_dependencies]
    collects them. *)
Definition all_use_statements (fs : list file_ast) : list use_statement :=
  flat_map (fun f => f_use_statements f
                     ++ flat_map p_use_statements (f_packages f)) fs.

(** [deps] has an edge from file [f] to file [t]. *)
Definition depends_on (deps : PyDict.dict text (list text)) (f t : text)
  : Prop :=
  exists s, PyDict.get eqb f deps = Some s /\ In t s.

(** The import [u], standing in file [f], names a known scope: the
    first token of its module text is a key of [pds], whose recorded
    file is [t]. *)
Definition imports_scope (pds : PyDict.dict text package_definition)
           (u : use_statement) (f t : text) : Prop :=
  exists tok toks pd,
    u_source_file u = Some f
    /\ split_ws (u_module u) = tok :: toks
    /\ PyDict.get eqb tok pds = Some pd
    /\ pd_file pd = t.

(** The raw relationships that share the key [k]. *)
Definition same_key (k : rel_key) (rel : graph_relationship) : bool :=
  key_eqb (key_of rel) k.

Definition collapsed (k : rel_key) (rels : list graph_relationship)
  : list graph_relationship :=
  filter (same_key k) rels.

(** The value [v] is observed under the property [name] on a raw
    relationship with the key [k]. *)
Definition observed (name : text) (k : rel_key)
           (rels : list graph_relationship) (v : value) : Prop :=
  exists rel v',
    In rel rels /\ key_of rel = k
    /\ PyDict.get eqb name (rel_properties rel) = Some v'
    /\ value_eqb v v' = true.

(** No two elements of the list are equal. *)
Fixpoint distinct (l : list value) : Prop :=
  match l with
  | [] => True
  | x :: l' => PyDict.set_mem value_eqb x l' = false /\ distinct l'
  end.

(** What one raw relationship does to the accumulator of the key [k]. *)
Definition data_step (k : rel_key) (d : agg_data) (rel : graph_relationship)
  : agg_data :=
  if same_key k rel then
    AggData (a_count d + 1)
            (match a_properties d with [] => rel_properties rel | p => p end)
            (add_if_present (py "call_pattern") (rel_properties rel)
                            (a_call_patterns d))
            (add_if_present (py "call_type") (rel_properties rel)
                            (a_call_types d))
  else d.

(** The two sets an accumulator holds, by the name of the property they
    are collected from. *)
Definition set_of (name : text) (d : agg_data) : list value :=
  if eqb name (py "call_pattern") then a_call_patterns d else a_call_types d.

(** A value up to Python's equality. *)
Definition canon (v : value) : text + Z :=
  match v with
  | VStr t => inl t
  | VBool b => inr (if b then 1 else 0)%Z
  | VInt z => inr z
  end.

(** The counter stays above zero after the opening line and after every
    later line, to the end of the input. *)
Fixpoint never_balanced (brace_count : Z) (rest : list text) : Prop :=
  (brace_count > 0)%Z
  /\ match rest with
     | [] => True
     | l :: r => never_balanced (brace_count + brace_delta l)%Z r
     end.

(** ** Example projects *)

(** The registry names [file] as the owner of [q]. *)
Definition owned_by (reg : registry) (q file : text) : Prop :=
  exists e, PyDict.get eqb q reg = Some e /\ r_file e = file.

(** The two files of the counterexample to C1: each declares [Foo::bar]. *)
Definition two_declarations : filesystem :=
  fun p =>
    if eqb p (py "A.pm")
    then Some [ln "package Foo;"; ln "sub bar { return 1; }"]
    else if eqb p (py "B.pm")
    then Some [ln "package Foo;"; ln "sub bar { return 2; }"]
    else None.

(** The two files of the counterexample to C2: [a.pm] calls [foo], which
    it defines itself and which [b.pm] defines too. *)
Definition two_foos : filesystem :=
  fun p =>
    if eqb p (py "a.pm")
    then Some [ln "package A;"; ln "sub foo { return 1; }";
               ln "sub bar { return foo(2); }"]
    else if eqb p (py "b.pm")
    then Some [ln "package B;"; ln "sub foo { return 3; }"]
    else None.

(** The file of the counterexample to C7: its second package imports
    its first. *)
Definition imports_itself : filesystem :=
  fun p =>
    if eqb p (py "a.pm")
    then Some [ln "package A;"; ln "sub f { return 1; }";
               ln "package B;"; ln "use A;"; ln "1;"]
    else None.

(** The two files of the failing input for C9: the global scope of
    [main.pl] calls a definition of [lib/Animal.pm]. *)
Definition global_caller : filesystem :=
  fun p =>
    if eqb p (py "lib/Animal.pm")
    then Some [ln "package Animal;"; ln "sub speak { print 1; }"]
    else if eqb p (py "main.pl")
    then Some [ln "Animal::speak();"]
    else None.

End Notions.

(* ================================================================== *)
(** * Properties *)
(* ================================================================== *)

Import PyStr Re Parser Writer Notions.

Unset Implicit Arguments.

(** ** Text equality and prefixes *)

Lemma eqb_refl (a : text) : eqb a a = true.
Proof.
  induction a as [|c a IH]; simpl; [reflexivity|].
  now rewrite Ascii.eqb_refl, IH.
Qed.

Lemma eqb_eq (a b : text) : eqb a b = true <-> a = b.
Proof.
  split.
  - revert b; induction a as [|c a IH]; intros [|d b] H; simpl in H;
      try discriminate; [reflexivity|].
    apply andb_true_iff in H as [Hc Hr].
    apply Ascii.eqb_eq in Hc. apply IH in Hr. now subst.
  - intros ->. apply eqb_refl.
Qed.

Lemma eqb_neq (a b : text) : eqb a b = false <-> a <> b.
Proof.
  split.
  - intros H E. apply eqb_eq in E. congruence.
  - intros H. destruct (eqb a b) eqn:E; [|reflexivity].
    apply eqb_eq in E. contradiction.
Qed.

Lemma eqb_sym (a b : text) : eqb a b = eqb b a.
Proof.
  destruct (eqb a b) eqn:E.
  - apply eqb_eq in E. subst. symmetry. apply eqb_refl.
  - symmetry. apply eqb_neq. apply eqb_neq in E. congruence.
Qed.

Lemma startswith_split (s p : text) :
  startswith s p = true -> exists t, s = p ++ t.
Proof.
  revert s; induction p as [|x p IH]; intros s H.
  - now exists s.
  - destruct s as [|y s]; simpl in H; [discriminate|].
    apply andb_true_iff in H as [Hc Hr].
    apply Ascii.eqb_eq in Hc. destruct (IH _ Hr) as [t ->].
    exists t. now subst.
Qed.

(** ** Segmenter *)

Lemma any_nonblank_app (a b : list text) :
  any_nonblank (a ++ b) = any_nonblank a || any_nonblank b.
Proof. apply existsb_app. Qed.

Lemma b_lines_append (b : block) (l : text) :
  b_lines (append_line b l) = b_lines b ++ [l].
Proof. now destruct b. Qed.

Lemma seg_step_shebang st l :
  is_shebang l = true -> seg_step st l = st.
Proof.
  unfold is_shebang, seg_step. intros H. destruct st as [bs cur].
  now rewrite H.
Qed.

Lemma seg_step_blank bs cur l :
  is_blank l = true -> seg_step (bs, cur) l = (bs, append_line cur l).
Proof.
  unfold is_blank, seg_step. intros H. apply eqb_eq in H. now rewrite H.
Qed.

Lemma segment_no_content (lines : list text) (st : seg_state) :
  forallb (fun l => is_shebang l || is_blank l) lines = true ->
  fst st = [] -> has_content (snd st) = false ->
  seg_finish (fold_left seg_step lines st) = [].
Proof.
  revert st; induction lines as [|l lines IH]; intros [bs cur] Hall Hb Hc;
    cbn [fold_left forallb fst snd seg_finish] in *.
  - subst. unfold close_block. unfold has_content in Hc. now rewrite Hc.
  - apply andb_true_iff in Hall as [Hl Hall].
    destruct (is_shebang l) eqn:Hs.
    + rewrite seg_step_shebang by assumption. now apply IH.
    + simpl in Hl. rewrite seg_step_blank by assumption.
      apply IH; simpl; try assumption.
      unfold has_content in *. rewrite b_lines_append, any_nonblank_app, Hc.
      simpl. unfold is_blank in Hl. now rewrite Hl.
Qed.

(** C8, as the specification states it, fails: a file of one shebang
    line and two blank lines is not turned into a file structure; it is
    reported as failed. *)
Lemma C8_shebang_only_file_is_reported_failed :
  let fs : filesystem :=
    fun p => if eqb p (py "empty.pl")
             then Some [ln "#!/usr/bin/perl"; nl; ln "   "] else None in
  process_single_file fs (py "empty.pl")
    = failed (py "empty.pl") (py "Failed to create AST")
  /\ ~ (exists ast, process_single_file fs (py "empty.pl")
                      = success (py "empty.pl") ast).
Proof.
  split; [reflexivity|]. intros [ast H]. vm_compute in H. discriminate.
Qed.

(** C8, amended: a readable file whose lines are only shebang lines and
    blank lines yields no block at all, so no file structure is built
    and the file is reported as failed with the error text
    "Failed to create AST". *)
Theorem C8_blank_file_fails (fs : filesystem) (perl_file : text)
        (lines : list text) :
  fs perl_file = Some lines ->
  forallb (fun l => is_shebang l || is_blank l) lines = true ->
  parse_perl_file_to_blocks fs perl_file = []
  /\ create_ast_from_file fs perl_file = None
  /\ process_single_file fs perl_file
     = failed perl_file (py "Failed to create AST").
Proof.
  intros Hfs Hall.
  assert (Hb : parse_perl_file_to_blocks fs perl_file = []).
  { unfold parse_perl_file_to_blocks. rewrite Hfs. unfold segment.
    now apply segment_no_content. }
  assert (Ha : create_ast_from_file fs perl_file = None).
  { unfold create_ast_from_file. now rewrite Hb. }
  repeat split; try assumption.
  unfold process_single_file. now rewrite Ha.
Qed.

Lemma C8_blank_file_fails_witness :
  let fs : filesystem :=
    fun p => if eqb p (py "empty.pl")
             then Some [ln "#!/usr/bin/perl"; nl; ln "   "] else None in
  process_single_file fs (py "empty.pl")
    = failed (py "empty.pl") (py "Failed to create AST").
Proof.
  intro fs.
  apply (C8_blank_file_fails fs (py "empty.pl")
           [ln "#!/usr/bin/perl"; nl; ln "   "]); reflexivity.
Defined.

Lemma close_block_filter (abs : list block) (cur : block) :
  close_block (filter has_content abs) cur = filter has_content (abs ++ [cur]).
Proof.
  unfold close_block. rewrite filter_app. simpl.
  fold (has_content cur). now destruct (has_content cur); rewrite ?app_nil_r.
Qed.

Lemma seg_step_acc_step (abs : list block) (cur : block) (l : text) :
  seg_step (filter has_content abs, cur) l
  = (filter has_content (fst (acc_step (abs, cur) l)),
     snd (acc_step (abs, cur) l)).
Proof.
  unfold seg_step, acc_step, is_shebang.
  destruct (startswith (strip l) (py "#!")); [reflexivity|].
  destruct (re_match package_re (strip l)); [|reflexivity].
  cbn [fst snd]. now rewrite close_block_filter.
Qed.

Lemma fold_seg_step_acc_step (lines : list text) (abs : list block)
      (cur : block) :
  fold_left seg_step lines (filter has_content abs, cur)
  = (filter has_content (fst (fold_left acc_step lines (abs, cur))),
     snd (fold_left acc_step lines (abs, cur))).
Proof.
  revert abs cur; induction lines as [|l lines IH]; intros abs cur;
    cbn [fold_left]; [reflexivity|].
  rewrite seg_step_acc_step.
  destruct (acc_step (abs, cur) l) as [abs' cur']. cbn [fst snd]. apply IH.
Qed.

Lemma acc_step_length (st : seg_state) (l : text) :
  length (fst (acc_step st l))
  = length (fst st) + (if is_package_line l then 1 else 0).
Proof.
  destruct st as [abs cur]. unfold acc_step, is_package_line.
  destruct (is_shebang l); cbn [negb andb fst]; [lia|].
  destruct (re_match package_re (strip l)); cbn [fst].
  - rewrite length_app. reflexivity.
  - lia.
Qed.

Lemma fold_acc_step_length (lines : list text) (st : seg_state) :
  length (fst (fold_left acc_step lines st))
  = length (fst st) + package_line_count lines.
Proof.
  revert st; induction lines as [|l lines IH]; intros st; cbn [fold_left].
  - unfold package_line_count. simpl. lia.
  - rewrite IH, acc_step_length. unfold package_line_count. simpl.
    destruct (is_package_line l); simpl; lia.
Qed.

(** C4, as the specification states it, fails: a file of two namespace
    declarations of which the first is followed by no content has one
    block, not two. *)
Lemma C4_empty_package_block_is_dropped :
  let lines := [ln "package Foo;"; ln "package Bar;"; ln "1;"] in
  begins_with_package lines = true
  /\ package_line_count lines = 2
  /\ segment lines = [package (py "Bar") [ln "1;"]]
  /\ length (segment lines) <> package_line_count lines
  /\ length (segment lines) <> package_line_count lines + 1.
Proof. vm_compute. repeat split; discriminate. Qed.

(** C4, amended: the emitted blocks are the accumulators (the leading
    global one and one per namespace-declaration line) that hold at
    least one non-blank line, in order; the number of accumulators is
    the number of namespace-declaration lines plus one, so the number of
    blocks is at most that. *)
Theorem C4_block_count (lines : list text) :
  segment lines = filter has_content (accumulators lines)
  /\ length (accumulators lines) = package_line_count lines + 1
  /\ length (segment lines) <= package_line_count lines + 1.
Proof.
  assert (H1 : segment lines = filter has_content (accumulators lines)).
  { unfold segment, accumulators, seg_init.
    change (@nil block) with (filter has_content []) at 1.
    rewrite fold_seg_step_acc_step.
    destruct (fold_left acc_step lines ([], global_scope [])) as [abs cur].
    cbn [fst snd seg_finish]. apply close_block_filter. }
  assert (H2 : length (accumulators lines) = package_line_count lines + 1).
  { unfold accumulators.
    pose proof (fold_acc_step_length lines seg_init) as H.
    destruct (fold_left acc_step lines seg_init) as [abs cur].
    cbn [fst] in H. rewrite length_app, H. simpl. lia. }
  repeat split; try assumption.
  rewrite H1, <- H2. apply filter_length_le.
Qed.

(** ** Classifier *)

Lemma sub_line_is_not_import (t : text) :
  re_match use_re (py "sub " ++ t) = None.
Proof. reflexivity. Qed.

(** A line that opens a definition: what the classifier does with it and
    with the lines of its span. *)
Lemma classify_sub (package_name : option text) (line : text)
      (rest : list text) (sub_match : match_obj) us ms es :
  startswith (strip line) (py "sub ") = true ->
  re_match sub_re (strip line) = Some sub_match ->
  contains_char line "{" = true ->
  classify package_name (line :: rest) us ms es
  = classify package_name (snd (span (brace_delta line) rest)) us
      (ms ++ [make_method package_name (group sub_match 1)
                          (line :: fst (span (brace_delta line) rest))])
      es.
Proof.
  intros Hsub Hm Hbrace. cbn [classify].
  destruct (startswith_split _ _ Hsub) as [t Ht].
  rewrite Ht at 1. rewrite sub_line_is_not_import.
  rewrite Hsub, Hm, Hbrace.
  change (line :: fst (span (brace_delta line) rest))
    with ([line] ++ fst (span (brace_delta line) rest)).
  generalize (brace_delta line) as bc. generalize [line] as sl.
  induction rest as [|l r IH]; intros sl bc.
  - simpl. destruct (bc >? 0)%Z; simpl; now rewrite app_nil_r.
  - cbn [span]. destruct (bc >? 0)%Z eqn:Hbc.
    + rewrite IH.
      destruct (span (bc + brace_delta l) r) as [taken remaining].
      cbn [fst snd]. now rewrite <- app_assoc.
    + cbn [fst snd]. now rewrite app_nil_r.
Qed.

(** C5, as the specification states it, fails: a definition whose
    opening brace stands on the line after the keyword line is not
    extracted; all its lines become residual lines. *)
Lemma C5_brace_on_later_line_is_residual :
  parse_block_content
    [ln "sub foo"; ln "{"; ln "  return 1;"; ln "}"] (Some (py "Foo"))
  = ([], [], [ln "sub foo"; ln "{"; ln "  return 1;"; ln "}"]).
Proof. reflexivity. Qed.

(** C5, amended: a keyword line opens a definition only when the line
    itself holds an opening brace.  Wherever the scan stands, a line
    that starts with the definition keyword but holds no opening brace
    is added to the residual lines, no definition is recorded for it,
    and the scan goes on with the next line. *)
Theorem C5_keyword_line_without_brace (package_name : option text)
        (line : text) (rest : list text) (use_statements : list use_statement)
        (methods : list method) (execution_lines : list text) :
  startswith (strip line) (py "sub ") = true ->
  contains_char line "{" = false ->
  classify package_name (line :: rest) use_statements methods execution_lines
  = classify package_name rest use_statements methods
             (execution_lines ++ [line]).
Proof.
  intros Hsub Hbrace. cbn [classify].
  destruct (startswith_split _ _ Hsub) as [t Ht].
  rewrite Ht at 1. rewrite sub_line_is_not_import.
  rewrite Hsub, Hbrace.
  now destruct (re_match sub_re (strip line)).
Qed.

Lemma C5_keyword_line_without_brace_witness :
  classify (Some (py "Foo")) [ln "sub foo"; ln "{"; ln "}"] [] [] []
  = classify (Some (py "Foo")) [ln "{"; ln "}"] [] [] [ln "sub foo"].
Proof.
  apply (C5_keyword_line_without_brace (Some (py "Foo")) (ln "sub foo")
           [ln "{"; ln "}"] [] [] []); reflexivity.
Defined.

(** ** Brace scan to the end of the input *)

Lemma span_never_balanced (bc : Z) (rest : list text) :
  never_balanced bc rest -> span bc rest = (rest, []).
Proof.
  revert bc; induction rest as [|l r IH]; intros bc [Hpos H]; cbn [span].
  - now destruct (bc >? 0)%Z.
  - apply Z.gt_lt, Z.gtb_lt in Hpos. rewrite Hpos. now rewrite (IH _ H).
Qed.

Lemma contains_char_cons (c x : ascii) (s : text) :
  contains_char (x :: s) c = Ascii.eqb x c || contains_char s c.
Proof. reflexivity. Qed.

Lemma find_first (pre t : text) (c : ascii) :
  contains_char pre c = false ->
  find (pre ++ c :: t) c = Z.of_nat (length pre).
Proof.
  induction pre as [|x pre IH]; intros H.
  - simpl. now rewrite Ascii.eqb_refl.
  - rewrite contains_char_cons in H. apply orb_false_iff in H as [Hx Hp].
    cbn [app find]. rewrite Hx, (IH Hp).
    destruct (Z.of_nat (length pre) <? 0)%Z eqn:E; [lia|].
    cbn [length]. lia.
Qed.

Lemma rfind_absent (s : text) (c : ascii) :
  contains_char s c = false -> rfind s c = (-1)%Z.
Proof.
  induction s as [|x s IH]; intros H; [reflexivity|].
  rewrite contains_char_cons in H. apply orb_false_iff in H as [Hx Hs].
  cbn [rfind]. rewrite (IH Hs), Hx. reflexivity.
Qed.

Lemma rfind_last (s post : text) (c : ascii) :
  contains_char post c = false ->
  rfind (s ++ c :: post) c = Z.of_nat (length s).
Proof.
  intros H. induction s as [|x s IH].
  - cbn [app rfind]. rewrite (rfind_absent _ _ H), Ascii.eqb_refl. reflexivity.
  - cbn [app rfind]. rewrite IH.
    destruct (0 <=? Z.of_nat (length s))%Z eqn:E; [|lia].
    cbn [length]. lia.
Qed.

Lemma clamp_inside (len i : Z) :
  (0 <= i <= len)%Z -> clamp len i = i.
Proof.
  intros H. unfold clamp.
  destruct (i <? 0)%Z eqn:E; [apply Z.ltb_lt in E; lia|]. lia.
Qed.

Lemma slice_middle (a b c : text) :
  slice (a ++ b ++ c) (Z.of_nat (length a)) (Z.of_nat (length a + length b))
  = b.
Proof.
  unfold slice. rewrite !clamp_inside by (rewrite !length_app; lia).
  replace (Z.to_nat (Z.of_nat (length a + length b) - Z.of_nat (length a)))
    with (length b) by lia.
  rewrite Nat2Z.id.
  rewrite skipn_app, skipn_all, Nat.sub_diag. cbn [skipn app].
  rewrite firstn_app, firstn_all, Nat.sub_diag. cbn [firstn].
  now rewrite app_nil_r.
Qed.

(** The body is the text between the first opening and the last closing
    brace, stripped, whenever the span has them in that order. *)
Lemma sub_body_between (sub_lines : list text) (pre mid post : text) :
  join sub_lines = pre ++ "{"%char :: mid ++ "}"%char :: post ->
  contains_char pre "{" = false ->
  contains_char post "}" = false ->
  sub_body sub_lines = strip mid.
Proof.
  intros Hj Hpre Hpost. unfold sub_body. rewrite Hj.
  rewrite (find_first _ _ _ Hpre).
  destruct (Z.of_nat (length pre) =? -1)%Z eqn:E;
    [apply Z.eqb_eq in E; lia|].
  replace (pre ++ "{"%char :: mid ++ "}"%char :: post)
    with ((pre ++ "{"%char :: mid) ++ "}"%char :: post)
    by (now rewrite <- app_assoc).
  rewrite (rfind_last _ _ _ Hpost).
  replace ((pre ++ "{"%char :: mid) ++ "}"%char :: post)
    with ((pre ++ ["{"%char]) ++ mid ++ "}"%char :: post)
    by (now rewrite <- !app_assoc).
  replace (Z.of_nat (length pre) + 1)%Z
    with (Z.of_nat (length (pre ++ ["{"%char])))
    by (rewrite length_app; simpl; lia).
  replace (Z.of_nat (length (pre ++ "{"%char :: mid)))
    with (Z.of_nat (length (pre ++ ["{"%char]) + length mid))
    by (rewrite !length_app; simpl; lia).
  now rewrite slice_middle.
Qed.

(** C6: a definition whose brace counter stays above zero to the end of
    the input is still recorded.  Wherever the scan stands, the
    classifier takes every remaining line into the span, adds one
    definition for it and ends with the imports and residual lines it
    had; nothing fails.  The body of that definition is the stripped
    text between the first opening brace and the last closing brace of
    the span, whenever the span holds a closing brace behind its first
    opening brace. *)
Theorem C6_unbalanced_definition (package_name : option text) (line : text)
        (rest : list text) (sub_match : match_obj)
        (use_statements : list use_statement) (methods : list method)
        (execution_lines : list text) :
  startswith (strip line) (py "sub ") = true ->
  re_match sub_re (strip line) = Some sub_match ->
  contains_char line "{" = true ->
  never_balanced (brace_delta line) rest ->
  let definition :=
    make_method package_name (group sub_match 1) (line :: rest) in
  classify package_name (line :: rest) use_statements methods execution_lines
  = (use_statements, methods ++ [definition], execution_lines)
  /\ m_name definition = group sub_match 1
  /\ forall pre mid post : text,
       join (line :: rest) = pre ++ "{"%char :: mid ++ "}"%char :: post ->
       contains_char pre "{" = false ->
       contains_char post "}" = false ->
       m_body definition = strip mid.
Proof.
  intros Hsub Hm Hbrace Hnb definition. split; [|split].
  - rewrite (classify_sub _ _ _ _ _ _ _ Hsub Hm Hbrace).
    rewrite (span_never_balanced _ _ Hnb). reflexivity.
  - reflexivity.
  - intros pre mid post Hj Hpre Hpost. cbn [definition make_method m_body].
    now apply (sub_body_between _ pre mid post).
Qed.

Lemma C6_unbalanced_definition_witness :
  parse_block_content
    [ln "sub q {"; ln "  if ($x) {"; ln "    return 1;"; ln "  }"]
    (Some (py "Foo"))
  = ([],
     [SubDefinition (py "q") []
        (py "if ($x) {" ++ nl ++ py "    return 1;") (Some (py "Foo"))
        (py "Foo::q")],
     []).
Proof.
  assert (Hm : re_match sub_re (strip (ln "sub q {"))
               = Some (MatchObj (py "sub q") [(1, py "q")] (py " {")))
    by reflexivity.
  destruct (C6_unbalanced_definition (Some (py "Foo")) (ln "sub q {")
              [ln "  if ($x) {"; ln "    return 1;"; ln "  }"]
              _ [] [] [] eq_refl Hm eq_refl) as [H _].
  - simpl. repeat split; reflexivity.
  - exact H.
Defined.

(** ** The matcher on character classes *)

Lemma run_star_chr (A : Type) (p : ascii -> bool) (s : text) (caps : captures)
      (k : text -> captures -> option A) :
  run (Star (Chr p)) s caps k = star_chr p s caps k.
Proof.
  cbn [run].
  remember (length s) as fuel eqn:Hf.
  assert (Hle : length s <= fuel) by lia. clear Hf.
  revert s caps Hle. induction fuel as [|fuel IH]; intros s caps Hle.
  - destruct s; [reflexivity|simpl in Hle; lia].
  - destruct s as [|c s]; [reflexivity|].
    cbn [star_chr]. destruct (p c) eqn:Hp.
    + replace (length s <? length (c :: s)) with true
        by (symmetry; apply Nat.ltb_lt; simpl; lia).
      rewrite IH by (simpl in Hle; lia). reflexivity.
    + reflexivity.
Qed.

Lemma star_chr_greedy (A : Type) (p : ascii -> bool) (s : text)
      (caps : captures) (k : text -> captures -> option A) (a : A) :
  k (drop_while p s) caps = Some a -> star_chr p s caps k = Some a.
Proof.
  induction s as [|c s IH]; intros H; cbn [star_chr drop_while] in *.
  - assumption.
  - destruct (p c); [now rewrite (IH H)|assumption].
Qed.

Lemma take_drop_while (p : ascii -> bool) (s : text) :
  take_while p s ++ drop_while p s = s.
Proof.
  induction s as [|c s IH]; [reflexivity|]. simpl.
  destruct (p c); [simpl; now rewrite IH|reflexivity].
Qed.

(** ** The import pattern *)

Lemma firstn_take_while (p : ascii -> bool) (c : ascii) (s : text) :
  firstn (length (c :: s) - length (drop_while p s)) (c :: s)
  = c :: take_while p s.
Proof.
  pose proof (take_drop_while p s) as H.
  assert (Hl : length s = length (take_while p s) + length (drop_while p s))
    by (rewrite <- length_app; now rewrite H).
  cbn [length].
  replace (S (length s) - length (drop_while p s))
    with (S (length (take_while p s))) by lia.
  cbn [firstn]. f_equal.
  rewrite <- H at 2. rewrite firstn_app, firstn_all, Nat.sub_diag.
  cbn [firstn]. now rewrite app_nil_r.
Qed.

Lemma module_tail_head (s0 : text) (c : ascii) (s1 : text) (caps : captures) :
  not_semicolon c = true ->
  exists m, run module_tail (c :: s1) caps (finish s0) = Some m
            /\ groups m = (2, c :: take_while not_semicolon s1) :: caps.
Proof.
  intros Hc.
  set (k3 := fun (s' : text) (caps' : captures) =>
               run (pattern [Opt (Lit1 ";")]) s'
                   ((2, firstn (length (c :: s1) - length s') (c :: s1))
                      :: caps') (finish s0)).
  change (run module_tail (c :: s1) caps (finish s0))
    with (if not_semicolon c
          then run (Star (Chr not_semicolon)) s1 caps k3 else None).
  rewrite Hc, run_star_chr.
  assert (Hk : exists m, k3 (drop_while not_semicolon s1) caps = Some m
                         /\ groups m
                            = (2, c :: take_while not_semicolon s1) :: caps).
  { unfold k3. rewrite firstn_take_while.
    destruct (drop_while not_semicolon s1) as [|x d].
    - eexists. split; reflexivity.
    - change (run (pattern [Opt (Lit1 ";")]) (x :: d)
                  ((2, c :: take_while not_semicolon s1) :: caps) (finish s0))
        with (match (if Ascii.eqb ";" x
                     then finish s0 d
                            ((2, c :: take_while not_semicolon s1) :: caps)
                     else None) with
              | Some a => Some a
              | None => finish s0 (x :: d)
                          ((2, c :: take_while not_semicolon s1) :: caps)
              end).
      destruct (Ascii.eqb ";" x); eexists; split; reflexivity. }
  destruct Hk as [m [Hm Hg]]. exists m. split; [|exact Hg].
  now apply star_chr_greedy.
Qed.

Lemma module_tail_semicolon (s0 : text) (c : ascii) (s1 : text)
      (caps : captures) :
  not_semicolon c = false ->
  run module_tail (c :: s1) caps (finish s0) = None.
Proof.
  intros Hc.
  change (run module_tail (c :: s1) caps (finish s0))
    with (if not_semicolon c
          then run (Star (Chr not_semicolon)) s1 caps
                   (fun (s' : text) (caps' : captures) =>
                      run (pattern [Opt (Lit1 ";")]) s'
                          ((2, firstn (length (c :: s1) - length s') (c :: s1))
                             :: caps') (finish s0))
          else None).
  now rewrite Hc.
Qed.

Lemma module_tail_empty (s0 : text) (caps : captures) :
  run module_tail [] caps (finish s0) = None.
Proof. reflexivity. Qed.

Lemma strip_space_cons (c : ascii) (s : text) :
  isspace c = true -> strip (c :: s) = strip s.
Proof. intros H. unfold strip. cbn [lstrip]. now rewrite H. Qed.

Lemma semicolon_not_space (c : ascii) :
  not_semicolon c = false -> isspace c = false.
Proof.
  unfold not_semicolon, contains_char. cbn [py existsb list_ascii_of_string].
  rewrite orb_false_r. intros H. apply negb_false_iff, Ascii.eqb_eq in H.
  now subst.
Qed.

Lemma space_not_semicolon (c : ascii) :
  isspace c = true -> not_semicolon c = true.
Proof.
  intros H. destruct (not_semicolon c) eqn:E; [reflexivity|].
  apply semicolon_not_space in E. congruence.
Qed.

Lemma group_head (m : match_obj) (n : nat) (g : text) (caps : captures) :
  groups m = (n, g) :: caps -> group m n = g.
Proof. intros H. unfold group. rewrite H. cbn. now rewrite Nat.eqb_refl. Qed.

(** After the keyword and one white-space character: the white space
    is taken greedily, and one character of it is given back when
    nothing but the terminator is left for the module text. *)
Lemma spaces_then_module (s0 : text) (s : text) (caps : captures) :
  match s with c :: _ => not_semicolon c = true | [] => False end ->
  exists m,
    star_chr isspace s caps
             (fun s' caps' => run module_tail s' caps' (finish s0)) = Some m
    /\ strip (group m 2) = strip (take_while not_semicolon s).
Proof.
  induction s as [|c s IH]; intros Hhead; [contradiction|].
  assert (Hhere : exists m,
             run module_tail (c :: s) caps (finish s0) = Some m
             /\ strip (group m 2) = strip (take_while not_semicolon (c :: s))).
  { destruct (module_tail_head s0 c s caps Hhead) as [m [Hm Hg]].
    exists m. split; [exact Hm|].
    rewrite (group_head _ _ _ _ Hg). cbn [take_while]. now rewrite Hhead. }
  cbn [star_chr]. destruct (isspace c) eqn:Hsp; [|exact Hhere].
  destruct s as [|c' s'].
  - cbn [star_chr]. rewrite module_tail_empty. exact Hhere.
  - cbn beta iota in IH. destruct (not_semicolon c') eqn:Hc'.
    + destruct (IH eq_refl) as [m [Hm Hg]]. rewrite Hm. exists m.
      split; [reflexivity|]. rewrite Hg.
      cbn [take_while]. rewrite Hhead, Hc'.
      now rewrite (strip_space_cons c _ Hsp).
    + cbn [star_chr]. rewrite (semicolon_not_space _ Hc').
      rewrite (module_tail_semicolon s0 c' s' caps Hc'). exact Hhere.
Qed.

Lemma import_tail_match (s0 : text) (c1 : ascii) (s : text) (caps : captures) :
  isspace c1 = true ->
  match s with c :: _ => not_semicolon c = true | [] => False end ->
  exists m,
    run import_tail (c1 :: s) caps (finish s0) = Some m
    /\ strip (group m 2) = strip (take_while not_semicolon (c1 :: s)).
Proof.
  intros Hc1 Hs.
  change (run import_tail (c1 :: s) caps (finish s0))
    with (if isspace c1
          then run (Star (Chr isspace)) s caps
                   (fun s' caps' => run module_tail s' caps' (finish s0))
          else None).
  rewrite Hc1, run_star_chr.
  destruct (spaces_then_module s0 s caps Hs) as [m [Hm Hg]].
  exists m. split; [exact Hm|]. rewrite Hg.
  cbn [take_while]. rewrite (space_not_semicolon _ Hc1).
  now rewrite (strip_space_cons c1 _ Hc1).
Qed.

(** The import pattern on a text that begins with one of its two
    keywords. *)
Lemma use_re_no (tail : text) :
  re_match use_re (py "no" ++ tail)
  = run import_tail tail
        [(1, firstn (length (py "no" ++ tail) - length tail) (py "no" ++ tail))]
        (finish (py "no" ++ tail)).
Proof. reflexivity. Qed.

Lemma use_re_use (tail : text) :
  re_match use_re (py "use" ++ tail)
  = match run import_tail tail
            [(1, firstn (length (py "use" ++ tail) - length tail)
                        (py "use" ++ tail))]
            (finish (py "use" ++ tail)) with
    | Some m => Some m
    | None => None
    end.
Proof. reflexivity. Qed.

Lemma import_line_match (keyword : text) (c1 : ascii) (s : text) :
  keyword = py "use" \/ keyword = py "no" ->
  isspace c1 = true ->
  match s with c :: _ => not_semicolon c = true | [] => False end ->
  exists m,
    re_match use_re (keyword ++ c1 :: s) = Some m
    /\ strip (group m 2) = strip (take_while not_semicolon (c1 :: s)).
Proof.
  intros [-> | ->] Hc1 Hs.
  - rewrite use_re_use.
    destruct (import_tail_match (py "use" ++ c1 :: s) c1 s
                [(1, firstn (length (py "use" ++ c1 :: s) - length (c1 :: s))
                            (py "use" ++ c1 :: s))] Hc1 Hs) as [m [Hm Hg]].
    rewrite Hm. now exists m.
  - rewrite use_re_no.
    destruct (import_tail_match (py "no" ++ c1 :: s) c1 s
                [(1, firstn (length (py "no" ++ c1 :: s) - length (c1 :: s))
                            (py "no" ++ c1 :: s))] Hc1 Hs) as [m [Hm Hg]].
    rewrite Hm. now exists m.
Qed.

(** C10: an un-import line is recorded as an import exactly like an
    import line.  Wherever the scan stands and whatever the block, a
    line whose stripped text is the keyword [no] (or [use]), white
    space, and then module text, adds one import record, whose module
    is the stripped text between the keyword and the first terminator
    (or the end of the line), and the scan goes on with the next
    line. *)
Theorem C10_no_line_is_an_import (package_name : option text) (line : text)
        (rest : list text) (use_statements : list use_statement)
        (methods : list method) (execution_lines : list text)
        (keyword : text) (c1 c2 : ascii) (t : text) :
  keyword = py "no" \/ keyword = py "use" ->
  strip line = keyword ++ c1 :: c2 :: t ->
  isspace c1 = true ->
  not_semicolon c2 = true ->
  classify package_name (line :: rest) use_statements methods execution_lines
  = classify package_name rest
      (use_statements
         ++ [UseStatement (strip (take_while not_semicolon (c1 :: c2 :: t)))
                          None])
      methods execution_lines.
Proof.
  intros Hk Hline Hc1 Hc2.
  assert (Hk' : keyword = py "use" \/ keyword = py "no") by tauto.
  destruct (import_line_match keyword c1 (c2 :: t) Hk' Hc1 Hc2)
    as [m [Hm Hg]].
  cbn [classify]. rewrite Hline, Hm, Hg. reflexivity.
Qed.

Lemma C10_no_line_is_an_import_witness :
  parse_block_content [ln "no strict;"; ln "use warnings;"; ln "1;"] None
  = ([UseStatement (py "strict") None; UseStatement (py "warnings") None],
     [], [ln "1;"]).
Proof.
  unfold parse_block_content.
  rewrite (C10_no_line_is_an_import None (ln "no strict;")
             [ln "use warnings;"; ln "1;"] [] [] []
             (py "no") " "%char "s"%char (py "trict;")
             (or_introl eq_refl) eq_refl eq_refl eq_refl).
  reflexivity.
Defined.

(** ** Dictionaries *)

Section DictFacts.
Context {K V : Type} (keq : K -> K -> bool).
Hypothesis keq_eq : forall a b, keq a b = true <-> a = b.

Lemma keq_refl (a : K) : keq a a = true.
Proof. now apply keq_eq. Qed.

Lemma keq_false (a b : K) : keq a b = false <-> a <> b.
Proof.
  split.
  - intros H E. apply keq_eq in E. congruence.
  - intros H. destruct (keq a b) eqn:E; [|reflexivity].
    apply keq_eq in E. contradiction.
Qed.

Lemma get_setitem_same (k : K) (v : V) (d : PyDict.dict K V) :
  PyDict.get keq k (PyDict.setitem keq k v d) = Some v.
Proof.
  induction d as [|[k1 v1] d IH]; cbn [PyDict.setitem PyDict.get].
  - now rewrite keq_refl.
  - destruct (keq k k1) eqn:E; cbn [PyDict.get].
    + now rewrite keq_refl.
    + now rewrite E.
Qed.

Lemma get_setitem_other (k k' : K) (v : V) (d : PyDict.dict K V) :
  k <> k' ->
  PyDict.get keq k (PyDict.setitem keq k' v d) = PyDict.get keq k d.
Proof.
  intros Hne. apply keq_false in Hne.
  induction d as [|[k1 v1] d IH]; cbn [PyDict.setitem PyDict.get].
  - now rewrite Hne.
  - destruct (keq k' k1) eqn:E; cbn [PyDict.get].
    + apply keq_eq in E. subst k1. now rewrite Hne.
    + now rewrite IH.
Qed.

Lemma keys_setitem (k k' : K) (v : V) (d : PyDict.dict K V) :
  In k (PyDict.keys (PyDict.setitem keq k' v d))
  <-> k = k' \/ In k (PyDict.keys d).
Proof.
  unfold PyDict.keys.
  induction d as [|[k1 v1] d IH]; cbn [PyDict.setitem map fst In].
  - intuition.
  - destruct (keq k' k1) eqn:E; cbn [map fst In].
    + apply keq_eq in E. subst k1. intuition.
    + rewrite IH. intuition.
Qed.

Lemma keys_setitem_NoDup (k : K) (v : V) (d : PyDict.dict K V) :
  NoDup (PyDict.keys d) -> NoDup (PyDict.keys (PyDict.setitem keq k v d)).
Proof.
  unfold PyDict.keys.
  induction d as [|[k1 v1] d IH]; intros H; cbn [PyDict.setitem map fst].
  - constructor; [intros []|constructor].
  - inversion H as [|? ? Hnin Hnd]; subst.
    destruct (keq k k1) eqn:E; cbn [map fst].
    + apply keq_eq in E. subst k1. now constructor.
    + constructor; [|now apply IH].
      intros Hin. apply (keys_setitem k1 k v d) in Hin.
      destruct Hin as [-> | Hin]; [|contradiction].
      rewrite keq_refl in E. discriminate.
Qed.

Lemma get_In (k : K) (v : V) (d : PyDict.dict K V) :
  PyDict.get keq k d = Some v -> In (k, v) d.
Proof.
  induction d as [|[k1 v1] d IH]; cbn [PyDict.get]; [discriminate|].
  destruct (keq k k1) eqn:E.
  - apply keq_eq in E. subst k1. intros [= ->]. now left.
  - intros H. right. now apply IH.
Qed.

Lemma In_get (k : K) (v : V) (d : PyDict.dict K V) :
  NoDup (PyDict.keys d) -> In (k, v) d -> PyDict.get keq k d = Some v.
Proof.
  unfold PyDict.keys.
  induction d as [|[k1 v1] d IH]; intros Hnd Hin; [destruct Hin|].
  inversion Hnd as [|? ? Hnin Hnd']; subst. cbn [PyDict.get].
  destruct Hin as [[= -> ->] | Hin].
  - now rewrite keq_refl.
  - destruct (keq k k1) eqn:E.
    + apply keq_eq in E. subst k1. exfalso. apply Hnin.
      change k with (fst (k, v)). now apply in_map.
    + now apply IH.
Qed.

Lemma get_None_keys (k : K) (d : PyDict.dict K V) :
  PyDict.get keq k d = None <-> ~ In k (PyDict.keys d).
Proof.
  unfold PyDict.keys.
  induction d as [|[k1 v1] d IH]; cbn [PyDict.get map fst In].
  - intuition.
  - destruct (keq k k1) eqn:E.
    + apply keq_eq in E. subst k1. split; [discriminate|intuition].
    + apply keq_false in E. rewrite IH. intuition.
Qed.

End DictFacts.

(** ** Registry *)

Lemma register_method_owned (file package_name : text) (reg : registry)
      (m : method) (q : text) :
  m_full_name m = q \/ owned_by reg q file ->
  owned_by (register_method file package_name reg m) q file.
Proof.
  intros H. unfold register_method.
  destruct (eqb q (m_full_name m)) eqn:E.
  - apply eqb_eq in E. subst q. eexists. split.
    + apply (get_setitem_same eqb eqb_eq).
    + reflexivity.
  - apply eqb_neq in E. destruct H as [H | [e [He Hf]]]; [congruence|].
    exists e. split; [|exact Hf].
    now rewrite (get_setitem_other eqb eqb_eq) by exact E.
Qed.

Lemma register_methods_owned (file package_name : text) (ms : list method)
      (reg : registry) (q : text) :
  (exists m, In m ms /\ m_full_name m = q) \/ owned_by reg q file ->
  owned_by (fold_left (register_method file package_name) ms reg) q file.
Proof.
  revert reg; induction ms as [|m ms IH]; intros reg H; cbn [fold_left].
  - destruct H as [[m [[] _]] | H]. exact H.
  - apply IH. destruct H as [[m' [[-> | Hin] Hq]] | H].
    + right. apply register_method_owned. now left.
    + left. now exists m'.
    + right. apply register_method_owned. now right.
Qed.

Lemma register_packages_owned (file : text) (ps : list package_declaration)
      (reg : registry) (q : text) :
  (exists p m, In p ps /\ In m (p_methods p) /\ m_full_name m = q)
  \/ owned_by reg q file ->
  owned_by (fold_left (register_package file) ps reg) q file.
Proof.
  revert reg; induction ps as [|p ps IH]; intros reg H; cbn [fold_left].
  - destruct H as [[p [m [[] _]]] | H]. exact H.
  - apply IH. destruct H as [[p' [m [[-> | Hin] [Hm Hq]]]] | H].
    + right. apply register_methods_owned. left. now exists m.
    + left. now exists p', m.
    + right. apply register_methods_owned. now right.
Qed.

Lemma register_file_owned (reg : registry) (f : file_ast) (q : text) :
  declares f q -> owned_by (register_file reg f) q (f_source_file f).
Proof.
  intros H. apply register_packages_owned. now left.
Qed.

Lemma build_registry_last (pre : list file_ast) (f : file_ast) :
  build_registry (pre ++ [f]) = register_file (build_registry pre) f.
Proof. unfold build_registry. now rewrite fold_left_app. Qed.

Lemma register_file_NoDup (reg : registry) (f : file_ast) :
  NoDup (PyDict.keys reg) -> NoDup (PyDict.keys (register_file reg f)).
Proof.
  unfold register_file. generalize (f_source_file f) as file.
  intros file. revert reg.
  induction (f_packages f) as [|p ps IH]; intros reg H; cbn [fold_left];
    [exact H|].
  apply IH. unfold register_package. generalize (p_name p) as pn. intros pn.
  revert reg H. induction (p_methods p) as [|m ms IHm]; intros reg H;
    cbn [fold_left]; [exact H|].
  apply IHm. unfold register_method.
  now apply (keys_setitem_NoDup eqb eqb_eq).
Qed.

Lemma build_registry_NoDup (fs : list file_ast) :
  NoDup (PyDict.keys (build_registry fs)).
Proof.
  unfold build_registry.
  assert (H : NoDup (PyDict.keys (@nil (text * registry_entry))))
    by constructor.
  revert H. generalize (@nil (text * registry_entry)) as reg.
  induction fs as [|f fs IH]; intros reg H; cbn [fold_left]; [exact H|].
  apply IH. now apply register_file_NoDup.
Qed.

(** C1, as the specification states it, fails in its second half: with
    [A.pm] then [B.pm] both declaring [Foo::bar], the registry entry
    names [B.pm], and nothing the assembly derives names [A.pm]; there
    is no conflict record. *)
Lemma C1_no_conflict_record :
  match assemble (asts_of two_declarations [py "A.pm"; py "B.pm"]) with
  | None => False
  | Some out =>
      global_function_registry out
      = Some [(py "Foo::bar",
               RegistryEntry (py "B.pm") (py "Foo") (py "bar")
                             [py "bar"; py "Foo::bar"; py "$obj->bar"])]
      /\ cross_file_calls out = Some []
      /\ dependencies out = []
      /\ package_definitions out
         = [(py "Foo", PackageDefinition (py "B.pm") [py "bar"])]
      /\ ~ (exists r, In r (derived_records out)
                      /\ In (py "A.pm") (files_named r)
                      /\ In (py "B.pm") (files_named r))
  end.
Proof.
  vm_compute.
  repeat (split; [reflexivity|]).
  intros [r [Hr [HA HB]]].
  destruct Hr as [<- | [<- | []]];
    destruct HA as [HA | []]; discriminate HA.
Qed.

(** ** Direct-function calls *)

(** C2, as the specification states it, fails: the first registry entry
    whose bare name is [foo] belongs to the caller's own file, and yet
    the match is not discarded; the scan goes on to the entry of
    [b.pm] and a call edge to it is emitted. *)
Lemma C2_same_file_entry_is_passed_over :
  let reg := build_registry (asts_of two_foos [py "a.pm"; py "b.pm"]) in
  PyDict.keys reg = [py "A::foo"; py "A::bar"; py "B::foo"]
  /\ option_map (fun kv => (fst kv, r_file (snd kv)))
       (List.find (fun kv => eqb (r_method_name (snd kv)) (py "foo")) reg)
     = Some (py "A::foo", py "a.pm")
  /\ find_function_calls_in_code (py "return foo(2);") reg
       (py "a.pm") (py "A") (Some (py "A::bar"))
     = [CrossFileCall (py "a.pm") (py "A") (Some (py "A::bar"))
                      (py "b.pm") (py "B") (py "foo") (py "B::foo")
                      (py "foo(") direct_function].
Proof. vm_compute. repeat split. Qed.

Lemma direct_call_none (cf cp : text) (cm : option text)
      (m : match_obj) (f : text) (items : list (text * registry_entry)) :
  (forall k e, In (k, e) items -> r_method_name e = f -> r_file e = cf) ->
  direct_call cf cp cm m f items = [].
Proof.
  induction items as [|[k e] items IH]; intros H; cbn [direct_call];
    [reflexivity|].
  destruct (eqb (r_method_name e) f) eqn:En; cbn [andb].
  - apply eqb_eq in En. rewrite (H k e (or_introl eq_refl) En), eqb_refl.
    cbn [negb]. apply IH. intros k' e' Hin. apply (H k'). now right.
  - apply IH. intros k' e' Hin. apply (H k'). now right.
Qed.

Lemma direct_call_first (cf cp : text) (cm : option text)
      (m : match_obj) (f : text) (pre post : list (text * registry_entry))
      (full_name : text) (info : registry_entry) :
  (forall k e, In (k, e) pre -> r_method_name e = f -> r_file e = cf) ->
  r_method_name info = f ->
  r_file info <> cf ->
  direct_call cf cp cm m f (pre ++ (full_name, info) :: post)
  = [CrossFileCall cf cp cm (r_file info) (r_package info)
                   (r_method_name info) full_name (group0 m) direct_function].
Proof.
  intros Hpre Hn Hf.
  induction pre as [|[k e] pre IH]; cbn [app direct_call].
  - apply eqb_eq in Hn. apply eqb_neq in Hf. now rewrite Hn, Hf.
  - destruct (eqb (r_method_name e) f) eqn:En; cbn [andb].
    + apply eqb_eq in En. rewrite (Hpre k e (or_introl eq_refl) En), eqb_refl.
      cbn [negb]. apply IH. intros k' e' Hin. apply (Hpre k'). now right.
    + apply IH. intros k' e' Hin. apply (Hpre k'). now right.
Qed.

(** ** What a match consumes *)

Lemma forallb_weaken (p q : ascii -> bool) (s : text) :
  (forall c, p c = true -> q c = true) ->
  forallb p s = true -> forallb q s = true.
Proof.
  intros H. induction s as [|c s IH]; [reflexivity|]. cbn [forallb].
  intros Hs. apply andb_true_iff in Hs as [Hc Hs].
  now rewrite (H _ Hc), (IH Hs).
Qed.

(** A successful run hands to its continuation what is left of the text
    behind a prefix made of characters the pattern takes. *)
Lemma run_sound (A : Type) (r : regex) :
  forall (s : text) (caps : captures) (k : text -> captures -> option A)
         (a : A),
    run r s caps k = Some a ->
    exists pre s' caps',
      s = pre ++ s' /\ forallb (accepts r) pre = true /\ k s' caps' = Some a.
Proof.
  induction r as [|p|r1 IH1 r2 IH2|r1 IH1 r2 IH2|r1 IH1|n r1 IH1];
    intros s caps k a H.
  - exists [], s, caps. now repeat split.
  - destruct s as [|c s]; cbn [run] in H; [discriminate|].
    destruct (p c) eqn:Hp; [|discriminate].
    exists [c], s, caps. cbn [forallb accepts]. rewrite Hp. now repeat split.
  - cbn [run] in H. apply IH1 in H as (pre1 & s1 & caps1 & -> & Hp1 & H).
    apply IH2 in H as (pre2 & s2 & caps2 & -> & Hp2 & H).
    exists (pre1 ++ pre2), s2, caps2. split; [now rewrite app_assoc|].
    split; [|exact H]. rewrite forallb_app. cbn [accepts].
    rewrite (forallb_weaken (accepts r1) _ pre1), (forallb_weaken (accepts r2) _ pre2);
      try assumption; try reflexivity;
      intros c Hc; rewrite Hc; auto using orb_true_r.
  - cbn [run] in H. destruct (run r1 s caps k) eqn:E.
    + injection H as ->. apply IH1 in E as (pre & s' & caps' & -> & Hp & E).
      exists pre, s', caps'. repeat split; try assumption.
      apply (forallb_weaken (accepts r1)); [|exact Hp].
      intros c Hc. cbn [accepts]. now rewrite Hc.
    + apply IH2 in H as (pre & s' & caps' & -> & Hp & H).
      exists pre, s', caps'. repeat split; try assumption.
      apply (forallb_weaken (accepts r2)); [|exact Hp].
      intros c Hc. cbn [accepts]. rewrite Hc. apply orb_true_r.
  - cbn [run] in H. remember (length s) as fuel eqn:Hf in H. clear Hf.
    revert s caps H.
    induction fuel as [|fuel IHf]; intros s caps H.
    + exists [], s, caps. now repeat split.
    + match type of H with
      | match ?scrut with _ => _ end = _ => destruct scrut eqn:E
      end.
      * injection H as ->.
        apply IH1 in E as (pre1 & s1 & caps1 & -> & Hp1 & E).
        destruct (length s1 <? length (pre1 ++ s1)); [|discriminate].
        apply IHf in E as (pre2 & s2 & caps2 & -> & Hp2 & E).
        exists (pre1 ++ pre2), s2, caps2. split; [now rewrite app_assoc|].
        split; [|exact E]. rewrite forallb_app.
        change (accepts (Star r1)) with (accepts r1) in *.
        now rewrite Hp1, Hp2.
      * exists [], s, caps. now repeat split.
  - cbn [run] in H. apply IH1 in H as (pre & s' & caps' & -> & Hp & H).
    exists pre, s'. eexists. repeat split; [exact Hp|exact H].
Qed.

Lemma re_match_group0 (r : regex) (s : text) (m : match_obj) :
  re_match r s = Some m -> forallb (accepts r) (group0 m) = true.
Proof.
  unfold re_match. intros H.
  apply run_sound in H as (pre & s' & caps' & -> & Hp & H).
  injection H as <-. cbn [group0].
  rewrite length_app, Nat.add_sub.
  rewrite firstn_app, firstn_all, Nat.sub_diag. cbn [firstn].
  now rewrite app_nil_r.
Qed.

Lemma finditer_from_match (fuel : nat) (r : regex) (s : text) (m : match_obj) :
  In m (finditer_from fuel r s) -> exists s1, re_match r s1 = Some m.
Proof.
  revert s; induction fuel as [|fuel IH]; intros s H; cbn [finditer_from] in H;
    [destruct H|].
  destruct (re_match r s) as [m0|] eqn:E.
  - destruct (length (after m0) <? length s).
    + destruct H as [<- | H]; [now exists s|now apply (IH _ H)].
    + destruct s as [|c s].
      * destruct H as [<- | []]. now exists [].
      * destruct H as [<- | H]; [now exists (c :: s)|now apply (IH _ H)].
  - destruct s as [|c s]; [destruct H|now apply (IH _ H)].
Qed.

Lemma contains_head (p : ascii -> bool) (s t : text) (c : ascii) :
  forallb p s = true -> contains s (c :: t) = true -> p c = true.
Proof.
  induction s as [|x s IH]; intros Hall H; cbn [contains startswith] in H.
  - discriminate.
  - cbn [forallb] in Hall. apply andb_true_iff in Hall as [Hx Hall].
    apply orb_true_iff in H as [H | H].
    + apply andb_true_iff in H as [H _]. apply Ascii.eqb_eq in H. now subst.
    + now apply IH.
Qed.

(** A match of the direct-function pattern never holds the constructor
    arrow, so it always takes the direct-function branch. *)
Lemma direct_match_has_no_arrow (code : text) (m : match_obj) :
  In m (finditer direct_function_re code) ->
  contains (group0 m) (py "->new") = false.
Proof.
  intros H. apply finditer_from_match in H as [s1 H].
  apply re_match_group0 in H.
  destruct (contains (group0 m) (py "->new")) eqn:E; [|reflexivity].
  apply (contains_head _ _ _ _ H) in E. vm_compute in E. discriminate.
Qed.

(** C2, amended: calls are looked for with the four patterns in turn.
    For every match of the direct-function pattern, the candidate is the
    first registry entry, in registry insertion order, whose bare
    definition name equals the identifier and whose owning file differs
    from the caller's file, and one call edge to it is emitted; entries
    of the caller's own file are passed over and do not end the scan.
    When no entry has that name outside the caller's file, the match
    gives no edge. *)
Theorem C2_direct_function_resolution (code : text) (reg : registry)
        (cf cp : text) (cm : option text) :
  find_function_calls_in_code code reg cf cp cm
  = flat_map (handle_match reg cf cp cm 2) (finditer object_method_re code)
    ++ flat_map (handle_match reg cf cp cm 2)
                (finditer package_function_re code)
    ++ flat_map (handle_match reg cf cp cm 1)
                (finditer direct_function_re code)
    ++ flat_map (handle_match reg cf cp cm 1) (finditer constructor_re code)
  /\ forall m, In m (finditer direct_function_re code) ->
       (forall pre full_name info post,
           reg = pre ++ (full_name, info) :: post ->
           (forall k e, In (k, e) pre ->
                        r_method_name e = group m 1 -> r_file e = cf) ->
           r_method_name info = group m 1 ->
           r_file info <> cf ->
           handle_match reg cf cp cm 1 m
           = [CrossFileCall cf cp cm (r_file info) (r_package info)
                            (r_method_name info) full_name (group0 m)
                            direct_function])
       /\ ((forall k e, In (k, e) reg ->
                        r_method_name e = group m 1 -> r_file e = cf) ->
           handle_match reg cf cp cm 1 m = []).
Proof.
  split.
  - unfold find_function_calls_in_code, patterns. cbn [flat_map].
    now rewrite app_nil_r.
  - intros m Hm. cbn [handle_match].
    rewrite (direct_match_has_no_arrow _ _ Hm). split.
    + intros pre full_name info post -> Hpre Hn Hf.
      now apply direct_call_first.
    + intros Hall. now apply direct_call_none.
Qed.

Lemma C2_direct_function_resolution_witness :
  let reg := build_registry (asts_of two_foos [py "a.pm"; py "b.pm"]) in
  let m := MatchObj (py "foo(") [(1, py "foo")] (py "2);") in
  handle_match reg (py "a.pm") (py "A") (Some (py "A::bar")) 1 m
  = [CrossFileCall (py "a.pm") (py "A") (Some (py "A::bar"))
                   (py "b.pm") (py "B") (py "foo") (py "B::foo")
                   (py "foo(") direct_function].
Proof.
  intros reg m.
  assert (Hm : In m (finditer direct_function_re (py "return foo(2);")))
    by (vm_compute; left; reflexivity).
  destruct (C2_direct_function_resolution (py "return foo(2);") reg
              (py "a.pm") (py "A") (Some (py "A::bar"))) as [_ H].
  destruct (H m Hm) as [H1 _].
  apply (H1 [(py "A::foo",
              RegistryEntry (py "a.pm") (py "A") (py "foo")
                            [py "foo"; py "A::foo"; py "$obj->foo"]);
             (py "A::bar",
              RegistryEntry (py "a.pm") (py "A") (py "bar")
                            [py "bar"; py "A::bar"; py "$obj->bar"])]
            (py "B::foo")
            (RegistryEntry (py "b.pm") (py "B") (py "foo")
                           [py "foo"; py "B::foo"; py "$obj->foo"]) []).
  - reflexivity.
  - intros k e [[= <- <-] | [[= <- <-] | []]] _; reflexivity.
  - reflexivity.
  - discriminate.
Defined.

(** ** Dependencies *)

Lemma set_add_In (t t0 : text) (s : list text) :
  In t (PyDict.set_add eqb t0 s) <-> In t s \/ t = t0.
Proof.
  unfold PyDict.set_add, PyDict.set_mem.
  destruct (existsb (eqb t0) s) eqn:E.
  - apply existsb_exists in E as [y [Hy Hey]]. apply eqb_eq in Hey. subst y.
    split; [now left|]. intros [H | ->]; assumption.
  - rewrite in_app_iff. cbn [In]. intuition.
Qed.

Lemma add_dependency_spec (f0 t0 : text) (deps : PyDict.dict text (list text))
      (f t : text) :
  depends_on (add_dependency f0 t0 deps) f t
  <-> depends_on deps f t \/ (f = f0 /\ t = t0).
Proof.
  unfold depends_on, add_dependency.
  destruct (eqb f f0) eqn:E.
  - apply eqb_eq in E. subst f0.
    rewrite (get_setitem_same eqb eqb_eq). split.
    + intros [s [[= <-] Hin]]. apply set_add_In in Hin as [Hin | ->].
      * left. destruct (PyDict.get eqb f deps) as [old|]; [|destruct Hin].
        now exists old.
      * now right.
    + intros H. eexists. split; [reflexivity|]. apply set_add_In.
      destruct H as [[s [Hs Hin]] | [_ ->]]; [|now right].
      left. now rewrite Hs.
  - apply eqb_neq in E.
    rewrite (get_setitem_other eqb eqb_eq) by exact E.
    split; [now left|]. intros [H | [Hf _]]; [exact H|contradiction].
Qed.

Lemma use_loop_spec (pds : PyDict.dict text package_definition)
      (stmts : list use_statement) :
  forall deps deps',
    use_loop pds deps stmts = Some deps' ->
    forall f t,
      depends_on deps' f t
      <-> depends_on deps f t
          \/ exists u, In u stmts /\ imports_scope pds u f t.
Proof.
  induction stmts as [|u stmts IH]; intros deps deps' H f t;
    cbn [use_loop] in H.
  - injection H as <-. split; [now left|].
    intros [H | [u [[] _]]]. exact H.
  - destruct (use_step pds deps u) as [deps1|] eqn:E; [|discriminate].
    rewrite (IH _ _ H f t). clear IH H.
    unfold use_step in E.
    destruct (split_ws (u_module u)) as [|tok toks] eqn:Et; [discriminate|].
    destruct (u_source_file u) as [file_of_use|] eqn:Ef; [|discriminate].
    destruct (PyDict.get eqb tok pds) as [pd|] eqn:Ep; injection E as <-.
    + rewrite add_dependency_spec. split.
      * intros [[H | [-> ->]] | [u' [Hin H]]].
        -- now left.
        -- right. exists u. split; [now left|]. now exists tok, toks, pd.
        -- right. exists u'. split; [now right|exact H].
      * intros [H | [u' [[<- | Hin] H]]].
        -- now left; left.
        -- left. right. destruct H as (tok' & toks' & pd' & H1 & H2 & H3 & H4).
           rewrite Ef in H1. rewrite Et in H2.
           injection H1 as <-. injection H2 as <- <-.
           rewrite Ep in H3. injection H3 as <-. now split.
        -- right. now exists u'.
    + split.
      * intros [H | [u' [Hin H]]]; [now left|].
        right. exists u'. split; [now right|exact H].
      * intros [H | [u' [[<- | Hin] H]]]; [now left| |right; now exists u'].
        destruct H as (tok' & toks' & pd' & H1 & H2 & H3 & H4).
        rewrite Et in H2. injection H2 as <- <-. congruence.
Qed.

Lemma collect_package_uses (file : text) (ps : list package_declaration) :
  forall pds us,
    snd (fold_left (collect_package file) ps (pds, us))
    = us ++ flat_map p_use_statements ps.
Proof.
  induction ps as [|p ps IH]; intros pds us; cbn [fold_left flat_map].
  - now rewrite app_nil_r.
  - cbn [collect_package]. rewrite IH. now rewrite app_assoc.
Qed.

Lemma collect_file_uses (fs : list file_ast) :
  forall pds us,
    snd (fold_left collect_file fs (pds, us)) = us ++ all_use_statements fs.
Proof.
  induction fs as [|f fs IH]; intros pds us;
    cbn [fold_left all_use_statements flat_map].
  - now rewrite app_nil_r.
  - cbn [collect_file].
    destruct (fold_left (collect_package (f_source_file f)) (f_packages f)
                        (pds, us ++ f_use_statements f)) as [pds' us'] eqn:E.
    rewrite IH.
    pose proof (collect_package_uses (f_source_file f) (f_packages f) pds
                  (us ++ f_use_statements f)) as H.
    rewrite E in H. cbn [snd] in H. rewrite H.
    fold (all_use_statements fs). now rewrite <- !app_assoc.
Qed.

(** C7, as the specification states it, fails: a file that imports a
    scope it declares itself gets a dependency edge to itself. *)
Lemma C7_file_depends_on_itself :
  option_map fst (analyze_dependencies (asts_of imports_itself [py "a.pm"]))
  = Some [(py "a.pm", [py "a.pm"])]
  /\ exists deps pds,
       analyze_dependencies (asts_of imports_itself [py "a.pm"])
       = Some (deps, pds)
       /\ depends_on deps (py "a.pm") (py "a.pm").
Proof.
  split; [reflexivity|].
  eexists. eexists. split; [reflexivity|].
  eexists. split; [reflexivity|]. now left.
Qed.

(** C7, amended: when the analysis returns, it has a Dependency edge
    from a file to a file exactly when some Import standing in the first
    file has a module text whose first white-space-delimited token is a
    known named scope and the second file is the one recorded for that
    scope; whether the two files differ is not looked at, so a file
    that imports a scope of its own depends on itself. *)
Theorem C7_dependency_edges (fs : list file_ast)
        (deps : PyDict.dict text (list text))
        (pds : PyDict.dict text package_definition) :
  analyze_dependencies fs = Some (deps, pds) ->
  forall f t,
    depends_on deps f t
    <-> exists u, In u (all_use_statements fs) /\ imports_scope pds u f t.
Proof.
  unfold analyze_dependencies. intros H f t.
  destruct (fold_left collect_file fs ([], [])) as [pds0 us] eqn:E0.
  assert (Hu : us = all_use_statements fs).
  { change us with (snd (pds0, us)). rewrite <- E0.
    apply (collect_file_uses fs [] []). }
  subst us.
  destruct (use_loop pds0 [] (all_use_statements fs)) as [deps0|] eqn:E;
    [|discriminate].
  injection H as <- <-.
  rewrite (use_loop_spec _ _ _ _ E f t). split.
  - intros [[s [Hs _]] | H]; [discriminate|exact H].
  - intros H. now right.
Qed.

Lemma C7_dependency_edges_witness :
  depends_on [(py "a.pm", [py "a.pm"])] (py "a.pm") (py "a.pm")
  <-> exists u,
        In u (all_use_statements (asts_of imports_itself [py "a.pm"]))
        /\ imports_scope
             [(py "A", PackageDefinition (py "a.pm") [py "f"]);
              (py "B", PackageDefinition (py "a.pm") [])]
             u (py "a.pm") (py "a.pm").
Proof.
  apply (C7_dependency_edges (asts_of imports_itself [py "a.pm"])).
  reflexivity.
Defined.

(** ** Aggregation *)

Lemma value_eqb_canon (a b : value) :
  value_eqb a b = true <-> canon a = canon b.
Proof.
  destruct a as [s|x|x], b as [t|y|y]; cbn [value_eqb canon];
    try (split; [discriminate|intros [=]]).
  - rewrite eqb_eq. split; [now intros ->|now intros [= ->]].
  - destruct x, y; cbn; split; intros H; try reflexivity; discriminate.
  - rewrite Z.eqb_eq. split; [now intros ->|now intros [= ->]].
  - rewrite Z.eqb_eq. split; [now intros ->|now intros [= ->]].
  - rewrite Z.eqb_eq. split; [now intros ->|now intros [= ->]].
Qed.

Lemma value_eqb_refl (a : value) : value_eqb a a = true.
Proof. now apply value_eqb_canon. Qed.

Lemma value_eqb_sym (a b : value) : value_eqb a b = value_eqb b a.
Proof.
  destruct (value_eqb a b) eqn:E1, (value_eqb b a) eqn:E2; try reflexivity.
  - apply value_eqb_canon in E1. symmetry in E1.
    apply value_eqb_canon in E1. congruence.
  - apply value_eqb_canon in E2. symmetry in E2.
    apply value_eqb_canon in E2. congruence.
Qed.

Lemma value_eqb_trans (a b c : value) :
  value_eqb a b = true -> value_eqb b c = true -> value_eqb a c = true.
Proof.
  rewrite !value_eqb_canon. congruence.
Qed.

Lemma set_mem_app (v : value) (s1 s2 : list value) :
  PyDict.set_mem value_eqb v (s1 ++ s2)
  = PyDict.set_mem value_eqb v s1 || PyDict.set_mem value_eqb v s2.
Proof. apply existsb_app. Qed.

Lemma set_mem_equal (v x : value) (s : list value) :
  value_eqb v x = true ->
  PyDict.set_mem value_eqb v s = PyDict.set_mem value_eqb x s.
Proof.
  intros H. unfold PyDict.set_mem. induction s as [|y s IH]; [reflexivity|].
  cbn [existsb]. rewrite IH. f_equal.
  destruct (value_eqb v y) eqn:E1, (value_eqb x y) eqn:E2; try reflexivity.
  - rewrite value_eqb_sym in H.
    now rewrite (value_eqb_trans _ _ _ H E1) in E2.
  - now rewrite (value_eqb_trans _ _ _ H E2) in E1.
Qed.

Lemma set_add_mem (v x : value) (s : list value) :
  PyDict.set_mem value_eqb v (PyDict.set_add value_eqb x s) = true
  <-> PyDict.set_mem value_eqb v s = true \/ value_eqb v x = true.
Proof.
  unfold PyDict.set_add. destruct (PyDict.set_mem value_eqb x s) eqn:E.
  - split; [now left|]. intros [H | H]; [exact H|].
    now rewrite (set_mem_equal v x s H).
  - rewrite set_mem_app, orb_true_iff. cbn. now rewrite orb_false_r.
Qed.

Lemma distinct_snoc (s : list value) (x : value) :
  distinct s -> PyDict.set_mem value_eqb x s = false -> distinct (s ++ [x]).
Proof.
  induction s as [|y s IH]; intros Hd Hx; cbn [app distinct].
  - now split.
  - destruct Hd as [Hy Hd]. cbn in Hx. apply orb_false_iff in Hx as [Hxy Hx].
    split; [|now apply IH].
    rewrite set_mem_app, Hy. cbn. rewrite orb_false_r.
    now rewrite value_eqb_sym.
Qed.

Lemma set_add_distinct (x : value) (s : list value) :
  distinct s -> distinct (PyDict.set_add value_eqb x s).
Proof.
  intros H. unfold PyDict.set_add.
  destruct (PyDict.set_mem value_eqb x s) eqn:E; [exact H|].
  now apply distinct_snoc.
Qed.

Lemma key_eqb_eq (a b : rel_key) : key_eqb a b = true <-> a = b.
Proof.
  destruct a as [[f1 t1] y1], b as [[f2 t2] y2]. cbn [key_eqb].
  rewrite !andb_true_iff, !eqb_eq. split.
  - now intros [[-> ->] ->].
  - now intros [= -> -> ->].
Qed.

Lemma agg_step_get (k : rel_key) (agg : PyDict.dict rel_key agg_data)
      (rel : graph_relationship) :
  PyDict.get key_eqb k (agg_step agg rel)
  = if same_key k rel
    then Some (data_step k
                 (match PyDict.get key_eqb k agg with
                  | Some d => d | None => agg_default end) rel)
    else PyDict.get key_eqb k agg.
Proof.
  unfold agg_step, data_step. destruct (same_key k rel) eqn:E.
  - unfold same_key in E. apply key_eqb_eq in E. rewrite E.
    now rewrite (get_setitem_same key_eqb key_eqb_eq).
  - apply (get_setitem_other key_eqb key_eqb_eq).
    intros ->. unfold same_key in E.
    now rewrite (keq_refl key_eqb key_eqb_eq) in E.
Qed.

Lemma data_step_other (k : rel_key) (d : agg_data) (rel : graph_relationship) :
  same_key k rel = false -> data_step k d rel = d.
Proof. unfold data_step. now intros ->. Qed.

Lemma aggregate_get (k : rel_key) (rels : list graph_relationship) :
  forall agg,
    PyDict.get key_eqb k (fold_left agg_step rels agg)
    = match PyDict.get key_eqb k agg with
      | Some d => Some (fold_left (data_step k) rels d)
      | None =>
          if existsb (same_key k) rels
          then Some (fold_left (data_step k) rels agg_default)
          else None
      end.
Proof.
  induction rels as [|rel rels IH]; intros agg; cbn [fold_left existsb].
  - now destruct (PyDict.get key_eqb k agg).
  - rewrite IH, agg_step_get. destruct (same_key k rel) eqn:E.
    + now destruct (PyDict.get key_eqb k agg).
    + cbn [orb]. destruct (PyDict.get key_eqb k agg) as [d|].
      * now rewrite (data_step_other _ _ _ E).
      * now rewrite (data_step_other _ _ _ E).
Qed.

Lemma aggregate_keys (rels : list graph_relationship) :
  forall agg k,
    In k (PyDict.keys (fold_left agg_step rels agg))
    <-> In k (PyDict.keys agg) \/ In k (map key_of rels).
Proof.
  induction rels as [|rel rels IH]; intros agg k; cbn [fold_left map In].
  - intuition.
  - rewrite IH. unfold agg_step.
    rewrite (keys_setitem key_eqb key_eqb_eq). intuition.
Qed.

Lemma aggregate_NoDup (rels : list graph_relationship) :
  forall agg,
    NoDup (PyDict.keys agg) ->
    NoDup (PyDict.keys (fold_left agg_step rels agg)).
Proof.
  induction rels as [|rel rels IH]; intros agg H; cbn [fold_left];
    [exact H|].
  apply IH. unfold agg_step.
  now apply (keys_setitem_NoDup key_eqb key_eqb_eq).
Qed.

Lemma data_count (k : rel_key) (rels : list graph_relationship) :
  forall d,
    a_count (fold_left (data_step k) rels d)
    = (a_count d + Z.of_nat (length (collapsed k rels)))%Z.
Proof.
  unfold collapsed.
  induction rels as [|rel rels IH]; intros d; cbn [fold_left filter].
  - cbn. lia.
  - rewrite IH. unfold data_step.
    destruct (same_key k rel); cbn [a_count length]; lia.
Qed.

Lemma add_if_present_mem (name : text) (props : properties) (s : list value)
      (v : value) :
  PyDict.set_mem value_eqb v (add_if_present name props s) = true
  <-> PyDict.set_mem value_eqb v s = true
      \/ exists v', PyDict.get eqb name props = Some v'
                    /\ value_eqb v v' = true.
Proof.
  unfold add_if_present. destruct (PyDict.get eqb name props) as [v'|].
  - rewrite set_add_mem. split.
    + intros [H | H]; [now left|right; now exists v'].
    + intros [H | [v'' [[= <-] H]]]; [now left|now right].
  - split; [now left|]. intros [H | [v' [[=] _]]]. exact H.
Qed.

Lemma add_if_present_distinct (name : text) (props : properties)
      (s : list value) :
  distinct s -> distinct (add_if_present name props s).
Proof.
  intros H. unfold add_if_present.
  destruct (PyDict.get eqb name props); [now apply set_add_distinct|exact H].
Qed.

Lemma data_sets_mem (name : text) (k : rel_key)
      (rels : list graph_relationship) (v : value) :
  name = py "call_pattern" \/ name = py "call_type" ->
  forall d,
    PyDict.set_mem value_eqb v (set_of name (fold_left (data_step k) rels d))
    = true
    <-> PyDict.set_mem value_eqb v (set_of name d) = true
        \/ observed name k rels v.
Proof.
  intros Hname.
  induction rels as [|rel rels IH]; intros d; cbn [fold_left].
  - split; [now left|]. intros [H | (rel & v' & [] & _)]. exact H.
  - rewrite IH. clear IH. unfold data_step, observed.
    destruct (same_key k rel) eqn:E.
    + unfold same_key in E. apply key_eqb_eq in E.
      assert (Hset : PyDict.set_mem value_eqb v
                       (set_of name
                          (AggData (a_count d + 1)
                             (match a_properties d with
                              | [] => rel_properties rel | p => p end)
                             (add_if_present (py "call_pattern")
                                (rel_properties rel) (a_call_patterns d))
                             (add_if_present (py "call_type")
                                (rel_properties rel) (a_call_types d))))
                     = true
                     <-> PyDict.set_mem value_eqb v (set_of name d) = true
                         \/ exists v',
                              PyDict.get eqb name (rel_properties rel)
                              = Some v' /\ value_eqb v v' = true).
      { destruct Hname as [-> | ->]; unfold set_of; cbn [eqb py];
          cbn; apply add_if_present_mem. }
      rewrite Hset. split.
      * intros [[H | [v' [Hg Hv]]] | (rel' & v' & Hin & H)].
        -- now left.
        -- right. exists rel, v'. repeat split; try assumption. now left.
        -- right. exists rel', v'. split; [now right|exact H].
      * intros [H | (rel' & v' & [<- | Hin] & Hk & Hg & Hv)].
        -- now left; left.
        -- left. right. now exists v'.
        -- right. now exists rel', v'.
    + split.
      * intros [H | (rel' & v' & Hin & H)]; [now left|].
        right. exists rel', v'. split; [now right|exact H].
      * intros [H | (rel' & v' & [<- | Hin] & Hk & Hg & Hv)]; [now left| |].
        -- unfold same_key in E. rewrite Hk in E.
           now rewrite (keq_refl key_eqb key_eqb_eq) in E.
        -- right. now exists rel', v'.
Qed.

Lemma data_sets_distinct (k : rel_key) (rels : list graph_relationship) :
  forall d,
    distinct (a_call_patterns d) -> distinct (a_call_types d) ->
    distinct (a_call_patterns (fold_left (data_step k) rels d))
    /\ distinct (a_call_types (fold_left (data_step k) rels d)).
Proof.
  induction rels as [|rel rels IH]; intros d Hp Ht; cbn [fold_left];
    [now split|].
  apply IH; unfold data_step; destruct (same_key k rel);
    cbn [a_call_patterns a_call_types]; try assumption;
    now apply add_if_present_distinct.
Qed.

Ltac text_neq :=
  let H := fresh in intros H; vm_compute in H; discriminate H.

Lemma agg_emit_spec (k : rel_key) (d : agg_data) :
  key_of (agg_emit (k, d)) = k
  /\ PyDict.get eqb (py "call_count") (rel_properties (agg_emit (k, d)))
     = Some (VInt (a_count d))
  /\ (a_call_patterns d <> [] ->
      PyDict.get eqb (py "call_patterns") (rel_properties (agg_emit (k, d)))
      = Some (VStr (json_dumps (a_call_patterns d))))
  /\ (a_call_types d <> [] ->
      PyDict.get eqb (py "call_types") (rel_properties (agg_emit (k, d)))
      = Some (VStr (json_dumps (a_call_types d)))).
Proof.
  destruct k as [[f t] y]. cbn [agg_emit].
  split; [reflexivity|]. cbn [rel_properties].
  destruct (a_call_patterns d) as [|p0 ps], (a_call_types d) as [|t0 ts];
    (split; [|split; intros H; try congruence]);
    repeat (first
      [ apply (get_setitem_same eqb eqb_eq)
      | rewrite (get_setitem_other eqb eqb_eq) by text_neq ]).
Qed.

Lemma aggregate_data (rels : list graph_relationship) (k : rel_key)
      (d : agg_data) :
  In (k, d) (aggregate rels) ->
  d = fold_left (data_step k) rels agg_default.
Proof.
  intros Hin. unfold aggregate in Hin.
  assert (Hnd : NoDup (PyDict.keys (fold_left agg_step rels [])))
    by (apply aggregate_NoDup; constructor).
  apply (In_get key_eqb key_eqb_eq _ _ _ Hnd) in Hin.
  rewrite aggregate_get in Hin. cbn [PyDict.get] in Hin.
  destruct (existsb (same_key k) rels); congruence.
Qed.

(** C3: in the output of the graph transformer there is exactly one
    relationship for every (from_id, to_id, type) triple of the raw
    relationships, and none for any other triple; its [call_count] is
    the number of raw relationships with that triple; and the distinct
    [call_pattern] and [call_type] values seen on those raw
    relationships are collected in two sets without repetition, each
    recorded (as the JSON text of its list) when it is not empty. *)
Theorem C3_aggregation (ast : project_ast) :
  let rels := snd (raw_graph ast) in
  let out := snd (_transform_perl_ast ast) in
  NoDup (map key_of out)
  /\ (forall k, In k (map key_of out) <-> In k (map key_of rels))
  /\ forall r, In r out ->
       PyDict.get eqb (py "call_count") (rel_properties r)
       = Some (VInt (Z.of_nat (length (collapsed (key_of r) rels))))
       /\ exists call_patterns call_types,
            distinct call_patterns
            /\ distinct call_types
            /\ (forall v, PyDict.set_mem value_eqb v call_patterns = true
                          <-> observed (py "call_pattern") (key_of r) rels v)
            /\ (forall v, PyDict.set_mem value_eqb v call_types = true
                          <-> observed (py "call_type") (key_of r) rels v)
            /\ (call_patterns <> [] ->
                PyDict.get eqb (py "call_patterns") (rel_properties r)
                = Some (VStr (json_dumps call_patterns)))
            /\ (call_types <> [] ->
                PyDict.get eqb (py "call_types") (rel_properties r)
                = Some (VStr (json_dumps call_types))).
Proof.
  intros rels out. subst out.
  change (snd (_transform_perl_ast ast)) with (aggregate_relationships rels).
  clearbody rels. set (out := aggregate_relationships rels).
  assert (Hkeys : map key_of out = PyDict.keys (aggregate rels)).
  { unfold out, aggregate_relationships, PyDict.keys. rewrite map_map.
    apply map_ext. intros [k d]. apply agg_emit_spec. }
  split; [|split].
  - rewrite Hkeys. apply aggregate_NoDup. constructor.
  - intros k. rewrite Hkeys. unfold aggregate. rewrite aggregate_keys.
    cbn [PyDict.keys map In]. intuition.
  - intros r Hr. unfold out, aggregate_relationships in Hr.
    apply in_map_iff in Hr as [[k d] [<- Hin]].
    destruct (agg_emit_spec k d) as (Hk & Hc & Hp & Ht).
    rewrite Hk, Hc.
    pose proof (aggregate_data _ _ _ Hin) as Hd.
    split.
    + rewrite Hd, data_count. reflexivity.
    + exists (a_call_patterns d), (a_call_types d).
      destruct (data_sets_distinct k rels agg_default I I) as [Hdp Hdt].
      rewrite <- Hd in Hdp, Hdt.
      assert (Hmem : forall name v,
                 name = py "call_pattern" \/ name = py "call_type" ->
                 PyDict.set_mem value_eqb v (set_of name d) = true
                 <-> observed name k rels v).
      { intros name v Hname. rewrite Hd.
        rewrite (data_sets_mem name k rels v Hname agg_default).
        split; [|now right].
        intros [H | H]; [|exact H].
        destruct Hname as [-> | ->]; discriminate H. }
      repeat split; try assumption.
      * apply (Hmem (py "call_pattern") v (or_introl eq_refl)).
      * apply (Hmem (py "call_pattern") v (or_introl eq_refl)).
      * apply (Hmem (py "call_type") v (or_intror eq_refl)).
      * apply (Hmem (py "call_type") v (or_intror eq_refl)).
Qed.

(** ** Call-edge endpoints *)

(** C9 at the failing input: the call edge from the global scope of
    [main.pl] becomes a relationship whose [from_id] is the id of no
    emitted node. *)
Lemma C9_global_scope_caller_has_no_node :
  match assemble (asts_of global_caller [py "lib/Animal.pm"; py "main.pl"]) with
  | None => False
  | Some project =>
      option_map (map (fun c => (caller_file c, caller_package c,
                                 caller_method c, target_full_name c)))
                 (cross_file_calls project)
      = Some [(py "main.pl", py "global", None, py "Animal::speak");
              (py "main.pl", py "global", None, py "Animal::speak")]
      /\ map n_id (fst (_transform_perl_ast project))
         = [py "file_lib_Animal_pm";
            py "package_file_lib_Animal_pm_Animal";
            py "method_package_file_lib_Animal_pm_Animal_speak";
            py "file_main_pl"]
      /\ map (fun r => (from_id r, to_id r))
             (filter (fun r => eqb (rel_type r) (py "CALLS_METHOD"))
                     (snd (_transform_perl_ast project)))
         = [(py "script_package_file_main_pl_global",
             py "method_package_file_lib_Animal_pm_Animal_speak")]
      /\ forall n, In n (fst (_transform_perl_ast project)) ->
                   n_id n <> py "script_package_file_main_pl_global"
  end.
Proof.
  vm_compute. repeat (split; [reflexivity|]).
  intros n [<- | [<- | [<- | [<- | []]]]]; discriminate.
Qed.

(** ** Remarks *)

(** A span without any closing brace: [rfind] gives -1, and the slice
    ends one character before the end of the span. *)
Example body_without_closing_brace :
  sub_body [ln "sub q {"; py "  return 1"] = py "return".
Proof. reflexivity. Qed.

(** An import whose module text holds no token stops the dependency
    analysis with an [IndexError]. *)
Example import_without_token :
  map u_module (all_use_statements
                  (asts_of (fun _ => Some [ln "use  ;"; ln "1;"]) [py "x.pl"]))
  = [[]]
  /\ analyze_dependencies
       (asts_of (fun _ => Some [ln "use  ;"; ln "1;"]) [py "x.pl"]) = None.
Proof. split; reflexivity. Qed.

(** The fuel of [finditer] is enough: more of it finds the same
    matches. *)
Lemma finditer_fuel_enough (r : regex) :
  forall fuel s, length s < fuel -> finditer_from fuel r s = finditer r s.
Proof.
  assert (H : forall f1 f2 s, length s < f1 -> length s < f2 ->
                finditer_from f1 r s = finditer_from f2 r s).
  { induction f1 as [|f1 IH]; intros f2 s H1 H2; [lia|].
    destruct f2 as [|f2]; [lia|]. cbn [finditer_from].
    destruct (re_match r s) as [m|].
    - destruct (length (after m) <? length s) eqn:E.
      + apply Nat.ltb_lt in E. f_equal. apply IH; lia.
      + destruct s as [|c s]; [reflexivity|].
        f_equal. apply IH; simpl in *; lia.
    - destruct s as [|c s]; [reflexivity|]. apply IH; simpl in *; lia. }
  intros fuel s Hs. unfold finditer. apply H; [exact Hs|lia].
Qed.

Set Implicit Arguments.

(* ================================================================== *)
(** * perform_perl_parser.py: serialisation and the summary report *)
(* ================================================================== *)

Module Report.
Import PyStr Parser.

(** ** [convert_sets_to_lists] *)

(** The objects the function walks.  An atom is a value that is neither
    a dict, a set, a list nor a tuple; the elements of a set are
    hashable and are kept as atoms; dict keys are texts.  The iteration
    order of a set is left open by Python: the model lists the elements
    in the order the set holds them. *)
#[warnings="-register-all"]
Inductive pyobj (atom : Type) : Type :=
| PAtom (a : atom)
| PSet (elements : list atom)
| PList (items : list (pyobj atom))
| PTuple (items : list (pyobj atom))
| PDict (items : list (text * pyobj atom)).

Arguments PAtom {atom} a.
Arguments PSet {atom} elements.
Arguments PList {atom} items.
Arguments PTuple {atom} items.
Arguments PDict {atom} items.

Fixpoint convert_sets_to_lists {atom : Type} (obj : pyobj atom) : pyobj atom :=
  match obj with
  | PDict items =>
      PDict (map (fun kv => let '(k, v) := kv in (k, convert_sets_to_lists v))
                 items)
  | PSet elements => PList (map PAtom elements)
  | PList items => PList (map convert_sets_to_lists items)
  | PTuple _ | PAtom _ => obj
  end.

(** ** [create_summary_report] *)

Definition call_kind_eqb (a b : call_kind) : bool :=
  match a, b with
  | object_method, object_method
  | package_function, package_function
  | constructor, constructor
  | direct_function, direct_function => true
  | _, _ => false
  end.

Definition pair_eqb (a b : text * text) : bool :=
  eqb (fst a) (fst b) && eqb (snd a) (snd b).

(** The summary written to [project_summary.json], without its time
    stamp; the nested dicts are flattened into one record. *)
Record summary : Type := Summary {
  s_total_files : nat;
  s_successful : nat;
  s_failed : nat;
  s_total_packages : nat;
  s_total_methods : nat;
  s_total_use_statements : nat;
  s_total_dependencies : nat;
  s_cross_file_calls : nat;
  s_package_overview : PyDict.dict text (text * nat);
  s_dependency_graph : PyDict.dict text (list text);
  s_total_calls : nat;
  s_unique_file_pairs : nat;
  s_call_types : PyDict.dict call_kind nat;
  s_failed_files : list (text * text)
}.

Definition is_success (r : file_result) : bool :=
  match r with success _ _ => true | failed _ _ => false end.

Definition is_failed (r : file_result) : bool :=
  match r with success _ _ => false | failed _ _ => true end.

(** [sum(...)] over a list of numbers. *)
Definition py_sum (l : list nat) : nat := fold_left Nat.add l 0.

(** The loop over the files that counts the imports. *)
Definition count_use_statements (fs : list file_ast) : nat :=
  fold_left
    (fun total f =>
       fold_left (fun total pkg => total + length (p_use_statements pkg))
                 (f_packages f)
                 (total + length (f_use_statements f)))
    fs 0.

(** [call_types[call.get("call_type", "unknown")] += 1] on a
    [defaultdict(int)]. *)
Definition count_call_type (call_types : PyDict.dict call_kind nat)
           (call : cross_file_call) : PyDict.dict call_kind nat :=
  let old := match PyDict.get call_kind_eqb (call_type call) call_types with
             | Some n => n | None => 0 end in
  PyDict.setitem call_kind_eqb (call_type call) (old + 1) call_types.

Definition create_summary_report (results : list file_result)
           (combined_ast : project_ast) : summary :=
  let package_defs := package_definitions combined_ast in
  let total_packages := length package_defs in
  let total_methods :=
    py_sum (map (fun kv => length (pd_methods (snd kv))) package_defs) in
  let total_use_statements := count_use_statements (files combined_ast) in
  let dependency_count :=
    py_sum (map (fun kv => length (snd kv)) (dependencies combined_ast)) in
  let calls := match cross_file_calls combined_ast with
               | Some cs => cs | None => [] end in
  let cross_file_calls := length calls in
  Summary
    (length results)
    (py_sum (map (fun _ => 1) (filter is_success results)))
    (py_sum (map (fun _ => 1) (filter is_failed results)))
    total_packages total_methods total_use_statements dependency_count
    cross_file_calls
    (map (fun kv => (fst kv, (pd_file (snd kv), length (pd_methods (snd kv)))))
         package_defs)
    (dependencies combined_ast)
    cross_file_calls
    (length (fold_left
               (fun s call =>
                  PyDict.set_add pair_eqb
                                 (caller_file call, target_file call) s)
               calls []))
    (fold_left count_call_type calls [])
    (flat_map (fun r => match r with
                        | failed file error => [(file, error)]
                        | success _ _ => []
                        end) results).

End Report.

(* ================================================================== *)
(** * neo4j_writer.py: the batches sent to the database *)
(* ================================================================== *)

Module Storage.
Import PyStr Parser Writer.

(** [_clean_value], on the values the transformer stores: booleans,
    integers and texts. *)
Definition _clean_value (v : value) : value :=
  match v with
  | VBool b => VBool b
  | VInt z => VInt z
  | VStr t =>
      VStr (if (5000 <? Z.of_nat (length t))%Z then slice t 0 5000 else t)
  end.

(** [{k: self._clean_value(v) for k, v in props.items()}] *)
Definition clean_props (props : properties) : properties :=
  map (fun kv => (fst kv, _clean_value (snd kv))) props.

(** The grouping loop both batch functions start with:
    [if t not in by_type: by_type[t] = []] and [by_type[t].append(x)]. *)
Section Grouping.
Variable A : Type.
Variable type_of : A -> text.

Definition group_step (by_type : PyDict.dict text (list A)) (x : A)
  : PyDict.dict text (list A) :=
  let t := type_of x in
  let by_type1 :=
    if PyDict.mem eqb t by_type then by_type
    else PyDict.setitem eqb t [] by_type in
  match PyDict.get eqb t by_type1 with
  | Some l => PyDict.setitem eqb t (l ++ [x]) by_type1
  | None => by_type1
  end.

Definition group_by_type (xs : list A) : PyDict.dict text (list A) :=
  fold_left group_step xs [].
End Grouping.

(** A node as the transformer returns it, with its display name and its
    attributes. *)
Record stored_node : Type := StoredNode {
  sn_id : text;
  sn_type : text;
  sn_name : text;
  sn_properties : properties
}.

(** One element of [batch_data] of a node batch. *)
Definition node_row (node : stored_node) : properties :=
  PyDict.setitem eqb (py "name") (VStr (sn_name node))
    (PyDict.setitem eqb (py "id") (VStr (sn_id node))
       (clean_props (sn_properties node))).

(** One element of [batch_data] of a relationship batch. *)
Record relationship_row : Type := RelationshipRow {
  row_from_id : text;
  row_to_id : text;
  row_props : properties
}.

Definition rel_row (rel : graph_relationship) : relationship_row :=
  RelationshipRow (from_id rel) (to_id rel) (clean_props (rel_properties rel)).

(** [_create_node_batch]: the [session.run] calls it makes, each with
    the label of its query and its [batch]. *)
Definition _create_node_batch (nodes : list stored_node)
  : list (text * list properties) :=
  map (fun item => (fst item, map node_row (snd item)))
      (group_by_type sn_type nodes).

(** [_create_relationships_batch]: the [session.run] calls it makes,
    each with the relationship type of its query and its [batch]. *)
Definition _create_relationships_batch (relationships : list graph_relationship)
  : list (text * list relationship_row) :=
  map (fun item => (fst item, map rel_row (snd item)))
      (group_by_type rel_type relationships).

End Storage.

Unset Implicit Arguments.

(* ================================================================== *)
(** * Further notions *)
(* ================================================================== *)

Module MoreNotions.
Import PyStr Re Parser Writer Notions Report Storage.

(** A line that reaches a block and counts as content: not dropped as a
    shebang line, not a namespace declaration, not blank. *)
Definition is_content_line (line : text) : bool :=
  negb (is_shebang line) && negb (is_package_line line)
  && negb (is_blank line).

Definition is_package_block (b : block) : bool :=
  match b with package _ _ => true | global_scope _ => false end.

(** The non-blank lines a scan state holds, in order. *)
Definition held (st : seg_state) : list text :=
  filter (fun l => negb (is_blank l))
         (concat (map b_lines (fst st)) ++ b_lines (snd st)).

(** The net brace count of some lines. *)
Definition net (lines : list text) : Z :=
  fold_right (fun l z => (brace_delta l + z)%Z) 0%Z lines.

(** [sub] is [l] with some elements left out. *)
Inductive subsequence {A : Type} : list A -> list A -> Prop :=
| sub_nil : subsequence [] []
| sub_take x sub l : subsequence sub l -> subsequence (x :: sub) (x :: l)
| sub_skip x sub l : subsequence sub l -> subsequence sub (x :: l).

(** What the classifier makes of some lines, read off its three cases:
    the imports, definitions and residual lines, in order. *)
Inductive classified_as (package_name : option text)
  : list text -> list use_statement -> list method -> list text -> Prop :=
| cl_end : classified_as package_name [] [] [] []
| cl_import line rest use_match us ms es :
    re_match use_re (strip line) = Some use_match ->
    classified_as package_name rest us ms es ->
    classified_as package_name (line :: rest)
      (UseStatement (strip (group use_match 2)) None :: us) ms es
| cl_definition line taken remaining sub_match us ms es :
    re_match use_re (strip line) = None ->
    startswith (strip line) (py "sub ") = true ->
    re_match sub_re (strip line) = Some sub_match ->
    contains_char line "{" = true ->
    classified_as package_name remaining us ms es ->
    classified_as package_name (line :: taken ++ remaining) us
      (make_method package_name (group sub_match 1) (line :: taken) :: ms) es
| cl_residual line rest us ms es :
    re_match use_re (strip line) = None ->
    classified_as package_name rest us ms es ->
    classified_as package_name (line :: rest) us ms (line :: es).

(** The names of the package blocks among some blocks, in order. *)
Definition block_names (blocks : list block) : list text :=
  flat_map (fun b => match b_name b with Some n => [n] | None => [] end)
           blocks.

(** Every import of a file structure, and every package and script of
    it, carries the path [perl_file]; every script has a body. *)
Definition stamped_package (perl_file : text) (p : package_declaration)
  : Prop :=
  p_source_file p = perl_file
  /\ (forall u, In u (p_use_statements p) -> u_source_file u = Some perl_file)
  /\ (forall m, In m (p_methods p) -> m_package m = Some (p_name p))
  /\ (forall se, p_script_execution p = Some se ->
                 se_source_file se = perl_file /\ se_body se <> []).

(** What holds of the state of [create_ast_from_file] for the file
    [perl_file]. *)
Definition ast_state_stamped (perl_file : text) (st : ast_state) : Prop :=
  let '(packages, global_scope_block, top_level_use) := st in
  Forall (stamped_package perl_file) packages
  /\ (forall u, In u top_level_use -> u_source_file u = Some perl_file)
  /\ (forall g, global_scope_block = Some g -> g_source_file g = perl_file).

(** The registry entry of the definition [m] of the package [p] of the
    file [f], and the registrations of a project in processing order:
    files, then packages, then definitions. *)
Definition entry_of (f : file_ast) (p : package_declaration) (m : method)
  : registry_entry :=
  RegistryEntry (f_source_file f) (p_name p) (m_name m)
                [m_name m; p_name p ++ py "::" ++ m_name m;
                 py "$obj->" ++ m_name m].

Definition registrations (fs : list file_ast) : list (text * registry_entry) :=
  flat_map
    (fun f =>
       flat_map (fun p => map (fun m => (m_full_name m, entry_of f p m))
                              (p_methods p))
                (f_packages f))
    fs.

(** Assigning a list of key-value pairs to a dictionary, in order. *)
Definition assign_all {K V : Type} (keq : K -> K -> bool) (kvs : list (K * V))
           (d : PyDict.dict K V) : PyDict.dict K V :=
  fold_left (fun d kv => PyDict.setitem keq (fst kv) (snd kv) d) kvs d.

(** What holds of a call emitted for the match [m] of a caller. *)
Definition emitted_for (reg : registry) (cf cp : text) (cm : option text)
           (m : match_obj) (c : cross_file_call) : Prop :=
  caller_file c = cf /\ caller_package c = cp /\ caller_method c = cm
  /\ call_pattern c = group0 m
  /\ target_file c <> cf
  /\ exists e,
       In (target_full_name c, e) reg
       /\ target_file c = r_file e
       /\ target_package c = r_package e
       /\ (call_type c <> constructor -> target_method c = r_method_name e)
       /\ (call_type c = constructor -> target_method c = py "new").

(** The calls of a project after [analyze_cross_file_calls]. *)
Definition calls_of (ast : project_ast) : list cross_file_call :=
  match cross_file_calls ast with Some cs => cs | None => [] end.

(** A text the resolver scans in the file [f], with the package and the
    definition it is scanned for: the script of a package, the body of a
    definition of a package, or the global block; empty texts are not
    scanned. *)
Definition call_site (f : file_ast) (cp : text) (cm : option text)
           (code : text) : Prop :=
  code <> []
  /\ ((exists p se,
          In p (f_packages f) /\ cp = p_name p /\ cm = None
          /\ p_script_execution p = Some se /\ se_body se = code)
      \/ (exists p m,
             In p (f_packages f) /\ In m (p_methods p) /\ cp = p_name p
             /\ cm = Some (m_full_name m) /\ m_body m = code)
      \/ (exists g,
             cp = py "global" /\ cm = None
             /\ f_global_scope f = Some g /\ g_body g = code)).

(** The package definitions of a project in processing order. *)
Definition package_registrations (fs : list file_ast)
  : list (text * package_definition) :=
  flat_map
    (fun f => map (fun p => (p_name p,
                             PackageDefinition (f_source_file f)
                                               (map m_name (p_methods p))))
                  (f_packages f))
    fs.

(** An import on which the dependency analysis raises: its module text
    holds no token, or it carries no file. *)
Definition unusable_import (u : use_statement) : Prop :=
  split_ws (u_module u) = [] \/ u_source_file u = None.

(** The characters [_normalize_id] replaces one by one, and the
    characters it makes equal. *)
Definition is_separator (c : ascii) : bool :=
  Ascii.eqb c "/" || Ascii.eqb c "." || Ascii.eqb c " "
  || Ascii.eqb c backslash.

Definition is_separator_or_underscore (c : ascii) : bool :=
  is_separator c || Ascii.eqb c "_".

(** ** The graph of a project *)

(** The nodes and the relationships [_transform_perl_ast] appends for
    the imports of an owner (a file or a package), for the definitions
    of a package, for a package and for a file, each in the order of the
    loops. *)
Definition use_nodes (owner_id : text) (us : list use_statement)
  : list graph_node :=
  map (fun u => GraphNode (use_id_of (u_module u) owner_id)
                          (py "USE_STATEMENT")) us.

Definition use_rels (owner_id : text) (us : list use_statement)
  : list graph_relationship :=
  map (fun u => GraphRelationship owner_id (use_id_of (u_module u) owner_id)
                                  (py "USES_MODULE") []) us.

Definition method_nodes (package_id : text) (ms : list method)
  : list graph_node :=
  map (fun m => GraphNode (method_id_of package_id (m_name m)) (py "METHOD"))
      ms.

Definition method_rels (package_id : text) (ms : list method)
  : list graph_relationship :=
  map (fun m => GraphRelationship package_id
                                  (method_id_of package_id (m_name m))
                                  (py "HAS_METHOD") []) ms.

Definition nodes_of_package (file_id : text) (p : package_declaration)
  : list graph_node :=
  let package_id := package_id_of file_id (p_name p) in
  [GraphNode package_id (py "PACKAGE")]
  ++ use_nodes package_id (p_use_statements p)
  ++ method_nodes package_id (p_methods p)
  ++ match p_script_execution p with
     | Some _ => [GraphNode (script_id_of package_id) (py "SCRIPT_EXECUTION")]
     | None => []
     end.

Definition rels_of_package (file_id : text) (p : package_declaration)
  : list graph_relationship :=
  let package_id := package_id_of file_id (p_name p) in
  [GraphRelationship file_id package_id (py "CONTAINS_PACKAGE") []]
  ++ use_rels package_id (p_use_statements p)
  ++ method_rels package_id (p_methods p)
  ++ match p_script_execution p with
     | Some _ => [GraphRelationship package_id (script_id_of package_id)
                                    (py "HAS_SCRIPT") []]
     | None => []
     end.

Definition nodes_of_file (f : file_ast) : list graph_node :=
  let file_id := file_id_of (f_source_file f) in
  [GraphNode file_id (py "FILE")]
  ++ use_nodes file_id (f_use_statements f)
  ++ flat_map (nodes_of_package file_id) (f_packages f).

Definition rels_of_file (f : file_ast) : list graph_relationship :=
  let file_id := file_id_of (f_source_file f) in
  use_rels file_id (f_use_statements f)
  ++ flat_map (rels_of_package file_id) (f_packages f).

(** The graph has a node with this identifier and this type. *)
Definition has_node (g : graph) (id type : text) : Prop :=
  In (GraphNode id type) (fst g).

(** A structural relationship between two nodes of the graph: an import
    of a file or of a package, a package of a file, a definition or the
    script of a package. *)
Definition connects (g : graph) (k : rel_key) : Prop :=
  let '(from_id, to_id, rel_type) := k in
  (rel_type = py "USES_MODULE"
   /\ (has_node g from_id (py "FILE") \/ has_node g from_id (py "PACKAGE"))
   /\ has_node g to_id (py "USE_STATEMENT"))
  \/ (rel_type = py "CONTAINS_PACKAGE"
      /\ has_node g from_id (py "FILE") /\ has_node g to_id (py "PACKAGE"))
  \/ (rel_type = py "HAS_METHOD"
      /\ has_node g from_id (py "PACKAGE") /\ has_node g to_id (py "METHOD"))
  \/ (rel_type = py "HAS_SCRIPT"
      /\ has_node g from_id (py "PACKAGE")
      /\ has_node g to_id (py "SCRIPT_EXECUTION")).

(** The qualified name of the definition [m] of the package [p] is the
    package name, [::] and the bare name; the bare name holds no colon
    and the package name does not end in one. *)
Definition qualified_plainly (p : package_declaration) (m : method) : Prop :=
  m_full_name m = p_name p ++ py "::" ++ m_name m
  /\ contains_char (m_name m) ":" = false
  /\ last (p_name p) "x"%char <> ":"%char.

(** The [call_count] of a relationship, and the sum over some
    relationships. *)
Definition call_count_of (r : graph_relationship) : Z :=
  match PyDict.get eqb (py "call_count") (rel_properties r) with
  | Some (VInt z) => z
  | _ => 0%Z
  end.

Definition total_call_count (rels : list graph_relationship) : Z :=
  fold_right (fun r z => (call_count_of r + z)%Z) 0%Z rels.

Definition sum_counts (agg : PyDict.dict rel_key agg_data) : Z :=
  fold_right (fun kd z => (a_count (snd kd) + z)%Z) 0%Z agg.

(** The keys of some relationships that are not among [seen], each once,
    in the order in which they first occur. *)
Fixpoint first_occurrences (seen : list rel_key)
         (rels : list graph_relationship) : list rel_key :=
  match rels with
  | [] => []
  | r :: rels' =>
      if PyDict.set_mem key_eqb (key_of r) seen
      then first_occurrences seen rels'
      else key_of r :: first_occurrences (seen ++ [key_of r]) rels'
  end.

(** The properties the aggregation writes itself. *)
Definition derived_property (name : text) : bool :=
  eqb name (py "call_count") || eqb name (py "call_patterns")
  || eqb name (py "call_types") || eqb name (py "call_type").

(** Two files: the script of the package [main] of [main.pl] calls a
    definition of [lib/Animal.pm]. *)
Definition script_caller : filesystem :=
  fun p =>
    if eqb p (py "lib/Animal.pm")
    then Some [ln "package Animal;"; ln "sub speak { print 1; }"]
    else if eqb p (py "main.pl")
    then Some [ln "package main;"; ln "Animal::speak();"]
    else None.

(** ** Serialisation, summary and batches *)

(** No set is left in the object, tuples apart: the function does not
    look into a tuple. *)
Fixpoint no_set_outside_tuples {atom : Type} (obj : pyobj atom) : bool :=
  match obj with
  | PAtom _ | PTuple _ => true
  | PSet _ => false
  | PList items => forallb no_set_outside_tuples items
  | PDict items => forallb (fun kv => no_set_outside_tuples (snd kv)) items
  end.

(** The names of the package declarations of some files, one per
    declaration. *)
Definition declared_packages (fs : list file_ast) : list text :=
  map fst (package_registrations fs).

(** The elements of [xs] of the type [t], in order. *)
Definition of_type {A : Type} (type_of : A -> text) (t : text) (xs : list A)
  : list A :=
  filter (fun x => eqb (type_of x) t) xs.

(** The types of some elements that are not among [seen], each once,
    in the order in which they first occur. *)
Fixpoint first_types {A : Type} (type_of : A -> text) (seen : list text)
         (xs : list A) : list text :=
  match xs with
  | [] => []
  | x :: xs' =>
      if PyDict.set_mem eqb (type_of x) seen
      then first_types type_of seen xs'
      else type_of x :: first_types type_of (seen ++ [type_of x]) xs'
  end.

(** The number of elements of the lists a grouping holds. *)
Definition grouped {A : Type} (by_type : PyDict.dict text (list A)) : nat :=
  length (concat (map snd by_type)).


(** The relationship types the transformer uses. *)
Definition relationship_types : list text :=
  [py "USES_MODULE"; py "CONTAINS_PACKAGE"; py "HAS_METHOD"; py "HAS_SCRIPT";
   py "CALLS_METHOD"].

(** The character class of a definition name in [sub_re]. *)
Definition name_char (c : ascii) : bool :=
  negb (isspace c || Ascii.eqb c "{").

End MoreNotions.

(* ================================================================== *)
(** * Further properties *)
(* ================================================================== *)

Import Report Storage MoreNotions.

(** ** Segmenter: which files give blocks, and what the blocks hold *)

Lemma not_nonblank_filter (ls : list text) :
  any_nonblank ls = false -> filter (fun l => negb (is_blank l)) ls = [].
Proof.
  unfold any_nonblank, is_blank.
  induction ls as [|l ls IH]; intros H; [reflexivity|].
  cbn [existsb] in H. apply orb_false_iff in H as [Hl Hls].
  cbn [filter]. rewrite Hl. now apply IH.
Qed.

Lemma close_block_held (bs : list block) (cur : block) :
  filter (fun l => negb (is_blank l))
         (concat (map b_lines (close_block bs cur)))
  = held (bs, cur).
Proof.
  unfold held, close_block. cbn [fst snd]. rewrite filter_app.
  destruct (any_nonblank (b_lines cur)) eqn:E.
  - rewrite map_app, concat_app. cbn [map concat].
    now rewrite app_nil_r, filter_app.
  - now rewrite (not_nonblank_filter _ E), app_nil_r.
Qed.

Lemma seg_step_held (st : seg_state) (l : text) :
  held (seg_step st l)
  = held st ++ (if is_content_line l then [l] else []).
Proof.
  destruct st as [bs cur]. unfold seg_step, is_content_line, is_package_line.
  fold (is_shebang l). destruct (is_shebang l); cbn [negb andb].
  - now rewrite app_nil_r.
  - destruct (re_match package_re (strip l)); cbn [negb andb].
    + unfold held at 1. cbn [fst snd b_lines]. rewrite app_nil_r.
      now rewrite close_block_held, app_nil_r.
    + unfold held. cbn [fst snd]. rewrite b_lines_append.
      rewrite app_assoc, filter_app. cbn [filter].
      now destruct (is_blank l).
Qed.

Lemma fold_seg_step_held (lines : list text) (st : seg_state) :
  held (fold_left seg_step lines st)
  = held st ++ filter is_content_line lines.
Proof.
  revert st; induction lines as [|l lines IH]; intros st; cbn [fold_left filter].
  - now rewrite app_nil_r.
  - rewrite IH, seg_step_held, <- app_assoc.
    now destruct (is_content_line l).
Qed.

(** The blocks of a file hold, in order, exactly its content lines: no
    line that is not blank is lost or repeated, shebang lines and
    namespace declarations never reach a block, and only blank lines
    can go missing (with a block that holds nothing else). *)
Theorem segment_keeps_content_lines (lines : list text) :
  filter (fun l => negb (is_blank l)) (concat (map b_lines (segment lines)))
  = filter is_content_line lines.
Proof.
  unfold segment.
  pose proof (fold_seg_step_held lines seg_init) as H.
  destruct (fold_left seg_step lines seg_init) as [bs cur].
  cbn [seg_finish]. rewrite close_block_held. exact H.
Qed.

Lemma segment_as_filter (lines : list text) :
  segment lines = filter has_content (accumulators lines).
Proof.
  unfold segment, accumulators, seg_init.
  change (@nil block) with (filter has_content []) at 1.
  rewrite fold_seg_step_acc_step.
  destruct (fold_left acc_step lines ([], global_scope [])) as [abs cur].
  cbn [fst snd seg_finish]. apply close_block_filter.
Qed.

Lemma has_content_filter (b : block) :
  has_content b = true ->
  filter (fun l => negb (is_blank l)) (b_lines b) <> [].
Proof.
  unfold has_content, any_nonblank, is_blank.
  induction (b_lines b) as [|l ls IH]; cbn [existsb filter]; [discriminate|].
  destruct (negb (eqb (strip l) [])); [discriminate|]. exact IH.
Qed.

Lemma segment_empty_iff (lines : list text) :
  segment lines = [] <-> existsb is_content_line lines = false.
Proof.
  pose proof (fold_seg_step_held lines seg_init) as Hh.
  assert (Hc : forall b, In b (segment lines) -> has_content b = true).
  { intros b Hb. rewrite segment_as_filter in Hb.
    now apply filter_In in Hb. }
  unfold segment in *.
  destruct (fold_left seg_step lines seg_init) as [bs cur].
  cbn [seg_finish] in *. rewrite <- close_block_held in Hh.
  cbn [held seg_init fst snd map concat b_lines app filter] in Hh.
  split.
  - intros E. rewrite E in Hh. cbn in Hh.
    destruct (existsb is_content_line lines) eqn:Ex; [|reflexivity].
    apply existsb_exists in Ex as [l [Hin Hl]].
    assert (Hf : In l (filter is_content_line lines))
      by (apply filter_In; now split).
    rewrite <- Hh in Hf. destruct Hf.
  - intros Ex. destruct (close_block bs cur) as [|b rest] eqn:E; [reflexivity|].
    exfalso. apply (has_content_filter b (Hc b (or_introl eq_refl))).
    assert (Hnone : filter is_content_line lines = []).
    { clear -Ex. induction lines as [|l ls IH]; [reflexivity|].
      cbn [existsb] in Ex. apply orb_false_iff in Ex as [Hl Hls].
      cbn [filter]. rewrite Hl. now apply IH. }
    rewrite Hnone in Hh. cbn [map concat] in Hh. rewrite filter_app in Hh.
    now apply app_eq_nil in Hh as [Hh _].
Qed.

(** A file is processed successfully exactly when it can be read and
    holds at least one content line (a line that is not blank, not a
    shebang line and not a namespace declaration); every other file,
    unreadable or without content, is reported as failed, always with
    the same error text. *)
Theorem process_single_file_success_iff (fs : filesystem) (perl_file : text) :
  ((exists ast, process_single_file fs perl_file = success perl_file ast)
   <-> exists lines, fs perl_file = Some lines
                     /\ existsb is_content_line lines = true)
  /\ ((forall ast, process_single_file fs perl_file <> success perl_file ast)
      -> process_single_file fs perl_file
         = failed perl_file (py "Failed to create AST")).
Proof.
  unfold process_single_file, create_ast_from_file, parse_perl_file_to_blocks.
  destruct (fs perl_file) as [lines|].
  - destruct (segment lines) as [|b bs] eqn:E.
    + apply segment_empty_iff in E. split; [|reflexivity]. split.
      * intros [ast H]. discriminate.
      * intros [lines' [[= <-] H]]. congruence.
    + assert (Ex : existsb is_content_line lines = true).
      { destruct (existsb is_content_line lines) eqn:Ex; [reflexivity|].
        apply segment_empty_iff in Ex. congruence. }
      destruct (fold_left (ast_step perl_file) (b :: bs) ([], None, []))
        as [[packages g] us].
      split.
      * split; [intros _; now exists lines|intros _; eexists; reflexivity].
      * intros H. exfalso. exact (H _ eq_refl).
  - split; [|reflexivity]. split.
    + intros [ast H]. discriminate.
    + intros [lines [H _]]. discriminate.
Qed.

Lemma acc_step_shape (st : seg_state) (l : text) :
  Forall (fun b => is_package_block b = true) (tl (fst st ++ [snd st])) ->
  Forall (fun b => is_package_block b = true)
         (tl (fst (acc_step st l) ++ [snd (acc_step st l)])).
Proof.
  destruct st as [bs cur]. unfold acc_step.
  destruct (is_shebang l); [auto|].
  destruct (re_match package_re (strip l)); cbn [fst snd]; intros H.
  - destruct bs as [|b0 bs]; cbn [app tl] in *.
    + constructor; [reflexivity|constructor].
    + apply Forall_app. split; [exact H|]. constructor; [reflexivity|constructor].
  - destruct bs as [|b0 bs]; cbn [app tl] in *; [constructor|].
    apply Forall_app in H as [H1 H2]. apply Forall_app. split; [exact H1|].
    inversion H2; subst. constructor; [|constructor]. now destruct cur.
Qed.

Lemma accumulators_shape (lines : list text) :
  Forall (fun b => is_package_block b = true) (tl (accumulators lines)).
Proof.
  unfold accumulators.
  assert (H : Forall (fun b => is_package_block b = true)
                     (tl (fst seg_init ++ [snd seg_init]))) by constructor.
  revert H. generalize seg_init as st.
  induction lines as [|l lines IH]; intros st H; cbn [fold_left].
  - now destruct st.
  - apply IH. now apply acc_step_shape.
Qed.

(** Every emitted block holds at least one non-blank line, and only the
    first block of a file can be the global block: every later block is
    a package block. *)
Theorem segment_shape (lines : list text) :
  Forall (fun b => has_content b = true) (segment lines)
  /\ Forall (fun b => is_package_block b = true) (tl (segment lines)).
Proof.
  rewrite segment_as_filter. split.
  - apply Forall_forall. intros b Hb. now apply filter_In in Hb.
  - pose proof (accumulators_shape lines) as H.
    destruct (accumulators lines) as [|b0 rest]; [constructor|].
    cbn [tl filter] in *.
    assert (Hr : Forall (fun b => is_package_block b = true)
                        (filter has_content rest)).
    { apply Forall_forall. intros b Hb. apply filter_In in Hb as [Hb _].
      now apply (proj1 (Forall_forall _ _) H). }
    destruct (has_content b0); cbn [tl]; [exact Hr|].
    destruct (filter has_content rest); [constructor|].
    now inversion Hr.
Qed.

(** ** Classifier: the span of a definition *)

Lemma span_spec (rest : list text) :
  forall bc,
    rest = fst (span bc rest) ++ snd (span bc rest)
    /\ (forall pre x post,
           fst (span bc rest) = pre ++ x :: post -> (bc + net pre > 0)%Z)
    /\ (snd (span bc rest) <> [] -> (bc + net (fst (span bc rest)) <= 0)%Z).
Proof.
  induction rest as [|l r IH]; intros bc; cbn [span].
  - destruct (bc >? 0)%Z; cbn [fst snd app]; repeat split;
      try (intros pre x post H; now destruct pre); intros H; now contradiction H.
  - destruct (bc >? 0)%Z eqn:Hbc.
    + destruct (IH (bc + brace_delta l)%Z) as (H1 & H2 & H3).
      destruct (span (bc + brace_delta l) r) as [taken remaining].
      cbn [fst snd] in *. repeat split.
      * cbn [app]. now f_equal.
      * intros pre x post E. destruct pre as [|y pre]; cbn [app] in E.
        -- cbn [net fold_right]. apply Z.gtb_lt in Hbc. lia.
        -- injection E as <- E. specialize (H2 _ _ _ E).
           cbn [net fold_right]. fold (net pre). lia.
      * intros Hne. specialize (H3 Hne). cbn [net fold_right].
        fold (net taken). lia.
    + cbn [fst snd app]. repeat split.
      * intros pre x post E. now destruct pre.
      * intros _. cbn [net fold_right].
        destruct (Z.gtb_spec bc 0); [discriminate|lia].
Qed.

Lemma span_suffix_length (rest : list text) (bc : Z) :
  length (snd (span bc rest)) <= length rest.
Proof.
  destruct (span_spec rest bc) as [H _]. rewrite H at 2.
  rewrite length_app. lia.
Qed.

(** Brace-balanced extraction: a line that opens a definition starts a
    span that takes the following lines one by one for as long as the
    running brace count of the span is above zero; the span ends after
    the first line at which the count is zero or below, or at the end of
    the input.  One definition is recorded for the span, and the scan
    goes on with the line behind it. *)
Theorem classify_definition_span (package_name : option text) (line : text)
        (rest : list text) (sub_match : match_obj)
        (use_statements : list use_statement) (methods : list method)
        (execution_lines : list text) :
  startswith (strip line) (py "sub ") = true ->
  re_match sub_re (strip line) = Some sub_match ->
  contains_char line "{" = true ->
  exists taken remaining,
    rest = taken ++ remaining
    /\ classify package_name (line :: rest) use_statements methods
                execution_lines
       = classify package_name remaining use_statements
           (methods ++ [make_method package_name (group sub_match 1)
                                    (line :: taken)])
           execution_lines
    /\ (forall pre x post,
           taken = pre ++ x :: post -> (net (line :: pre) > 0)%Z)
    /\ (remaining <> [] -> (net (line :: taken) <= 0)%Z).
Proof.
  intros Hsub Hm Hbrace.
  exists (fst (span (brace_delta line) rest)),
         (snd (span (brace_delta line) rest)).
  destruct (span_spec rest (brace_delta line)) as (H1 & H2 & H3).
  split; [exact H1|]. split; [now apply classify_sub|]. split.
  - intros pre x post E. specialize (H2 _ _ _ E). cbn [net fold_right].
    fold (net pre). lia.
  - intros Hne. specialize (H3 Hne). cbn [net fold_right].
    fold (net (fst (span (brace_delta line) rest))). lia.
Qed.

Lemma classify_definition_span_witness :
  exists taken remaining,
    [ln "  if ($x) { return 1; }"; ln "}"; ln "print 2;"] = taken ++ remaining
    /\ classify None
         [ln "sub f {"; ln "  if ($x) { return 1; }"; ln "}"; ln "print 2;"]
         [] [] []
       = classify None remaining []
           ([] ++ [make_method None (py "f") (ln "sub f {" :: taken)]) []
    /\ (forall pre x post,
           taken = pre ++ x :: post -> (net (ln "sub f {" :: pre) > 0)%Z)
    /\ (remaining <> [] -> (net (ln "sub f {" :: taken) <= 0)%Z).
Proof.
  exact (classify_definition_span None (ln "sub f {")
           [ln "  if ($x) { return 1; }"; ln "}"; ln "print 2;"]
           (MatchObj (py "sub f") [(1, py "f")] (py " {")) [] [] []
           eq_refl eq_refl eq_refl).
Defined.

(** ** Classifier: what it records *)

Lemma classify_import (package_name : option text) (line : text)
      (rest : list text) (use_match : match_obj) us ms es :
  re_match use_re (strip line) = Some use_match ->
  classify package_name (line :: rest) us ms es
  = classify package_name rest
      (us ++ [UseStatement (strip (group use_match 2)) None]) ms es.
Proof. intros Eu. cbn [classify]. now rewrite Eu. Qed.

Lemma classify_residual (package_name : option text) (line : text)
      (rest : list text) us ms es :
  re_match use_re (strip line) = None ->
  startswith (strip line) (py "sub ") = false
  \/ re_match sub_re (strip line) = None
  \/ contains_char line "{" = false ->
  classify package_name (line :: rest) us ms es
  = classify package_name rest us ms (es ++ [line]).
Proof.
  intros Eu H. cbn [classify]. rewrite Eu.
  destruct (startswith (strip line) (py "sub ")); [|reflexivity].
  destruct (re_match sub_re (strip line)); [|reflexivity].
  destruct (contains_char line "{"); [|reflexivity].
  destruct H as [H | [H | H]]; discriminate H.
Qed.

Lemma classify_classified (package_name : option text) (n : nat) :
  forall lines,
    length lines <= n ->
    exists U M E,
      classified_as package_name lines U M E
      /\ forall us ms es,
           classify package_name lines us ms es = (us ++ U, ms ++ M, es ++ E).
Proof.
  induction n as [|n IH]; intros lines Hn.
  - destruct lines; [|simpl in Hn; lia].
    exists [], [], []. split; [constructor|].
    intros us ms es. cbn [classify]. now rewrite !app_nil_r.
  - destruct lines as [|line rest].
    { exists [], [], []. split; [constructor|].
      intros us ms es. cbn [classify]. now rewrite !app_nil_r. }
    cbn [length] in Hn.
    assert (Hres : re_match use_re (strip line) = None ->
                   startswith (strip line) (py "sub ") = false
                   \/ re_match sub_re (strip line) = None
                   \/ contains_char line "{" = false ->
                   exists U M E,
                     classified_as package_name (line :: rest) U M E
                     /\ forall us ms es,
                          classify package_name (line :: rest) us ms es
                          = (us ++ U, ms ++ M, es ++ E)).
    { intros Eu Hno.
      destruct (IH rest ltac:(lia)) as (U & M & E & Hc & Heq).
      exists U, M, (line :: E). split; [now constructor|].
      intros us ms es.
      rewrite (classify_residual package_name line rest us ms es Eu Hno).
      rewrite Heq, <- app_assoc. reflexivity. }
    destruct (re_match use_re (strip line)) as [um|] eqn:Eu.
    + destruct (IH rest ltac:(lia)) as (U & M & E & Hc & Heq).
      exists (UseStatement (strip (group um 2)) None :: U), M, E.
      split; [now constructor|]. intros us ms es.
      rewrite (classify_import package_name line rest um us ms es Eu).
      rewrite Heq, <- app_assoc. reflexivity.
    + destruct (startswith (strip line) (py "sub ")) eqn:Es; [|now auto].
      destruct (re_match sub_re (strip line)) as [sm|] eqn:Em; [|now auto].
      destruct (contains_char line "{") eqn:Eb; [|now auto].
      pose proof (span_suffix_length rest (brace_delta line)) as Hlen.
      destruct (span_spec rest (brace_delta line)) as [Hsplit _].
      destruct (IH (snd (span (brace_delta line) rest)) ltac:(lia))
        as (U & M & E & Hc & Heq).
      exists U,
        (make_method package_name (group sm 1)
                     (line :: fst (span (brace_delta line) rest)) :: M), E.
      split.
      * rewrite Hsplit at 1. now constructor.
      * intros us ms es.
        rewrite (classify_sub package_name line rest sm us ms es Es Em Eb).
        rewrite Heq, <- app_assoc. reflexivity.
Qed.

Lemma parse_block_content_classified (lines : list text)
      (package_name : option text) :
  exists U M E,
    parse_block_content lines package_name = (U, M, E)
    /\ classified_as package_name lines U M E.
Proof.
  destruct (classify_classified package_name (length lines) lines (le_n _))
    as (U & M & E & Hc & Heq).
  exists U, M, E. split; [|exact Hc].
  unfold parse_block_content. now rewrite Heq.
Qed.

Lemma run_group_plus_chr (A : Type) (n : nat) (p : ascii -> bool) (s : text)
      (caps : captures) (k : text -> captures -> option A) (a : A) :
  run (Grp n (Plus (Chr p))) s caps k = Some a ->
  exists c pre s' caps',
    s = c :: pre ++ s' /\ p c = true /\ forallb p pre = true
    /\ k s' ((n, c :: pre) :: caps') = Some a.
Proof.
  intros H. destruct s as [|c s1]; [discriminate H|].
  change (run (Grp n (Plus (Chr p))) (c :: s1) caps k)
    with (if p c
          then run (Star (Chr p)) s1 caps
                   (fun s' caps' =>
                      k s' ((n, firstn (length (c :: s1) - length s') (c :: s1))
                              :: caps'))
          else None) in H.
  destruct (p c) eqn:Hc; [|discriminate H].
  apply run_sound in H as (pre & s' & caps' & -> & Hp & H).
  exists c, pre, s', caps'. repeat split; try assumption.
  replace (firstn (length (c :: pre ++ s') - length s') (c :: pre ++ s'))
    with (c :: pre) in H; [exact H|].
  cbn [length]. rewrite length_app.
  replace (S (length pre + length s') - length s') with (S (length pre)) by lia.
  cbn [firstn]. f_equal.
  rewrite firstn_app, firstn_all, Nat.sub_diag. cbn [firstn].
  now rewrite app_nil_r.
Qed.

Lemma sub_match_name (s : text) (m : match_obj) :
  re_match sub_re s = Some m ->
  group m 1 <> [] /\ forallb name_char (group m 1) = true.
Proof.
  unfold re_match. intros H.
  change (run sub_re s []
              (fun s' caps =>
                 Some (MatchObj (firstn (length s - length s') s) caps s')))
    with (run (Lit (py "sub")) s []
              (fun s1 c1 =>
                 run (Plus ws) s1 c1
                     (fun s2 c2 =>
                        run (Grp 1 (Plus (Chr name_char))) s2 c2
                            (fun s3 c3 =>
                               Some (MatchObj
                                       (firstn (length s - length s3) s)
                                       c3 s3))))) in H.
  apply run_sound in H as (pre1 & s1 & caps1 & _ & _ & H).
  apply run_sound in H as (pre2 & s2 & caps2 & _ & _ & H).
  apply run_group_plus_chr in H as (c & pre & s3 & caps3 & _ & Hc & Hp & H).
  injection H as <-. unfold group. cbn.
  split; [discriminate|]. now rewrite Hc, Hp.
Qed.

(** Every definition the classifier records has a name that is not
    empty and holds no white space and no opening brace; it carries the
    package name of its block; its qualified name is the package name,
    [::] and the name, or the bare name when the block has no package
    name or an empty one; and its parameters are those found in its
    body. *)
Theorem recorded_definitions (lines : list text) (package_name : option text)
        (m : method) :
  In m (snd (fst (parse_block_content lines package_name))) ->
  m_name m <> []
  /\ forallb name_char (m_name m) = true
  /\ m_package m = package_name
  /\ m_full_name m
     = match package_name with
       | Some (c :: p) => (c :: p) ++ py "::" ++ m_name m
       | _ => m_name m
       end
  /\ m_parameters m = sub_parameters (m_body m).
Proof.
  destruct (parse_block_content_classified lines package_name)
    as (U & M & E & -> & Hc).
  cbn [fst snd].
  induction Hc as [| line rest um us ms es Eu Hc IH
                   | line taken remaining sm us ms es Eu Es Em Eb Hc IH
                   | line rest us ms es Eu Hc IH]; intros Hin;
    try (now apply IH); try (now destruct Hin).
  destruct Hin as [<- | Hin]; [|now apply IH].
  cbn [make_method m_name m_package m_full_name m_parameters m_body].
  destruct (sub_match_name _ _ Em) as [Hne Hall].
  repeat split; try assumption.
Qed.

Lemma recorded_definitions_witness :
  let m := SubDefinition (py "bar") [py "$x"]
                         (py "my ($x) = @_; return $x;") (Some (py "Foo"))
                         (py "Foo::bar") in
  m_name m <> []
  /\ forallb name_char (m_name m) = true
  /\ m_package m = Some (py "Foo")
  /\ m_full_name m = py "Foo" ++ py "::" ++ m_name m
  /\ m_parameters m = sub_parameters (m_body m).
Proof.
  intros m.
  apply (recorded_definitions
           [ln "use strict;"; ln "sub bar { my ($x) = @_; return $x; }"]
           (Some (py "Foo")) m).
  left. reflexivity.
Defined.

Lemma subsequence_refl_skip (A : Type) (pre l sub : list A) :
  subsequence sub l -> subsequence sub (pre ++ l).
Proof.
  intros H. induction pre as [|x pre IH]; [exact H|].
  cbn [app]. now constructor.
Qed.

(** The residual lines of a block are lines of the block, in their
    original order, and none of them is an import line; the classifier
    records at most one import, definition or residual line per line of
    the block. *)
Theorem residual_lines_of_block (lines : list text)
        (package_name : option text) :
  let '(imports, definitions, residual) :=
    parse_block_content lines package_name in
  subsequence residual lines
  /\ (forall l, In l residual -> re_match use_re (strip l) = None)
  /\ length imports + length definitions + length residual <= length lines.
Proof.
  destruct (parse_block_content_classified lines package_name)
    as (U & M & E & -> & Hc).
  induction Hc as [| line rest um us ms es Eu Hc IH
                   | line taken remaining sm us ms es Eu Es Em Eb Hc IH
                   | line rest us ms es Eu Hc IH].
  - repeat split; [constructor|intros l []|reflexivity].
  - destruct IH as (H1 & H2 & H3). repeat split.
    + now constructor.
    + exact H2.
    + cbn [length]. lia.
  - destruct IH as (H1 & H2 & H3). repeat split.
    + constructor. now apply subsequence_refl_skip.
    + exact H2.
    + cbn [length]. rewrite length_app. lia.
  - destruct IH as (H1 & H2 & H3). repeat split.
    + now constructor.
    + intros l [<- | Hl]; [exact Eu|now apply H2].
    + cbn [length]. lia.
Qed.

(** ** File structures *)

Lemma lstrip_nil_iff (s : text) :
  lstrip s = [] <-> forallb isspace s = true.
Proof.
  induction s as [|c s IH]; cbn [lstrip forallb]; [tauto|].
  destruct (isspace c); cbn [andb]; [exact IH|].
  split; discriminate.
Qed.

Lemma lstrip_head (s : text) :
  match lstrip s with [] => True | c :: _ => isspace c = false end.
Proof.
  induction s as [|c s IH]; cbn [lstrip]; [exact I|].
  destruct (isspace c) eqn:E; [exact IH|exact E].
Qed.

Lemma strip_nil_iff (s : text) :
  strip s = [] <-> forallb isspace s = true.
Proof.
  unfold strip, rstrip. split.
  - intros H. apply lstrip_nil_iff.
    assert (H1 : lstrip (rev (lstrip s)) = []).
    { destruct (lstrip (rev (lstrip s))) as [|x l]; [reflexivity|].
      cbn [rev] in H. apply app_eq_nil in H as [_ H]. discriminate H. }
    apply lstrip_nil_iff in H1. rewrite forallb_forall in H1.
    pose proof (lstrip_head s) as Hh.
    destruct (lstrip s) as [|c t]; [reflexivity|].
    rewrite (H1 c) in Hh; [discriminate Hh|].
    apply -> in_rev. now left.
  - intros H. apply lstrip_nil_iff in H. now rewrite H.
Qed.

Lemma has_code_body (ls : list text) :
  has_code ls = true -> strip (join ls) <> [].
Proof.
  intros H Hs. apply strip_nil_iff in Hs. unfold has_code in H.
  apply existsb_exists in H as [l [Hin Hl]].
  apply andb_true_iff in Hl as [Hl _]. apply negb_true_iff, eqb_neq in Hl.
  apply Hl. apply strip_nil_iff.
  unfold join in Hs. rewrite forallb_forall in *.
  intros c Hc. apply Hs. apply in_concat. now exists l.
Qed.

Lemma classified_package (package_name : option text) (lines : list text)
      U M E :
  classified_as package_name lines U M E ->
  forall m, In m M -> m_package m = package_name.
Proof.
  induction 1 as [| line rest um us ms es Eu Hc IH
                  | line taken remaining sm us ms es Eu Es Em Eb Hc IH
                  | line rest us ms es Eu Hc IH]; intros m Hin;
    try (now apply IH); [destruct Hin|].
  destruct Hin as [<- | Hin]; [reflexivity|now apply IH].
Qed.

Lemma stamp_all (perl_file : text) (us : list use_statement) (u : use_statement) :
  In u (map (stamp perl_file) us) -> u_source_file u = Some perl_file.
Proof. intros H. apply in_map_iff in H as [u0 [<- _]]. reflexivity. Qed.

Lemma ast_step_stamped (perl_file : text) (st : ast_state) (b : block) :
  ast_state_stamped perl_file st ->
  ast_state_stamped perl_file (ast_step perl_file st b).
Proof.
  destruct st as [[packages g] uses]. intros (Hp & Hu & Hg).
  unfold ast_step.
  destruct (parse_block_content_classified (b_lines b) (b_name b))
    as (U & M & E & -> & Hc).
  destruct b as [ls | name ls]; cbn [ast_state_stamped].
  - repeat split; try assumption.
    + intros u Hin. apply in_app_or in Hin as [Hin | Hin]; [now apply Hu|].
      now apply (stamp_all perl_file U).
    + intros g' [= <-]. reflexivity.
  - repeat split; try assumption.
    apply Forall_app. split; [exact Hp|]. constructor; [|constructor].
    unfold stamped_package.
    cbn [p_source_file p_use_statements p_methods p_name p_script_execution].
    split; [reflexivity|]. split; [apply stamp_all|].
    split; [intros m Hin; apply (classified_package _ _ _ _ _ Hc m Hin)|].
    intros se Hse. destruct (has_code E) eqn:Hcode; [|discriminate].
    injection Hse as <-. split; [reflexivity|].
    cbn [se_body]. now apply has_code_body.
Qed.

Lemma ast_step_names (perl_file : text) (blocks : list block) :
  forall st,
    map p_name (fst (fst (fold_left (ast_step perl_file) blocks st)))
    = map p_name (fst (fst st)) ++ block_names blocks.
Proof.
  induction blocks as [|b blocks IH]; intros st; cbn [fold_left].
  - cbn. now rewrite app_nil_r.
  - rewrite IH. destruct st as [[packages g] uses]. unfold ast_step.
    destruct (parse_block_content (b_lines b) (b_name b)) as [[U M] E].
    destruct b as [ls | name ls]; cbn [fst block_names flat_map b_name app].
    + reflexivity.
    + rewrite map_app, <- app_assoc. reflexivity.
Qed.

(** The file structure built for a file carries the file's path on
    itself, on every import, on every package and package script and on
    the global block; its packages are the package blocks of the file,
    in order, each definition carrying its package's name; and a
    package script, when there is one, has a body that is not empty. *)
Theorem create_ast_from_file_stamped (fs : filesystem) (perl_file : text)
        (ast : file_ast) :
  create_ast_from_file fs perl_file = Some ast ->
  f_source_file ast = perl_file
  /\ (forall u, In u (f_use_statements ast) ->
                u_source_file u = Some perl_file)
  /\ Forall (stamped_package perl_file) (f_packages ast)
  /\ map p_name (f_packages ast)
     = block_names (parse_perl_file_to_blocks fs perl_file)
  /\ (forall g, f_global_scope ast = Some g -> g_source_file g = perl_file).
Proof.
  unfold create_ast_from_file.
  destruct (parse_perl_file_to_blocks fs perl_file) as [|b blocks] eqn:Eb;
    [discriminate|].
  assert (Hs : ast_state_stamped perl_file
                 (fold_left (ast_step perl_file) (b :: blocks) ([], None, []))).
  { assert (H0 : ast_state_stamped perl_file ([], None, [])).
    { repeat split; [constructor|intros u []|discriminate]. }
    revert H0. generalize (b :: blocks) as bs.
    generalize (([], None, []) : ast_state) as st.
    intros st bs. revert st.
    induction bs as [|b' bs IH]; intros st H0; cbn [fold_left]; [exact H0|].
    apply IH. now apply ast_step_stamped. }
  pose proof (ast_step_names perl_file (b :: blocks) ([], None, [])) as Hn.
  destruct (fold_left (ast_step perl_file) (b :: blocks) ([], None, []))
    as [[packages g] uses].
  intros [= <-]. destruct Hs as (Hp & Hu & Hg).
  cbn [f_source_file f_use_statements f_packages f_global_scope fst] in *.
  repeat split; assumption.
Qed.

Lemma create_ast_from_file_stamped_witness :
  match create_ast_from_file two_foos (py "a.pm") with
  | Some ast => map p_name (f_packages ast) = [py "A"]
  | None => False
  end.
Proof.
  destruct (create_ast_from_file two_foos (py "a.pm")) as [ast|] eqn:E;
    [|vm_compute in E; discriminate E].
  destruct (create_ast_from_file_stamped two_foos (py "a.pm") ast E)
    as (_ & _ & _ & Hn & _).
  exact Hn.
Defined.

(** ** Dictionaries filled from a list *)

Section AssignFacts.
Context {K V : Type} (keq : K -> K -> bool).
Hypothesis keq_eq : forall a b, keq a b = true <-> a = b.

Lemma assign_all_app (kvs1 kvs2 : list (K * V)) (d : PyDict.dict K V) :
  assign_all keq (kvs1 ++ kvs2) d = assign_all keq kvs2 (assign_all keq kvs1 d).
Proof. unfold assign_all. apply fold_left_app. Qed.

Lemma assign_all_cons (k : K) (v : V) (kvs : list (K * V))
      (d : PyDict.dict K V) :
  assign_all keq ((k, v) :: kvs) d
  = assign_all keq kvs (PyDict.setitem keq k v d).
Proof. reflexivity. Qed.

Lemma assign_all_absent (kvs : list (K * V)) (k : K) :
  ~ In k (map fst kvs) ->
  forall d, PyDict.get keq k (assign_all keq kvs d) = PyDict.get keq k d.
Proof.
  induction kvs as [|[k1 v1] kvs IH]; intros Hn d; [reflexivity|].
  rewrite assign_all_cons.
  rewrite IH by (intros H; apply Hn; now right).
  apply (get_setitem_other keq keq_eq). intros ->. apply Hn. now left.
Qed.

Lemma assign_all_last (pre post : list (K * V)) (k : K) (v : V)
      (d : PyDict.dict K V) :
  ~ In k (map fst post) ->
  PyDict.get keq k (assign_all keq (pre ++ (k, v) :: post) d) = Some v.
Proof.
  intros Hn. rewrite assign_all_app.
  change ((k, v) :: post) with ([(k, v)] ++ post). rewrite assign_all_app.
  rewrite (assign_all_absent post k Hn).
  apply (get_setitem_same keq keq_eq).
Qed.

Lemma assign_all_keys (kvs : list (K * V)) (k : K) :
  forall d,
    In k (PyDict.keys (assign_all keq kvs d))
    <-> In k (PyDict.keys d) \/ In k (map fst kvs).
Proof.
  induction kvs as [|[k1 v1] kvs IH]; intros d.
  - cbn. tauto.
  - rewrite assign_all_cons, IH. cbn [map fst In].
    rewrite (keys_setitem keq keq_eq). intuition.
Qed.

Lemma assign_all_NoDup (kvs : list (K * V)) :
  forall d, NoDup (PyDict.keys d) -> NoDup (PyDict.keys (assign_all keq kvs d)).
Proof.
  induction kvs as [|[k1 v1] kvs IH]; intros d H; [exact H|].
  rewrite assign_all_cons.
  apply IH. now apply (keys_setitem_NoDup keq keq_eq).
Qed.

Lemma setitem_In (k : K) (v : V) (d : PyDict.dict K V) (kv : K * V) :
  In kv (PyDict.setitem keq k v d) -> kv = (k, v) \/ In kv d.
Proof.
  induction d as [|[k1 v1] d IH]; cbn [PyDict.setitem].
  - intros [<- | []]. now left.
  - destruct (keq k k1).
    + intros [<- | H]; [now left|right; now right].
    + intros [<- | H]; [right; now left|].
      destruct (IH H) as [-> | H']; [now left|right; now right].
Qed.

Lemma assign_all_In (kvs : list (K * V)) (kv : K * V) :
  forall d, In kv (assign_all keq kvs d) -> In kv d \/ In kv kvs.
Proof.
  induction kvs as [|[k1 v1] kvs IH]; intros d H; [now left|].
  rewrite assign_all_cons in H.
  apply IH in H as [H | H]; [|right; now right].
  apply setitem_In in H as [-> | H]; [right; now left|now left].
Qed.

End AssignFacts.

Lemma fold_left_map_compose (A B C : Type) (f : A -> C -> A) (g : B -> C)
      (l : list B) :
  forall a, fold_left f (map g l) a = fold_left (fun a x => f a (g x)) l a.
Proof. induction l as [|x l IH]; intros a; [reflexivity|apply IH]. Qed.

Lemma fold_left_flat_map (A B C : Type) (f : A -> C -> A) (g : B -> list C)
      (l : list B) :
  forall a,
    fold_left f (flat_map g l) a
    = fold_left (fun a x => fold_left f (g x) a) l a.
Proof.
  induction l as [|x l IH]; intros a; [reflexivity|].
  cbn [flat_map fold_left]. now rewrite fold_left_app, IH.
Qed.

Lemma fold_left_same (A B : Type) (f g : A -> B -> A) (l : list B) :
  (forall a x, f a x = g a x) ->
  forall a, fold_left f l a = fold_left g l a.
Proof.
  intros H. induction l as [|x l IH]; intros a; [reflexivity|].
  cbn [fold_left]. now rewrite H, IH.
Qed.

Lemma build_registry_assign (fs : list file_ast) :
  build_registry fs = assign_all eqb (registrations fs) [].
Proof.
  unfold build_registry, assign_all, registrations.
  rewrite fold_left_flat_map. apply fold_left_same. intros reg f.
  unfold register_file. rewrite fold_left_flat_map.
  apply fold_left_same. intros reg' p.
  unfold register_package. now rewrite fold_left_map_compose.
Qed.

(** ** Registry: lookup *)

Lemma registrations_In (fs : list file_ast) (q : text) (e : registry_entry) :
  In (q, e) (registrations fs)
  <-> exists f p m,
        In f fs /\ In p (f_packages f) /\ In m (p_methods p)
        /\ m_full_name m = q /\ e = entry_of f p m.
Proof.
  unfold registrations. rewrite in_flat_map. split.
  - intros [f [Hf H]]. apply in_flat_map in H as [p [Hp H]].
    apply in_map_iff in H as [m [[= <- <-] Hm]]. now exists f, p, m.
  - intros (f & p & m & Hf & Hp & Hm & <- & ->). exists f. split; [exact Hf|].
    apply in_flat_map. exists p. split; [exact Hp|].
    apply in_map_iff. now exists m.
Qed.

Lemma registrations_keys (fs : list file_ast) (q : text) :
  In q (map fst (registrations fs)) <-> exists f, In f fs /\ declares f q.
Proof.
  rewrite in_map_iff. split.
  - intros [[q' e] [<- H]]. apply registrations_In in H
      as (f & p & m & Hf & Hp & Hm & Hq & _).
    exists f. split; [exact Hf|]. now exists p, m.
  - intros [f [Hf (p & m & Hp & Hm & Hq)]].
    exists (q, entry_of f p m). split; [reflexivity|].
    apply registrations_In. now exists f, p, m.
Qed.

(** The registry has an entry for a qualified name exactly when some
    file of the project declares it; every entry is that of a
    declaration (its file, its package, its bare name); and the entry
    found for a name is the one of its last registration in processing
    order, whatever number of files declare it. *)
Theorem registry_lookup (fs : list file_ast) (q : text) :
  (PyDict.get eqb q (build_registry fs) = None
   <-> ~ exists f, In f fs /\ declares f q)
  /\ (forall e, PyDict.get eqb q (build_registry fs) = Some e ->
                exists f p m,
                  In f fs /\ In p (f_packages f) /\ In m (p_methods p)
                  /\ m_full_name m = q /\ e = entry_of f p m)
  /\ (forall pre e post,
         registrations fs = pre ++ (q, e) :: post ->
         ~ In q (map fst post) ->
         PyDict.get eqb q (build_registry fs) = Some e).
Proof.
  rewrite build_registry_assign. split; [|split].
  - rewrite (get_None_keys eqb eqb_eq), (assign_all_keys eqb eqb_eq).
    rewrite <- registrations_keys. cbn. tauto.
  - intros e H. apply (get_In eqb eqb_eq) in H.
    apply (assign_all_In eqb) in H as [[] | H].
    now apply registrations_In.
  - intros pre e post -> Hn. now apply (assign_all_last eqb eqb_eq).
Qed.

(** ** Calls: what the resolver emits *)

Lemma first_known_emitted (reg : registry) (cf cp : text) (cm : option text)
      (m : match_obj) (names : list text) (c : cross_file_call) :
  In c (first_known reg cf cp cm m names) -> emitted_for reg cf cp cm m c.
Proof.
  induction names as [|full_name names IH]; cbn [first_known]; [intros []|].
  destruct (PyDict.get eqb full_name reg) as [info|] eqn:Eg; [|exact IH].
  destruct (eqb (r_file info) cf) eqn:Ef; cbn [negb]; [intros []|].
  intros [<- | []]. unfold emitted_for, call_to. cbn.
  repeat split. { now apply eqb_neq. }
  exists info. split; [now apply (get_In eqb eqb_eq)|].
  repeat (split; [reflexivity|]).
  intros H. destruct (contains _ _); discriminate H.
Qed.

Lemma constructor_call_emitted (reg : registry) (cf cp : text)
      (cm : option text) (m : match_obj) (func_call : text)
      (c : cross_file_call) :
  In c (constructor_call reg cf cp cm m func_call) ->
  emitted_for reg cf cp cm m c.
Proof.
  unfold constructor_call.
  destruct (PyDict.get eqb (func_call ++ py "::new") reg) as [info|] eqn:Eg;
    [|intros []].
  destruct (eqb (r_file info) cf) eqn:Ef; cbn [negb]; [intros []|].
  intros [<- | []]. unfold emitted_for, call_to. cbn.
  repeat split. { now apply eqb_neq. }
  exists info. split; [now apply (get_In eqb eqb_eq)|].
  repeat (split; [reflexivity|]).
  split; [intros H; now contradiction H|reflexivity].
Qed.

Lemma direct_call_emitted (reg : registry) (cf cp : text) (cm : option text)
      (m : match_obj) (func_call : text) (items : list (text * registry_entry))
      (c : cross_file_call) :
  incl items reg ->
  In c (direct_call cf cp cm m func_call items) ->
  emitted_for reg cf cp cm m c.
Proof.
  induction items as [|[full_name info] items IH]; intros Hincl;
    cbn [direct_call]; [intros []|].
  destruct (eqb (r_method_name info) func_call
            && negb (eqb (r_file info) cf)) eqn:E.
  - intros [<- | []]. apply andb_true_iff in E as [_ Ef].
    apply negb_true_iff, eqb_neq in Ef.
    unfold emitted_for, call_to. cbn. repeat split; [exact Ef|].
    exists info. split; [apply Hincl; now left|].
    repeat (split; [reflexivity|]). discriminate.
  - apply IH. intros x Hx. apply Hincl. now right.
Qed.

Lemma handle_match_emitted (reg : registry) (cf cp : text) (cm : option text)
      (n : nat) (m : match_obj) (c : cross_file_call) :
  In c (handle_match reg cf cp cm n m) -> emitted_for reg cf cp cm m c.
Proof.
  unfold handle_match.
  destruct n as [|[|[|n]]]; try (intros []).
  - destruct (contains (group0 m) (py "->new")).
    + apply constructor_call_emitted.
    + apply direct_call_emitted. apply incl_refl.
  - apply first_known_emitted.
Qed.

Lemma find_calls_emitted (code : text) (reg : registry) (cf cp : text)
      (cm : option text) (c : cross_file_call) :
  In c (find_function_calls_in_code code reg cf cp cm) ->
  exists m, emitted_for reg cf cp cm m c.
Proof.
  unfold find_function_calls_in_code. intros H.
  apply in_flat_map in H as [pat [_ H]].
  apply in_flat_map in H as [m [_ H]].
  exists m. now apply (handle_match_emitted _ _ _ _ _ _ _ H).
Qed.

Lemma package_calls_site (reg : registry) (f : file_ast)
      (p : package_declaration) (c : cross_file_call) :
  In p (f_packages f) ->
  In c (package_calls reg (f_source_file f) p) ->
  exists cp cm code,
    call_site f cp cm code
    /\ In c (find_function_calls_in_code code reg (f_source_file f) cp cm).
Proof.
  intros Hp H. unfold package_calls in H. apply in_app_or in H as [H | H].
  - destruct (p_script_execution p) as [se|] eqn:Es; [|destruct H].
    destruct (se_body se) as [|x body] eqn:Eb; [destruct H|].
    exists (p_name p), None, (x :: body). split; [|exact H].
    split; [discriminate|]. left. exists p, se.
    split; [exact Hp|]. split; [reflexivity|]. split; [reflexivity|].
    split; [exact Es|exact Eb].
  - apply in_flat_map in H as [m [Hm H]].
    destruct (m_body m) as [|x body] eqn:Eb; [destruct H|].
    exists (p_name p), (Some (m_full_name m)), (x :: body). split; [|exact H].
    split; [discriminate|]. right. left. exists p, m.
    split; [exact Hp|]. split; [exact Hm|]. split; [reflexivity|].
    split; [reflexivity|exact Eb].
Qed.

Lemma file_calls_site (reg : registry) (f : file_ast) (c : cross_file_call) :
  In c (file_calls reg f) ->
  exists cp cm code,
    call_site f cp cm code
    /\ In c (find_function_calls_in_code code reg (f_source_file f) cp cm).
Proof.
  intros H. unfold file_calls in H. apply in_app_or in H as [H | H].
  - apply in_flat_map in H as [p [Hp H]]. now apply (package_calls_site reg f p).
  - destruct (f_global_scope f) as [g|] eqn:Eg; [|destruct H].
    destruct (g_body g) as [|x body] eqn:Eb; [destruct H|].
    exists (py "global"), None, (x :: body). split; [|exact H].
    split; [discriminate|]. right. right. exists g.
    split; [reflexivity|]. split; [reflexivity|]. split; [exact Eg|exact Eb].
Qed.

Lemma analyze_calls_In (ast : project_ast) (c : cross_file_call) :
  In c (calls_of (analyze_cross_file_calls ast)) ->
  exists f cp cm code m,
    In f (files ast) /\ call_site f cp cm code
    /\ emitted_for (build_registry (files ast)) (f_source_file f) cp cm m c.
Proof.
  unfold calls_of, analyze_cross_file_calls. cbn [cross_file_calls].
  intros H. apply in_flat_map in H as [f [Hf H]].
  apply file_calls_site in H as (cp & cm & code & Hsite & H).
  apply find_calls_emitted in H as [m H].
  now exists f, cp, cm, code, m.
Qed.

Lemma re_match_split (r : regex) (s : text) (m : match_obj) :
  re_match r s = Some m -> s = group0 m ++ after m.
Proof.
  unfold re_match. intros H.
  apply run_sound in H as (pre & s' & caps' & -> & _ & H).
  injection H as <-. cbn [group0 after].
  rewrite length_app, Nat.add_sub.
  rewrite firstn_app, firstn_all, Nat.sub_diag. cbn [firstn].
  now rewrite app_nil_r.
Qed.

Lemma finditer_from_occurs (fuel : nat) (r : regex) :
  forall (s : text) (m : match_obj),
    In m (finditer_from fuel r s) ->
    exists pre, s = pre ++ group0 m ++ after m.
Proof.
  induction fuel as [|fuel IH]; intros s m H; cbn [finditer_from] in H;
    [destruct H|].
  assert (Hskip : forall c s', s = c :: s' ->
                    In m (finditer_from fuel r s') ->
                    exists pre, s = pre ++ group0 m ++ after m).
  { intros c s' -> Hin. destruct (IH _ _ Hin) as [pre Hpre].
    exists (c :: pre). cbn [app]. now rewrite <- Hpre. }
  destruct (re_match r s) as [m0|] eqn:E.
  - pose proof (re_match_split _ _ _ E) as Hs.
    destruct (length (after m0) <? length s).
    + destruct H as [<- | H]; [now exists []|].
      destruct (IH _ _ H) as [pre Hpre].
      exists (group0 m0 ++ pre). rewrite <- app_assoc, <- Hpre. exact Hs.
    + destruct s as [|c s'].
      * destruct H as [<- | []]. now exists [].
      * destruct H as [<- | H]; [now exists []|].
        now apply (Hskip c s').
  - destruct s as [|c s']; [destruct H|]. now apply (Hskip c s').
Qed.

Lemma find_calls_found (code : text) (reg : registry) (cf cp : text)
      (cm : option text) (c : cross_file_call) :
  In c (find_function_calls_in_code code reg cf cp cm) ->
  exists pat m pre,
    In pat patterns /\ In m (finditer pat code)
    /\ code = pre ++ group0 m ++ after m
    /\ emitted_for reg cf cp cm m c.
Proof.
  unfold find_function_calls_in_code. intros H.
  apply in_flat_map in H as [pat [Hpat H]].
  apply in_flat_map in H as [m [Hm H]].
  destruct (finditer_from_occurs _ _ _ _ Hm) as [pre Hpre].
  exists pat, m, pre. split; [exact Hpat|]. split; [exact Hm|].
  split; [exact Hpre|]. now apply (handle_match_emitted _ _ _ _ _ _ _ H).
Qed.

(** No call edge stays inside one file: the target file of every edge
    differs from its caller file.  The caller file is a file of the
    project, and the edge was found in a non-empty text of that file
    that the resolver scans: a package script, a definition body, or the
    global block (under the package name [global]).  The caller package
    and definition of the edge are those of that text, the edge is
    among the edges the resolver returns for that text, and its call
    pattern is a piece of that text which one of the four call patterns
    matches. *)
Theorem calls_are_cross_file (ast : project_ast) (c : cross_file_call) :
  In c (calls_of (analyze_cross_file_calls ast)) ->
  target_file c <> caller_file c
  /\ exists f code,
       In f (files ast)
       /\ caller_file c = f_source_file f
       /\ call_site f (caller_package c) (caller_method c) code
       /\ In c (find_function_calls_in_code
                  code (build_registry (files ast))
                  (caller_file c) (caller_package c) (caller_method c))
       /\ exists pat m pre,
            In pat patterns
            /\ In m (finditer pat code)
            /\ code = pre ++ group0 m ++ after m
            /\ call_pattern c = group0 m.
Proof.
  unfold calls_of, analyze_cross_file_calls. cbn [cross_file_calls files].
  intros H. apply in_flat_map in H as [f [Hf H]].
  apply file_calls_site in H as (cp & cm & code & Hsite & H).
  destruct (find_calls_found _ _ _ _ _ _ H)
    as (pat & m & pre & Hpat & Hm & Hpre & H1 & H2 & H3 & H4 & H5 & _).
  subst cp cm. rewrite H1. split; [exact H5|].
  exists f, code. split; [exact Hf|]. split; [reflexivity|].
  split; [exact Hsite|]. split; [exact H|].
  exists pat, m, pre. split; [exact Hpat|]. split; [exact Hm|].
  split; [exact Hpre|exact H4].
Qed.

Lemma calls_are_cross_file_witness :
  let ast := ProjectAST (asts_of two_foos [py "a.pm"; py "b.pm"])
                        2 [] [] None None in
  let c := CrossFileCall (py "a.pm") (py "A") (Some (py "A::bar"))
                         (py "b.pm") (py "B") (py "foo") (py "B::foo")
                         (py "foo(") direct_function in
  target_file c <> caller_file c
  /\ exists f code,
       In f (files ast)
       /\ caller_file c = f_source_file f
       /\ call_site f (caller_package c) (caller_method c) code
       /\ In c (find_function_calls_in_code
                  code (build_registry (files ast))
                  (caller_file c) (caller_package c) (caller_method c))
       /\ exists pat m pre,
            In pat patterns
            /\ In m (finditer pat code)
            /\ code = pre ++ group0 m ++ after m
            /\ call_pattern c = group0 m.
Proof.
  intros ast c. apply (calls_are_cross_file ast c).
  vm_compute. left. reflexivity.
Defined.

(** Every call edge resolves to the registry: its target name is a key
    of the registry, and its target file and package are those of the
    entry found under that key.  Its target definition is the bare name
    of that entry, except on a constructor edge, where it is always
    [new]. *)
Theorem calls_resolve_to_registry (ast : project_ast) (c : cross_file_call) :
  In c (calls_of (analyze_cross_file_calls ast)) ->
  exists e,
    PyDict.get eqb (target_full_name c) (build_registry (files ast)) = Some e
    /\ target_file c = r_file e
    /\ target_package c = r_package e
    /\ (call_type c <> constructor -> target_method c = r_method_name e)
    /\ (call_type c = constructor -> target_method c = py "new").
Proof.
  intros H.
  apply analyze_calls_In in H
    as (f & cp & cm & code & m & Hf & Hsite & _ & _ & _ & _ & _ & e & He & H).
  exists e. split; [|exact H].
  apply (In_get eqb eqb_eq); [apply build_registry_NoDup|exact He].
Qed.

Lemma calls_resolve_to_registry_witness :
  let ast := ProjectAST (asts_of two_foos [py "a.pm"; py "b.pm"])
                        2 [] [] None None in
  let c := CrossFileCall (py "a.pm") (py "A") (Some (py "A::bar"))
                         (py "b.pm") (py "B") (py "foo") (py "B::foo")
                         (py "foo(") direct_function in
  exists e,
    PyDict.get eqb (target_full_name c) (build_registry (files ast)) = Some e
    /\ target_file c = r_file e
    /\ target_package c = r_package e
    /\ (call_type c <> constructor -> target_method c = r_method_name e)
    /\ (call_type c = constructor -> target_method c = py "new").
Proof.
  intros ast c. apply (calls_resolve_to_registry ast c).
  vm_compute. left. reflexivity.
Defined.

(** ** Dependency analysis: when it raises, and the package table *)

Lemma use_step_none (pds : PyDict.dict text package_definition)
      (deps : PyDict.dict text (list text)) (u : use_statement) :
  use_step pds deps u = None <-> unusable_import u.
Proof.
  unfold use_step, unusable_import.
  destruct (split_ws (u_module u)) as [|tok toks]; [tauto|].
  destruct (u_source_file u) as [file|].
  - destruct (PyDict.get eqb tok pds); split; try discriminate;
      intros [H | H]; discriminate H.
  - tauto.
Qed.

Lemma use_loop_none (pds : PyDict.dict text package_definition)
      (stmts : list use_statement) :
  forall deps,
    use_loop pds deps stmts = None
    <-> exists u, In u stmts /\ unusable_import u.
Proof.
  induction stmts as [|u stmts IH]; intros deps; cbn [use_loop].
  - split; [discriminate|]. intros [u [[] _]].
  - destruct (use_step pds deps u) as [deps'|] eqn:E.
    + rewrite IH. split.
      * intros [u' [Hin H]]. exists u'. split; [now right|exact H].
      * intros [u' [[<- | Hin] H]]; [|now exists u'].
        apply (use_step_none pds deps) in H. congruence.
    + split; [|reflexivity]. intros _. exists u. split; [now left|].
      now apply (use_step_none pds deps).
Qed.

(** The dependency analysis, and with it the assembly of the project,
    stops with an exception exactly when some import of the project has
    a module text without any token (an [IndexError]) or carries no file
    (a [KeyError]); otherwise it returns. *)
Theorem analyze_dependencies_raises_iff (fs : list file_ast) :
  (analyze_dependencies fs = None
   <-> exists u, In u (all_use_statements fs) /\ unusable_import u)
  /\ (combine_asts fs = None <-> analyze_dependencies fs = None).
Proof.
  split.
  - unfold analyze_dependencies.
    destruct (fold_left collect_file fs ([], [])) as [pds0 us] eqn:E0.
    assert (Hu : us = all_use_statements fs).
    { change us with (snd (pds0, us)). rewrite <- E0.
      apply (collect_file_uses fs [] []). }
    subst us. rewrite <- (use_loop_none pds0 (all_use_statements fs) []).
    destruct (use_loop pds0 [] (all_use_statements fs));
      split; try discriminate; reflexivity.
  - unfold combine_asts.
    destruct (analyze_dependencies fs) as [[deps pds]|];
      split; try discriminate; reflexivity.
Qed.

Lemma collect_package_table (file : text) (ps : list package_declaration) :
  forall pds us,
    fst (fold_left (collect_package file) ps (pds, us))
    = assign_all eqb
        (map (fun p => (p_name p,
                        PackageDefinition file (map m_name (p_methods p))))
             ps) pds.
Proof.
  induction ps as [|p ps IH]; intros pds us; [reflexivity|].
  cbn [fold_left map collect_package]. rewrite IH. reflexivity.
Qed.

Lemma collect_file_table (fs : list file_ast) :
  forall pds us,
    fst (fold_left collect_file fs (pds, us))
    = assign_all eqb (package_registrations fs) pds.
Proof.
  induction fs as [|f fs IH]; intros pds us; [reflexivity|].
  cbn [fold_left package_registrations flat_map collect_file].
  fold (package_registrations fs).
  rewrite (assign_all_app eqb).
  rewrite <- (collect_package_table (f_source_file f) (f_packages f) pds
                (us ++ f_use_statements f)).
  destruct (fold_left (collect_package (f_source_file f)) (f_packages f)
                      (pds, us ++ f_use_statements f)) as [pds' us'].
  cbn [fst]. apply IH.
Qed.

Lemma analyze_dependencies_table (fs : list file_ast)
      (deps : PyDict.dict text (list text))
      (pds : PyDict.dict text package_definition) :
  analyze_dependencies fs = Some (deps, pds) ->
  pds = assign_all eqb (package_registrations fs) [].
Proof.
  unfold analyze_dependencies.
  destruct (fold_left collect_file fs ([], [])) as [pds0 us] eqn:E0.
  destruct (use_loop pds0 [] us); [|discriminate].
  intros [= _ <-]. change pds0 with (fst (pds0, us)). rewrite <- E0.
  apply (collect_file_table fs [] []).
Qed.

(** The package table of the dependency analysis has one entry per
    package name of the project and no other; every entry is that of a
    package declaration (its file, the names of its definitions); and
    when a name is declared more than once, in one file or in several,
    the entry is that of the last declaration in processing order. *)
Theorem package_definitions_lookup (fs : list file_ast)
        (deps : PyDict.dict text (list text))
        (pds : PyDict.dict text package_definition) :
  analyze_dependencies fs = Some (deps, pds) ->
  NoDup (PyDict.keys pds)
  /\ (forall name,
         In name (PyDict.keys pds)
         <-> exists f p, In f fs /\ In p (f_packages f) /\ p_name p = name)
  /\ (forall name pd,
         PyDict.get eqb name pds = Some pd ->
         exists f p,
           In f fs /\ In p (f_packages f) /\ p_name p = name
           /\ pd = PackageDefinition (f_source_file f)
                                     (map m_name (p_methods p)))
  /\ (forall name pd pre post,
         package_registrations fs = pre ++ (name, pd) :: post ->
         ~ In name (map fst post) ->
         PyDict.get eqb name pds = Some pd).
Proof.
  intros H. apply analyze_dependencies_table in H. subst pds.
  assert (Hin : forall name pd,
             In (name, pd) (package_registrations fs)
             <-> exists f p,
                   In f fs /\ In p (f_packages f) /\ p_name p = name
                   /\ pd = PackageDefinition (f_source_file f)
                                             (map m_name (p_methods p))).
  { intros name pd. unfold package_registrations. rewrite in_flat_map. split.
    - intros [f [Hf Hp]]. apply in_map_iff in Hp as [p [[= <- <-] Hp]].
      now exists f, p.
    - intros (f & p & Hf & Hp & <- & ->). exists f. split; [exact Hf|].
      apply in_map_iff. now exists p. }
  split; [|split; [|split]].
  - apply (assign_all_NoDup eqb eqb_eq). constructor.
  - intros name. rewrite (assign_all_keys eqb eqb_eq), in_map_iff. split.
    + intros [[] | [[name' pd] [<- Hpd]]].
      apply Hin in Hpd as (f & p & Hf & Hp & Hn & _). now exists f, p.
    + intros (f & p & Hf & Hp & Hn). right.
      exists (name, PackageDefinition (f_source_file f)
                                      (map m_name (p_methods p))).
      split; [reflexivity|]. apply Hin. now exists f, p.
  - intros name pd Hg. apply (get_In eqb eqb_eq) in Hg.
    apply (assign_all_In eqb) in Hg as [[] | Hg]. now apply Hin.
  - intros name pd pre post -> Hn. now apply (assign_all_last eqb eqb_eq).
Qed.

Lemma package_definitions_lookup_witness :
  let pds := [(py "A", PackageDefinition (py "a.pm") [py "f"]);
              (py "B", PackageDefinition (py "a.pm") [])] in
  NoDup (PyDict.keys pds)
  /\ (forall name,
         In name (PyDict.keys pds)
         <-> exists f p,
               In f (asts_of imports_itself [py "a.pm"])
               /\ In p (f_packages f) /\ p_name p = name).
Proof.
  intros pds.
  destruct (package_definitions_lookup
              (asts_of imports_itself [py "a.pm"])
              [(py "a.pm", [py "a.pm"])] pds eq_refl) as (H1 & H2 & _).
  split; assumption.
Defined.

(** ** Identifiers *)

Lemma text_ind2 (P : text -> Prop) :
  P [] -> (forall c, P [c]) ->
  (forall c1 c2 s, P s -> P (c2 :: s) -> P (c1 :: c2 :: s)) ->
  forall s, P s.
Proof.
  intros H0 H1 H2 s.
  assert (H : P s /\ forall c, P (c :: s)).
  { induction s as [|c s [IH1 IH2]]; [now split|].
    split; [apply IH2|]. intros c0. apply H2; [exact IH1|apply IH2]. }
  apply H.
Qed.

Lemma replace_colons_cons (d : text) (c1 c2 : ascii) (s : text) :
  replace_colons d (c1 :: c2 :: s)
  = if Ascii.eqb c1 ":" && Ascii.eqb c2 ":"
    then d ++ replace_colons d s
    else c1 :: replace_colons d (c2 :: s).
Proof. reflexivity. Qed.

Lemma replace_colons_head (d : text) (c : ascii) (s : text) :
  Ascii.eqb c ":" = false ->
  exists r, replace_colons d (c :: s) = c :: r.
Proof.
  intros H. destruct s as [|c2 s]; [now exists []|].
  rewrite replace_colons_cons, H. cbn [andb]. now eexists.
Qed.

Lemma replace_colons_no_colons (s : text) :
  contains (replace_colons (py "_") s) (py "::") = false.
Proof.
  induction s as [| c | c1 c2 s IH1 IH2] using text_ind2;
    [reflexivity| |].
  - cbn. now rewrite andb_false_r.
  - rewrite replace_colons_cons.
    destruct (Ascii.eqb c1 ":" && Ascii.eqb c2 ":") eqn:E.
    + cbn [py list_ascii_of_string app]. cbn [contains startswith].
      now cbn [Ascii.eqb Bool.eqb andb orb].
    + cbn [contains]. rewrite IH2, orb_false_r.
      destruct (Ascii.eqb c1 ":") eqn:E1; cbn [andb] in E.
      * destruct (replace_colons_head (py "_") c2 s E) as [r ->].
        cbn [py list_ascii_of_string startswith].
        rewrite Ascii.eqb_sym, E1. cbn [andb].
        rewrite Ascii.eqb_sym, E. reflexivity.
      * cbn [py list_ascii_of_string startswith].
        now rewrite Ascii.eqb_sym, E1.
Qed.

Lemma replace_colons_keeps (p : ascii -> bool) (s : text) :
  p "_"%char = true ->
  forallb p s = true -> forallb p (replace_colons (py "_") s) = true.
Proof.
  intros Hu.
  induction s as [| c | c1 c2 s IH1 IH2] using text_ind2; intros H;
    [reflexivity|exact H|].
  rewrite replace_colons_cons.
  cbn [forallb] in H. apply andb_true_iff in H as [H1 H].
  destruct (Ascii.eqb c1 ":" && Ascii.eqb c2 ":").
  - cbn [py list_ascii_of_string app forallb]. rewrite Hu. cbn [andb].
    apply IH1. now apply andb_true_iff in H as [_ H].
  - cbn [forallb]. rewrite H1. now apply IH2.
Qed.

Lemma replace_char_spec (c : ascii) (p : ascii -> bool) (s : text) :
  p "_"%char = true ->
  (forall x, Ascii.eqb x c = false -> p x = true)
  \/ forallb p s = true ->
  forallb p (replace_char c (py "_") s) = true.
Proof.
  intros Hu H. unfold replace_char.
  induction s as [|x s IH]; [reflexivity|].
  cbn [flat_map]. rewrite forallb_app.
  assert (Hs : (forall x, Ascii.eqb x c = false -> p x = true)
               \/ forallb p s = true).
  { destruct H as [H | H]; [now left|right].
    cbn [forallb] in H. now apply andb_true_iff in H as [_ H]. }
  rewrite (IH Hs), andb_true_r.
  destruct (Ascii.eqb x c) eqn:E.
  - cbn. now rewrite Hu.
  - cbn. rewrite andb_true_r. destruct H as [H | H]; [now apply H|].
    cbn [forallb] in H. now apply andb_true_iff in H as [H _].
Qed.

Lemma normalize_id_safe (t : text) :
  forallb (fun c => negb (is_separator c)) (_normalize_id t) = true.
Proof.
  unfold _normalize_id.
  assert (H : forall (c : ascii) (q : ascii -> bool) (s : text),
             (forall x, q x = negb (Ascii.eqb x c)) ->
             Ascii.eqb "_" c = false ->
             forallb q (replace_char c (py "_") s) = true).
  { intros c q s Hq Hu. apply replace_char_spec.
    - rewrite Hq, Hu. reflexivity.
    - left. intros x Hx. now rewrite Hq, Hx. }
  assert (K : forall (c : ascii) (q : ascii -> bool) (s : text),
             q "_"%char = true -> forallb q s = true ->
             forallb q (replace_char c (py "_") s) = true).
  { intros c q s Hu Hs. apply replace_char_spec; [exact Hu|now right]. }
  set (t1 := replace_char "/" (py "_") t).
  set (t2 := replace_char "." (py "_") t1).
  set (t3 := replace_char " " (py "_") t2).
  set (t4 := replace_char backslash (py "_") t3).
  assert (H1 : forallb (fun x => negb (Ascii.eqb x "/")) t4 = true).
  { apply K; [reflexivity|]. apply K; [reflexivity|]. apply K; [reflexivity|].
    apply H; [reflexivity|reflexivity]. }
  assert (H2 : forallb (fun x => negb (Ascii.eqb x ".")) t4 = true).
  { apply K; [reflexivity|]. apply K; [reflexivity|].
    apply H; [reflexivity|reflexivity]. }
  assert (H3 : forallb (fun x => negb (Ascii.eqb x " ")) t4 = true).
  { apply K; [reflexivity|]. apply H; [reflexivity|reflexivity]. }
  assert (H4 : forallb (fun x => negb (Ascii.eqb x backslash)) t4 = true).
  { apply H; [reflexivity|reflexivity]. }
  apply replace_colons_keeps; [reflexivity|].
  rewrite forallb_forall in *. intros x Hx. unfold is_separator.
  specialize (H1 x Hx). specialize (H2 x Hx).
  specialize (H3 x Hx). specialize (H4 x Hx).
  apply negb_true_iff in H1, H2, H3, H4. now rewrite H1, H2, H3, H4.
Qed.

Lemma replace_char_id (c : ascii) (d s : text) :
  forallb (fun x => negb (Ascii.eqb x c)) s = true -> replace_char c d s = s.
Proof.
  unfold replace_char. induction s as [|x s IH]; intros H; [reflexivity|].
  cbn [forallb] in H. apply andb_true_iff in H as [Hx H].
  apply negb_true_iff in Hx. cbn [flat_map]. rewrite Hx, (IH H). reflexivity.
Qed.

Lemma replace_colons_id (d s : text) :
  contains s (py "::") = false -> replace_colons d s = s.
Proof.
  induction s as [| c | c1 c2 s IH1 IH2] using text_ind2; intros H;
    [reflexivity|reflexivity|].
  cbn [contains] in H. apply orb_false_iff in H as [Hs H].
  rewrite replace_colons_cons.
  destruct (Ascii.eqb c1 ":" && Ascii.eqb c2 ":") eqn:E.
  - apply andb_true_iff in E as [E1 E2].
    apply Ascii.eqb_eq in E1, E2. subst c1 c2. cbn in Hs.
    destruct s; discriminate Hs.
  - f_equal. apply IH2. exact H.
Qed.

(** An identifier part made by [_normalize_id] holds none of the
    characters [/], [.], space and backslash and no [::]; and it is in
    normal form: normalising it again leaves it as it is. *)
Theorem normalize_id_normal_form (t : text) :
  forallb (fun c => negb (is_separator c)) (_normalize_id t) = true
  /\ contains (_normalize_id t) (py "::") = false
  /\ _normalize_id (_normalize_id t) = _normalize_id t.
Proof.
  pose proof (normalize_id_safe t) as Hs.
  assert (Hc : contains (_normalize_id t) (py "::") = false)
    by apply replace_colons_no_colons.
  repeat split; try assumption.
  generalize dependent (_normalize_id t). intros s Hs Hc.
  unfold _normalize_id.
  assert (H : forall c, is_separator c = true ->
                        forallb (fun x => negb (Ascii.eqb x c)) s = true).
  { intros c Hsep. rewrite forallb_forall in *. intros x Hx.
    specialize (Hs x Hx). apply negb_true_iff in Hs.
    apply negb_true_iff. destruct (Ascii.eqb x c) eqn:E; [|reflexivity].
    apply Ascii.eqb_eq in E. congruence. }
  rewrite (replace_char_id "/") by (apply H; reflexivity).
  rewrite (replace_char_id ".") by (apply H; reflexivity).
  rewrite (replace_char_id " ") by (apply H; reflexivity).
  rewrite (replace_char_id backslash) by (apply H; reflexivity).
  now apply replace_colons_id.
Qed.

Lemma replace_char_app (c : ascii) (d a b : text) :
  replace_char c d (a ++ b) = replace_char c d a ++ replace_char c d b.
Proof. unfold replace_char. apply flat_map_app. Qed.

(** Identifiers do not tell the characters [/], [.], space, backslash
    and [_] apart: two texts that differ only in which of them stands
    at some place get the same identifier part, so distinct paths can
    share one identifier. *)
Theorem normalize_id_merges_separators (a b : text) (c d : ascii) :
  is_separator_or_underscore c = true ->
  is_separator_or_underscore d = true ->
  _normalize_id (a ++ c :: b) = _normalize_id (a ++ d :: b).
Proof.
  assert (H : forall x, is_separator_or_underscore x = true ->
              replace_char backslash (py "_")
                (replace_char " " (py "_")
                   (replace_char "." (py "_")
                      (replace_char "/" (py "_") [x]))) = py "_").
  { intros x Hx. unfold is_separator_or_underscore, is_separator in Hx.
    repeat (apply orb_true_iff in Hx as [Hx | Hx]);
      apply Ascii.eqb_eq in Hx; subst x; reflexivity. }
  intros Hc Hd. unfold _normalize_id. f_equal.
  change (a ++ c :: b) with (a ++ [c] ++ b).
  change (a ++ d :: b) with (a ++ [d] ++ b).
  rewrite !replace_char_app. now rewrite (H c Hc), (H d Hd).
Qed.

Lemma normalize_id_merges_separators_witness :
  file_id_of (py "lib/Animal.pm") = file_id_of (py "lib_Animal.pm").
Proof.
  unfold file_id_of. apply (f_equal (fun x => py "file_" ++ x)).
  exact (normalize_id_merges_separators (py "lib") (py "Animal.pm")
           "/"%char "_"%char eq_refl eq_refl).
Defined.

(** ** Graph transformer: the nodes and the structural relationships *)

Lemma fold_left_graph {A : Type} (step : graph -> A -> graph)
      (N : A -> list graph_node) (R : A -> list graph_relationship) :
  (forall g x, step g x = (fst g ++ N x, snd g ++ R x)) ->
  forall xs g,
    fold_left step xs g = (fst g ++ flat_map N xs, snd g ++ flat_map R xs).
Proof.
  intros H. induction xs as [|x xs IH]; intros g; cbn [fold_left flat_map].
  - rewrite !app_nil_r. now destruct g.
  - rewrite IH, H. cbn [fst snd]. now rewrite <- !app_assoc.
Qed.

Lemma flat_map_singleton {A B : Type} (f : A -> B) (l : list A) :
  flat_map (fun x => [f x]) l = map f l.
Proof. induction l as [|x l IH]; [reflexivity|]. cbn. now rewrite IH. Qed.

Lemma fold_use_node (owner_id : text) (us : list use_statement) (g : graph) :
  fold_left (use_node owner_id) us g
  = (fst g ++ use_nodes owner_id us, snd g ++ use_rels owner_id us).
Proof.
  unfold use_nodes, use_rels. rewrite <- !flat_map_singleton.
  apply fold_left_graph. reflexivity.
Qed.

Lemma fold_method_node (package_id : text) (ms : list method) (g : graph) :
  fold_left (method_node package_id) ms g
  = (fst g ++ method_nodes package_id ms, snd g ++ method_rels package_id ms).
Proof.
  unfold method_nodes, method_rels. rewrite <- !flat_map_singleton.
  apply fold_left_graph. reflexivity.
Qed.

Lemma package_nodes_eq (file_id : text) (g : graph) (p : package_declaration) :
  package_nodes file_id g p
  = (fst g ++ nodes_of_package file_id p, snd g ++ rels_of_package file_id p).
Proof.
  unfold package_nodes, nodes_of_package, rels_of_package.
  rewrite fold_method_node, fold_use_node. unfold emit. cbn [fst snd].
  destruct (p_script_execution p); cbn [fst snd];
    rewrite <- ?app_assoc; try rewrite !app_nil_r; reflexivity.
Qed.

Lemma file_nodes_eq (g : graph) (f : file_ast) :
  file_nodes g f = (fst g ++ nodes_of_file f, snd g ++ rels_of_file f).
Proof.
  unfold file_nodes, nodes_of_file, rels_of_file.
  rewrite (fold_left_graph _ _ _ (package_nodes_eq _)), fold_use_node.
  cbn [fst snd]. now rewrite <- !app_assoc.
Qed.

Lemma raw_graph_eq (ast : project_ast) :
  raw_graph ast
  = (flat_map nodes_of_file (files ast),
     flat_map rels_of_file (files ast)
     ++ map call_relationship (calls_of ast)).
Proof.
  unfold raw_graph. rewrite (fold_left_graph _ _ _ file_nodes_eq).
  reflexivity.
Qed.

Lemma aggregate_relationships_keys (rels : list graph_relationship) :
  map key_of (aggregate_relationships rels) = PyDict.keys (aggregate rels).
Proof.
  unfold aggregate_relationships, PyDict.keys. rewrite map_map.
  apply map_ext. intros [k d]. apply agg_emit_spec.
Qed.

Lemma aggregate_relationships_In (rels : list graph_relationship)
      (r : graph_relationship) :
  In r (aggregate_relationships rels) ->
  exists r0, In r0 rels /\ key_of r0 = key_of r.
Proof.
  intros H. apply (in_map key_of) in H.
  rewrite aggregate_relationships_keys in H. unfold aggregate in H.
  apply aggregate_keys in H as [[] | H].
  apply in_map_iff in H as [r0 [H0 H1]]. now exists r0.
Qed.

Lemma package_node_In (fs : list file_ast) (f : file_ast)
      (p : package_declaration) (n : graph_node) :
  In f fs -> In p (f_packages f) ->
  In n (nodes_of_package (file_id_of (f_source_file f)) p) ->
  In n (flat_map nodes_of_file fs).
Proof.
  intros Hf Hp Hn. apply in_flat_map. exists f. split; [exact Hf|].
  unfold nodes_of_file. apply in_or_app. right. apply in_or_app. right.
  apply in_flat_map. now exists p.
Qed.

Lemma rels_of_package_connect (g : graph) (file_id : text)
      (p : package_declaration) (r : graph_relationship) :
  has_node g file_id (py "FILE") ->
  incl (nodes_of_package file_id p) (fst g) ->
  In r (rels_of_package file_id p) -> connects g (key_of r).
Proof.
  intros Hfile Hincl Hr. unfold rels_of_package in Hr. cbn [app] in Hr.
  assert (Hpkg : has_node g (package_id_of file_id (p_name p)) (py "PACKAGE")).
  { apply Hincl. now left. }
  destruct Hr as [<- | Hr].
  { right. left. split; [reflexivity|]. split; [exact Hfile|exact Hpkg]. }
  apply in_app_or in Hr as [Hr | Hr].
  { apply in_map_iff in Hr as [u [<- Hu]]. left. split; [reflexivity|].
    split; [now right|]. apply Hincl; unfold nodes_of_package; cbn [app]; right. apply in_or_app. left.
    apply in_map_iff. now exists u. }
  apply in_app_or in Hr as [Hr | Hr].
  { apply in_map_iff in Hr as [m [<- Hm]]. right. right. left.
    split; [reflexivity|]. split; [exact Hpkg|]. apply Hincl; unfold nodes_of_package; cbn [app]; right.
    apply in_or_app. right. apply in_or_app. left.
    apply in_map_iff. now exists m. }
  destruct (p_script_execution p) as [se|] eqn:Es; [|destruct Hr].
  destruct Hr as [<- | []]. right. right. right.
  split; [reflexivity|]. split; [exact Hpkg|]. apply Hincl; unfold nodes_of_package; cbn [app]; right.
  apply in_or_app. right. apply in_or_app. right.
  rewrite Es. now left.
Qed.

Lemma rels_of_file_connect (g : graph) (f : file_ast)
      (r : graph_relationship) :
  incl (nodes_of_file f) (fst g) ->
  In r (rels_of_file f) -> connects g (key_of r).
Proof.
  intros Hincl Hr.
  assert (Hfile : has_node g (file_id_of (f_source_file f)) (py "FILE")).
  { apply Hincl. now left. }
  unfold rels_of_file in Hr. apply in_app_or in Hr as [Hr | Hr].
  - apply in_map_iff in Hr as [u [<- Hu]]. left. split; [reflexivity|].
    split; [now left|]. apply Hincl; unfold nodes_of_file; cbn [app]; right. apply in_or_app. left.
    apply in_map_iff. now exists u.
  - apply in_flat_map in Hr as [p [Hp Hr]].
    apply (rels_of_package_connect g _ p r Hfile); [|exact Hr].
    intros n Hn. apply Hincl; unfold nodes_of_file; cbn [app]; right. apply in_or_app. right.
    apply in_flat_map. now exists p.
Qed.

(** No structural relationship dangles: every relationship the
    transformer returns is a [CALLS_METHOD] edge, or it connects two
    nodes the transformer returns, of the types that go with its own
    type: an import ([USES_MODULE]) goes from a file or package node to
    an import node, [CONTAINS_PACKAGE] from a file node to a package
    node, [HAS_METHOD] from a package node to a definition node and
    [HAS_SCRIPT] from a package node to a script node. *)
Theorem structural_relationships_connect_nodes (ast : project_ast) :
  let g := _transform_perl_ast ast in
  Forall (fun r => rel_type r = py "CALLS_METHOD" \/ connects g (key_of r))
         (snd g).
Proof.
  intros g. apply Forall_forall. intros r Hr.
  unfold g, _transform_perl_ast in Hr. cbn [snd] in Hr.
  apply aggregate_relationships_In in Hr as [r0 [H0 Hk]].
  rewrite raw_graph_eq in H0. cbn [snd] in H0.
  apply in_app_or in H0 as [H0 | H0].
  - right. rewrite <- Hk. apply in_flat_map in H0 as [f [Hf H0]].
    apply (rels_of_file_connect g f r0); [|exact H0].
    unfold g, _transform_perl_ast. rewrite raw_graph_eq. cbn [fst].
    intros n Hn. apply in_flat_map. now exists f.
  - left. apply in_map_iff in H0 as [c [<- _]].
    injection Hk as _ _ Hk. now rewrite <- Hk.
Qed.

(** ** Graph transformer: the ends of the call edges *)

Lemma build_registry_In (fs : list file_ast) (q : text) (e : registry_entry) :
  In (q, e) (build_registry fs) ->
  exists f p m,
    In f fs /\ In p (f_packages f) /\ In m (p_methods p)
    /\ m_full_name m = q /\ e = entry_of f p m.
Proof.
  rewrite build_registry_assign. intros H.
  apply (assign_all_In eqb) in H as [[] | H]. now apply registrations_In.
Qed.

Lemma method_node_In (fs : list file_ast) (f : file_ast)
      (p : package_declaration) (m : method) :
  In f fs -> In p (f_packages f) -> In m (p_methods p) ->
  In (GraphNode
        (method_id_of (package_id_of (file_id_of (f_source_file f)) (p_name p))
                      (m_name m))
        (py "METHOD"))
     (flat_map nodes_of_file fs).
Proof.
  intros Hf Hp Hm. apply (package_node_In fs f p _ Hf Hp).
  unfold nodes_of_package. cbn [app]. right. apply in_or_app. right.
  apply in_or_app. left. apply in_map_iff. now exists m.
Qed.

Lemma script_node_In (fs : list file_ast) (f : file_ast)
      (p : package_declaration) (se : script_execution) :
  In f fs -> In p (f_packages f) -> p_script_execution p = Some se ->
  In (GraphNode
        (script_id_of (package_id_of (file_id_of (f_source_file f)) (p_name p)))
        (py "SCRIPT_EXECUTION"))
     (flat_map nodes_of_file fs).
Proof.
  intros Hf Hp Hs. apply (package_node_In fs f p _ Hf Hp).
  unfold nodes_of_package. cbn [app]. right. apply in_or_app. right.
  apply in_or_app. right. rewrite Hs. now left.
Qed.

Lemma target_id_eq (c : cross_file_call) :
  _generate_method_target_id c
  = method_id_of (package_id_of (file_id_of (target_file c)) (target_package c))
                 (target_method c).
Proof.
  unfold _generate_method_target_id, method_id_of, package_id_of, file_id_of.
  cbn [py list_ascii_of_string app]. now rewrite <- ?app_assoc.
Qed.

(** A call edge that is not a constructor edge ends at a definition
    node: the identifier [_generate_method_target_id] builds for it is
    the identifier of a [METHOD] node the transformer emits for the
    same project. *)
Theorem call_targets_are_method_nodes (ast : project_ast)
        (c : cross_file_call) :
  let out := analyze_cross_file_calls ast in
  In c (calls_of out) ->
  call_type c <> constructor ->
  has_node (_transform_perl_ast out) (_generate_method_target_id c)
           (py "METHOD").
Proof.
  intros out Hc Hk. unfold out in *.
  apply analyze_calls_In in Hc
    as (f0 & cp & cm & code & mo & _ & _ & _ & _ & _ & _ & _ & e & He
        & Hf & Hp & Hm & _).
  apply build_registry_In in He as (f & p & m & Hf' & Hp' & Hm' & _ & ->).
  unfold has_node, _transform_perl_ast. rewrite raw_graph_eq. cbn [fst files].
  rewrite target_id_eq, Hf, Hp, (Hm Hk). cbn [entry_of r_file r_package r_method_name].
  now apply method_node_In.
Qed.

Lemma call_targets_are_method_nodes_witness :
  let ast := ProjectAST (asts_of two_foos [py "a.pm"; py "b.pm"])
                        2 [] [] None None in
  let c := CrossFileCall (py "a.pm") (py "A") (Some (py "A::bar"))
                         (py "b.pm") (py "B") (py "foo") (py "B::foo")
                         (py "foo(") direct_function in
  has_node (_transform_perl_ast (analyze_cross_file_calls ast))
           (_generate_method_target_id c) (py "METHOD").
Proof.
  intros ast c. apply (call_targets_are_method_nodes ast c).
  - vm_compute. left. reflexivity.
  - discriminate.
Defined.

Lemma split_colons_plain (s : text) :
  contains_char s ":" = false ->
  forall cur, split_colons_from cur s = [rev cur ++ s].
Proof.
  induction s as [|c s IH]; intros H cur; cbn [split_colons_from].
  - now rewrite app_nil_r.
  - cbn [contains_char existsb] in H. apply orb_false_iff in H as [Hc H].
    destruct s as [|c2 s2].
    + cbn [rev]. reflexivity.
    + rewrite Hc. cbn [andb]. rewrite (IH H). cbn [rev].
      now rewrite <- app_assoc.
Qed.

Lemma split_colons_from_cons (s : text) :
  forall cur : text, exists a l, split_colons_from cur s = a :: l.
Proof.
  induction s as [| c | c1 c2 s IH1 IH2] using text_ind2; intros cur.
  - now exists (rev cur), [].
  - now exists (rev (c :: cur)), [].
  - cbn [split_colons_from].
    destruct (Ascii.eqb c1 ":" && Ascii.eqb c2 ":"); [now eexists; eexists|].
    apply IH2.
Qed.

Lemma last_segment_qualified (n : text) :
  contains_char n ":" = false ->
  forall (p : text) (cur : text),
    last p "x"%char <> ":"%char ->
    last (split_colons_from cur (p ++ py "::" ++ n)) [] = n.
Proof.
  intros Hn.
  induction p as [| c | c1 c2 p IH1 IH2] using text_ind2; intros cur Hp.
  - cbn [app py list_ascii_of_string split_colons_from Ascii.eqb Bool.eqb andb].
    change (Ascii.eqb ":" ":") with true. cbn [andb].
    rewrite (split_colons_plain n Hn). reflexivity.
  - cbn [last] in Hp.
    cbn [app py list_ascii_of_string split_colons_from].
    destruct (Ascii.eqb c ":") eqn:E;
      [apply Ascii.eqb_eq in E; congruence|]. cbn [andb].
    change (Ascii.eqb ":" ":") with true. cbn [andb].
    rewrite (split_colons_plain n Hn). reflexivity.
  - cbn [app split_colons_from].
    destruct (Ascii.eqb c1 ":" && Ascii.eqb c2 ":") eqn:E.
    + destruct p as [|c3 p].
      * apply andb_true_iff in E as [_ E]. apply Ascii.eqb_eq in E.
        cbn [last] in Hp. congruence.
      * destruct (split_colons_from_cons ((c3 :: p) ++ py "::" ++ n) [])
          as (a & l & Ea).
        cbn [last]. rewrite Ea. rewrite <- Ea. apply IH1. exact Hp.
    + apply IH2. exact Hp.
Qed.

Lemma caller_id_script (c : cross_file_call) :
  caller_method c = None ->
  _generate_method_caller_id c
  = script_id_of (package_id_of (file_id_of (caller_file c))
                                (caller_package c)).
Proof.
  intros H. unfold _generate_method_caller_id. rewrite H.
  unfold script_id_of, package_id_of, file_id_of.
  cbn [py list_ascii_of_string app]. now rewrite <- ?app_assoc.
Qed.

Lemma caller_id_method (c : cross_file_call) (q : text) :
  caller_method c = Some q -> q <> [] ->
  _generate_method_caller_id c
  = method_id_of (package_id_of (file_id_of (caller_file c))
                                (caller_package c))
                 (last_segment q).
Proof.
  intros H Hq. unfold _generate_method_caller_id. rewrite H.
  destruct q as [|x q]; [now contradiction Hq|].
  unfold method_id_of, package_id_of, file_id_of.
  cbn [py list_ascii_of_string app]. now rewrite <- ?app_assoc.
Qed.

(** A call edge found outside every definition starts at a script
    node the transformer emits, unless it was found in the global block
    of a file (the caller package is then [global]). *)
Theorem script_callers_are_script_nodes (ast : project_ast)
        (c : cross_file_call) :
  let out := analyze_cross_file_calls ast in
  In c (calls_of out) ->
  caller_method c = None ->
  has_node (_transform_perl_ast out) (_generate_method_caller_id c)
           (py "SCRIPT_EXECUTION")
  \/ (caller_package c = py "global"
      /\ exists f, In f (files ast) /\ caller_file c = f_source_file f
                   /\ f_global_scope f <> None).
Proof.
  intros out Hc Hm. unfold out in *.
  apply analyze_calls_In in Hc
    as (f & cp & cm & code & mo & Hf & [_ Hsite] & H1 & H2 & H3 & _).
  subst cp cm. rewrite Hm in Hsite.
  destruct Hsite as [(p & se & Hp & Hn & _ & Hs & _)
                    | [(p & m & _ & _ & _ & Hcm & _) | (g & Hg & _ & Hgs & _)]].
  - left. unfold has_node, _transform_perl_ast. rewrite raw_graph_eq.
    cbn [fst files]. rewrite (caller_id_script c Hm), H1, Hn.
    now apply (script_node_In _ f p se).
  - discriminate Hcm.
  - right. split; [exact Hg|]. exists f. split; [exact Hf|].
    split; [exact H1|]. now rewrite Hgs.
Qed.

Lemma script_callers_are_script_nodes_witness :
  let ast := ProjectAST (asts_of script_caller [py "lib/Animal.pm"; py "main.pl"])
                        2 [] [] None None in
  let c := CrossFileCall (py "main.pl") (py "main") None
                         (py "lib/Animal.pm") (py "Animal") (py "speak")
                         (py "Animal::speak") (py "Animal::speak(")
                         package_function in
  has_node (_transform_perl_ast (analyze_cross_file_calls ast))
           (_generate_method_caller_id c) (py "SCRIPT_EXECUTION")
  \/ (caller_package c = py "global"
      /\ exists f, In f (files ast) /\ caller_file c = f_source_file f
                   /\ f_global_scope f <> None).
Proof.
  intros ast c. apply (script_callers_are_script_nodes ast c).
  - vm_compute. left. reflexivity.
  - reflexivity.
Defined.

(** A call edge found in the body of a definition starts at the node of
    that definition, provided the definitions of the project are
    qualified plainly: the qualified name is the package name, [::] and
    the bare name, the bare name holds no colon and the package name
    does not end in one. *)
Theorem method_callers_are_method_nodes (ast : project_ast)
        (c : cross_file_call) :
  let out := analyze_cross_file_calls ast in
  (forall f p m, In f (files ast) -> In p (f_packages f) ->
                 In m (p_methods p) -> qualified_plainly p m) ->
  In c (calls_of out) ->
  caller_method c <> None ->
  has_node (_transform_perl_ast out) (_generate_method_caller_id c)
           (py "METHOD").
Proof.
  intros out Hplain Hc Hm. unfold out in *.
  apply analyze_calls_In in Hc
    as (f & cp & cm & code & mo & Hf & [_ Hsite] & H1 & H2 & H3 & _).
  subst cp cm.
  destruct Hsite as [(p & se & _ & _ & Hcm & _)
                    | [(p & m & Hp & Hin & Hn & Hcm & _) | (g & _ & Hcm & _)]];
    try (now contradiction Hm).
  destruct (Hplain f p m Hf Hp Hin) as (Hq & Hcolon & Hlast).
  unfold has_node, _transform_perl_ast. rewrite raw_graph_eq.
  cbn [fst files].
  rewrite (caller_id_method c (m_full_name m) Hcm).
  - rewrite H1, Hn, Hq. unfold last_segment, split_colons.
    rewrite (last_segment_qualified (m_name m) Hcolon (p_name p) [] Hlast).
    now apply method_node_In.
  - rewrite Hq. destruct (p_name p); discriminate.
Qed.

Lemma method_callers_are_method_nodes_witness :
  let ast := ProjectAST (asts_of two_foos [py "a.pm"; py "b.pm"])
                        2 [] [] None None in
  let c := CrossFileCall (py "a.pm") (py "A") (Some (py "A::bar"))
                         (py "b.pm") (py "B") (py "foo") (py "B::foo")
                         (py "foo(") direct_function in
  has_node (_transform_perl_ast (analyze_cross_file_calls ast))
           (_generate_method_caller_id c) (py "METHOD").
Proof.
  intros ast c. apply (method_callers_are_method_nodes ast c).
  - intros f p m Hf Hp Hm. vm_compute in Hf.
    destruct Hf as [<- | [<- | []]]; vm_compute in Hp;
      destruct Hp as [<- | []]; vm_compute in Hm;
      repeat (destruct Hm as [<- | Hm]); try (now destruct Hm);
      (split; [reflexivity|split; [reflexivity|discriminate]]).
  - vm_compute. left. reflexivity.
  - discriminate.
Defined.

(** ** Aggregation: totals, order and kept properties *)

Lemma sum_counts_setitem (k : rel_key) (v : agg_data)
      (agg : PyDict.dict rel_key agg_data) :
  sum_counts (PyDict.setitem key_eqb k v agg)
  = (sum_counts agg
     - match PyDict.get key_eqb k agg with
       | Some d => a_count d | None => 0 end
     + a_count v)%Z.
Proof.
  induction agg as [|[k1 d1] agg IH];
    cbn [PyDict.setitem PyDict.get sum_counts fold_right snd]; [lia|].
  destruct (key_eqb k k1); cbn [sum_counts fold_right snd].
  - fold (sum_counts agg). lia.
  - fold (sum_counts agg) (sum_counts (PyDict.setitem key_eqb k v agg)).
    rewrite IH. lia.
Qed.

Lemma sum_counts_step (agg : PyDict.dict rel_key agg_data)
      (rel : graph_relationship) :
  sum_counts (agg_step agg rel) = (sum_counts agg + 1)%Z.
Proof.
  unfold agg_step. rewrite sum_counts_setitem. cbn [a_count].
  destruct (PyDict.get key_eqb (key_of rel) agg); cbn [a_count agg_default];
    lia.
Qed.

Lemma sum_counts_aggregate (rels : list graph_relationship) :
  forall agg,
    sum_counts (fold_left agg_step rels agg)
    = (sum_counts agg + Z.of_nat (length rels))%Z.
Proof.
  induction rels as [|rel rels IH]; intros agg; cbn [fold_left length].
  - lia.
  - rewrite IH, sum_counts_step. lia.
Qed.

Lemma call_count_of_emit (k : rel_key) (d : agg_data) :
  call_count_of (agg_emit (k, d)) = a_count d.
Proof.
  unfold call_count_of.
  destruct (agg_emit_spec k d) as (_ & -> & _). reflexivity.
Qed.

(** Aggregation loses no relationship: the [call_count] values of the
    aggregated relationships add up to the number of relationships
    given. *)
Theorem aggregation_conserves_relationships
        (rels : list graph_relationship) :
  total_call_count (aggregate_relationships rels) = Z.of_nat (length rels).
Proof.
  unfold aggregate_relationships, aggregate.
  transitivity (sum_counts (fold_left agg_step rels [])).
  - generalize (fold_left agg_step rels []). intros agg.
    induction agg as [|[k d] agg IH]; [reflexivity|].
    cbn [map total_call_count fold_right sum_counts snd].
    fold (total_call_count (map agg_emit agg)) (sum_counts agg).
    now rewrite call_count_of_emit, IH.
  - rewrite sum_counts_aggregate. reflexivity.
Qed.

Lemma keys_setitem_eq (k : rel_key) (v : agg_data)
      (agg : PyDict.dict rel_key agg_data) :
  PyDict.keys (PyDict.setitem key_eqb k v agg)
  = if PyDict.set_mem key_eqb k (PyDict.keys agg)
    then PyDict.keys agg
    else PyDict.keys agg ++ [k].
Proof.
  unfold PyDict.keys, PyDict.set_mem.
  induction agg as [|[k1 d1] agg IH];
    cbn [PyDict.setitem map fst existsb app]; [reflexivity|].
  destruct (key_eqb k k1) eqn:E; cbn [orb map fst].
  - apply key_eqb_eq in E. now subst k1.
  - rewrite IH. now destruct (existsb (key_eqb k) (map fst agg)).
Qed.

Lemma aggregate_keys_order (rels : list graph_relationship) :
  forall agg,
    PyDict.keys (fold_left agg_step rels agg)
    = PyDict.keys agg ++ first_occurrences (PyDict.keys agg) rels.
Proof.
  induction rels as [|rel rels IH]; intros agg;
    cbn [fold_left first_occurrences].
  - now rewrite app_nil_r.
  - rewrite IH.
    assert (Hk : PyDict.keys (agg_step agg rel)
                 = if PyDict.set_mem key_eqb (key_of rel) (PyDict.keys agg)
                   then PyDict.keys agg
                   else PyDict.keys agg ++ [key_of rel])
      by (unfold agg_step; apply keys_setitem_eq).
    rewrite Hk.
    destruct (PyDict.set_mem key_eqb (key_of rel) (PyDict.keys agg)).
    + reflexivity.
    + now rewrite <- app_assoc.
Qed.

(** The aggregated relationships come in the order in which their
    (from_id, to_id, type) triples first occur among the relationships
    given. *)
Theorem aggregation_keeps_first_occurrence_order
        (rels : list graph_relationship) :
  map key_of (aggregate_relationships rels) = first_occurrences [] rels.
Proof.
  rewrite aggregate_relationships_keys. unfold aggregate.
  now rewrite aggregate_keys_order.
Qed.

Lemma data_step_skip (k : rel_key) (pre : list graph_relationship) :
  ~ In k (map key_of pre) ->
  forall d, fold_left (data_step k) pre d = d.
Proof.
  induction pre as [|rel pre IH]; intros Hn d; [reflexivity|].
  cbn [fold_left]. cbn [map In] in Hn.
  rewrite data_step_other.
  - apply IH. tauto.
  - unfold same_key. destruct (key_eqb (key_of rel) k) eqn:E; [|reflexivity].
    apply key_eqb_eq in E. tauto.
Qed.

Lemma data_step_properties (k : rel_key) (post : list graph_relationship) :
  forall d,
    a_properties d <> [] ->
    a_properties (fold_left (data_step k) post d) = a_properties d.
Proof.
  induction post as [|rel post IH]; intros d Hd; [reflexivity|].
  cbn [fold_left]. unfold data_step at 2.
  destruct (same_key k rel); [|now apply IH].
  rewrite IH; cbn [a_properties]; destruct (a_properties d);
    try reflexivity; try discriminate; now contradiction Hd.
Qed.

Lemma agg_emit_properties (k : rel_key) (d : agg_data) (name : text) :
  derived_property name = false ->
  PyDict.get eqb name (rel_properties (agg_emit (k, d)))
  = PyDict.get eqb name (a_properties d).
Proof.
  unfold derived_property. intros H.
  apply orb_false_iff in H as [H H4]. apply orb_false_iff in H as [H H3].
  apply orb_false_iff in H as [H1 H2].
  apply eqb_neq in H1, H2, H3, H4.
  destruct k as [[f t] y]. cbn [agg_emit rel_properties].
  destruct (a_call_types d), (a_call_patterns d);
    repeat (rewrite (get_setitem_other eqb eqb_eq); [|assumption]);
    reflexivity.
Qed.

(** The first relationship of a triple decides the properties: when
    the first relationship with some (from_id, to_id, type) triple has
    properties, the aggregated relationship of that triple has, under
    every name the aggregation does not write itself ([call_count],
    [call_patterns], [call_types], [call_type]), what that first
    relationship has; later relationships of the triple change none of
    them. *)
Theorem aggregation_keeps_first_properties
        (pre post : list graph_relationship) (r0 r : graph_relationship)
        (name : text) :
  ~ In (key_of r0) (map key_of pre) ->
  rel_properties r0 <> [] ->
  In r (aggregate_relationships (pre ++ r0 :: post)) ->
  key_of r = key_of r0 ->
  derived_property name = false ->
  PyDict.get eqb name (rel_properties r)
  = PyDict.get eqb name (rel_properties r0).
Proof.
  intros Hpre Hne Hr Hk Hname. unfold aggregate_relationships in Hr.
  apply in_map_iff in Hr as [[k d] [<- Hin]].
  destruct (agg_emit_spec k d) as (Hk' & _). rewrite Hk' in Hk. subst k.
  rewrite agg_emit_properties by exact Hname.
  apply aggregate_data in Hin. rewrite Hin, fold_left_app.
  rewrite (data_step_skip _ pre Hpre). cbn [fold_left].
  assert (H0 : data_step (key_of r0) agg_default r0
               = AggData 1 (rel_properties r0)
                   (add_if_present (py "call_pattern") (rel_properties r0) [])
                   (add_if_present (py "call_type") (rel_properties r0) [])).
  { unfold data_step, same_key.
    now rewrite (proj2 (key_eqb_eq _ _) eq_refl). }
  rewrite H0, data_step_properties; [reflexivity|exact Hne].
Qed.

Lemma aggregation_keeps_first_properties_witness :
  let r0 := GraphRelationship (py "a") (py "b") (py "CALLS_METHOD")
                              [(py "call_pattern", VStr (py "f("))] in
  let r1 := GraphRelationship (py "a") (py "b") (py "CALLS_METHOD")
                              [(py "call_pattern", VStr (py "g("))] in
  let r := hd r1 (aggregate_relationships [r0; r1]) in
  PyDict.get eqb (py "call_pattern") (rel_properties r)
  = PyDict.get eqb (py "call_pattern") (rel_properties r0).
Proof.
  intros r0 r1 r.
  apply (aggregation_keeps_first_properties [] [r1] r0 r (py "call_pattern")).
  - intros [].
  - discriminate.
  - vm_compute. left. reflexivity.
  - reflexivity.
  - reflexivity.
Defined.

(** ** Serialisation: [convert_sets_to_lists] *)

Lemma pyobj_induction (atom : Type) (P : pyobj atom -> Prop) :
  (forall a, P (PAtom a)) ->
  (forall elements, P (PSet elements)) ->
  (forall items, Forall P items -> P (PList items)) ->
  (forall items, Forall P items -> P (PTuple items)) ->
  (forall items, Forall (fun kv => P (snd kv)) items -> P (PDict items)) ->
  forall obj, P obj.
Proof.
  intros Ha Hs Hl Ht Hd. fix IH 1. intros [a|elements|items|items|items].
  - apply Ha.
  - apply Hs.
  - apply Hl. induction items as [|x items IHi]; constructor;
      [apply IH|exact IHi].
  - apply Ht. induction items as [|x items IHi]; constructor;
      [apply IH|exact IHi].
  - apply Hd. induction items as [|[k v] items IHi]; constructor;
      [apply IH|exact IHi].
Qed.

Lemma convert_no_set (atom : Type) (obj : pyobj atom) :
  no_set_outside_tuples (convert_sets_to_lists obj) = true.
Proof.
  induction obj as [a|elements|items IH|items IH|items IH]
    using pyobj_induction; cbn [convert_sets_to_lists no_set_outside_tuples];
    try reflexivity.
  - apply forallb_forall. intros x Hx. apply in_map_iff in Hx as [a [<- _]].
    reflexivity.
  - rewrite forallb_forall. intros x Hx. apply in_map_iff in Hx as [y [<- Hy]].
    rewrite Forall_forall in IH. now apply IH.
  - rewrite forallb_forall. intros x Hx.
    apply in_map_iff in Hx as [[k v] [<- Hy]].
    rewrite Forall_forall in IH. apply (IH (k, v) Hy).
Qed.

Lemma convert_fixed (atom : Type) (obj : pyobj atom) :
  no_set_outside_tuples obj = true -> convert_sets_to_lists obj = obj.
Proof.
  induction obj as [a|elements|items IH|items IH|items IH]
    using pyobj_induction; cbn [convert_sets_to_lists no_set_outside_tuples];
    intros H; try reflexivity; try discriminate.
  - f_equal. rewrite forallb_forall in H. rewrite Forall_forall in IH.
    rewrite <- (map_id items) at 2. apply map_ext_in.
    intros x Hx. apply IH; [exact Hx|now apply H].
  - f_equal. rewrite forallb_forall in H. rewrite Forall_forall in IH.
    rewrite <- (map_id items) at 2. apply map_ext_in.
    intros [k v] Hx. f_equal. apply (IH (k, v) Hx). apply (H (k, v) Hx).
Qed.

(** [convert_sets_to_lists] leaves no set in its result, except inside
    tuples, into which it does not look; it returns unchanged exactly
    the objects that hold no set outside tuples; and converting twice
    gives what converting once gives. *)
Theorem convert_sets_to_lists_removes_sets (atom : Type) (obj : pyobj atom) :
  no_set_outside_tuples (convert_sets_to_lists obj) = true
  /\ (convert_sets_to_lists obj = obj <-> no_set_outside_tuples obj = true)
  /\ convert_sets_to_lists (convert_sets_to_lists obj)
     = convert_sets_to_lists obj.
Proof.
  split; [apply convert_no_set|]. split.
  - split; [|apply convert_fixed].
    intros H. rewrite <- H. apply convert_no_set.
  - apply convert_fixed, convert_no_set.
Qed.

(** ** Summary report *)

Lemma fold_add_shift (l : list nat) :
  forall a, fold_left Nat.add l a = a + fold_left Nat.add l 0.
Proof.
  induction l as [|x l IH]; intros a; cbn [fold_left]; [lia|].
  rewrite (IH (a + x)), (IH (0 + x)). lia.
Qed.

Lemma sum_cons (x : nat) (l : list nat) : py_sum (x :: l) = x + py_sum l.
Proof. unfold py_sum. cbn [fold_left]. now rewrite fold_add_shift. Qed.

Lemma sum_ones {A : Type} (l : list A) : py_sum (map (fun _ => 1) l) = length l.
Proof.
  induction l as [|x l IH]; [reflexivity|].
  cbn [map length]. now rewrite sum_cons, IH.
Qed.

Lemma results_partition (results : list file_result) :
  length (filter is_success results) + length (filter is_failed results)
  = length results.
Proof.
  induction results as [|[file ast|file error] results IH];
    cbn [filter is_success is_failed length]; lia.
Qed.

Lemma failed_files_length (results : list file_result) :
  length (flat_map (fun r => match r with
                             | failed file error => [(file, error)]
                             | success _ _ => []
                             end) results)
  = length (filter is_failed results).
Proof.
  induction results as [|[file ast|file error] results IH];
    cbn [flat_map filter is_failed length app]; [reflexivity|exact IH|].
  now rewrite IH.
Qed.

Lemma sum_values_setitem (k : call_kind) (n : nat)
      (d : PyDict.dict call_kind nat) :
  py_sum (map snd (PyDict.setitem call_kind_eqb k n d))
  + match PyDict.get call_kind_eqb k d with Some old => old | None => 0 end
  = py_sum (map snd d) + n.
Proof.
  induction d as [|[k1 n1] d IH]; cbn [PyDict.setitem PyDict.get map snd].
  - rewrite sum_cons. unfold py_sum. cbn. lia.
  - destruct (call_kind_eqb k k1); cbn [map snd]; rewrite !sum_cons; lia.
Qed.

Lemma count_call_type_sum (calls : list cross_file_call) :
  forall d,
    py_sum (map snd (fold_left count_call_type calls d))
    = py_sum (map snd d) + length calls.
Proof.
  induction calls as [|c calls IH]; intros d; cbn [fold_left length]; [lia|].
  rewrite IH. unfold count_call_type.
  pose proof (sum_values_setitem (call_type c)
                (match PyDict.get call_kind_eqb (call_type c) d with
                 | Some n => n | None => 0 end + 1) d) as H.
  lia.
Qed.

Lemma count_call_type_positive (calls : list cross_file_call) :
  forall d,
    Forall (fun kv => 0 < snd kv) d ->
    Forall (fun kv => 0 < snd kv) (fold_left count_call_type calls d).
Proof.
  induction calls as [|c calls IH]; intros d Hd; cbn [fold_left]; [exact Hd|].
  apply IH. unfold count_call_type.
  generalize (match PyDict.get call_kind_eqb (call_type c) d with
              | Some n => n | None => 0 end). intros old.
  induction Hd as [|[k1 n1] d H1 Hd IHd]; cbn [PyDict.setitem].
  - constructor; [cbn; lia|constructor].
  - destruct (call_kind_eqb (call_type c) k1); constructor;
      try assumption. cbn. lia.
Qed.

Lemma set_add_length {E : Type} (eeq : E -> E -> bool) (x : E) (s : list E) :
  length (PyDict.set_add eeq x s) <= length s + 1.
Proof.
  unfold PyDict.set_add. destruct (PyDict.set_mem eeq x s); [lia|].
  rewrite length_app. cbn. lia.
Qed.

Lemma file_pairs_length (calls : list cross_file_call) :
  forall s,
    length (fold_left
              (fun s call =>
                 PyDict.set_add pair_eqb (caller_file call, target_file call) s)
              calls s)
    <= length s + length calls.
Proof.
  induction calls as [|c calls IH]; intros s; cbn [fold_left length]; [lia|].
  etransitivity; [apply IH|].
  pose proof (set_add_length pair_eqb (caller_file c, target_file c) s). lia.
Qed.

Lemma count_packages_uses (pkgs : list package_declaration) :
  forall total,
    fold_left (fun total pkg => total + length (p_use_statements pkg))
              pkgs total
    = total + length (flat_map p_use_statements pkgs).
Proof.
  induction pkgs as [|p pkgs IH]; intros total; cbn [fold_left flat_map];
    [cbn; lia|].
  rewrite IH, length_app. lia.
Qed.

Lemma count_use_statements_from (fs : list file_ast) :
  forall total,
    fold_left
      (fun total f =>
         fold_left (fun total pkg => total + length (p_use_statements pkg))
                   (f_packages f)
                   (total + length (f_use_statements f)))
      fs total
    = total + length (all_use_statements fs).
Proof.
  unfold all_use_statements.
  induction fs as [|f fs IH]; intros total; cbn [fold_left flat_map];
    [cbn; lia|].
  rewrite IH, count_packages_uses, !length_app. lia.
Qed.

(** The numbers of the summary agree with each other and with the
    project: every result is counted as successful or as failed and
    never as both; there is one entry of [failed_files] per failed
    result; the counts by call type are positive and add up to the
    number of call edges; there are at most as many file pairs as call
    edges; and [total_use_statements] is the number of imports the
    dependency analysis goes through. *)
Theorem summary_counts_are_consistent (results : list file_result)
        (combined_ast : project_ast) :
  let s := create_summary_report results combined_ast in
  s_successful s + s_failed s = s_total_files s
  /\ length (s_failed_files s) = s_failed s
  /\ s_total_calls s = length (calls_of combined_ast)
  /\ py_sum (map snd (s_call_types s)) = s_total_calls s
  /\ Forall (fun kv => 0 < snd kv) (s_call_types s)
  /\ s_unique_file_pairs s <= s_total_calls s
  /\ s_total_use_statements s = length (all_use_statements (files combined_ast)).
Proof.
  cbn zeta. unfold create_summary_report.
  cbn [s_successful s_failed s_total_files s_failed_files s_total_calls
       s_call_types s_unique_file_pairs s_total_use_statements].
  fold (calls_of combined_ast). rewrite !sum_ones.
  split; [apply results_partition|].
  split; [apply failed_files_length|].
  split; [reflexivity|].
  split; [now rewrite count_call_type_sum|].
  split; [apply count_call_type_positive; constructor|].
  split; [apply (file_pairs_length (calls_of combined_ast) [])|].
  unfold count_use_statements. now rewrite count_use_statements_from.
Qed.

Lemma assign_all_length_keys {K V : Type} (keq : K -> K -> bool)
      (d : PyDict.dict K V) :
  length d = length (PyDict.keys d).
Proof. unfold PyDict.keys. now rewrite length_map. Qed.

(** The summary counts the packages by name: [total_packages] is at
    most the number of package declarations of the project, and it is
    that number exactly when no two declarations, in one file or in
    several, share their name. *)
Theorem summary_counts_packages_by_name (results : list file_result)
        (fs : list file_ast) (combined_ast : project_ast) :
  combine_asts fs = Some combined_ast ->
  let s := create_summary_report results
                                 (analyze_cross_file_calls combined_ast) in
  s_total_packages s <= length (declared_packages fs)
  /\ (s_total_packages s = length (declared_packages fs)
      <-> NoDup (declared_packages fs)).
Proof.
  unfold combine_asts.
  destruct (analyze_dependencies fs) as [[deps pds]|] eqn:E; [|discriminate].
  intros [= <-]. cbn zeta. unfold create_summary_report.
  cbn [s_total_packages package_definitions analyze_cross_file_calls].
  apply analyze_dependencies_table in E.
  assert (Hnd : NoDup (PyDict.keys pds)).
  { subst pds. apply (assign_all_NoDup eqb eqb_eq). constructor. }
  assert (Hin : forall name, In name (PyDict.keys pds)
                             <-> In name (declared_packages fs)).
  { intros name. subst pds. rewrite (assign_all_keys eqb eqb_eq).
    cbn [PyDict.keys map In]. unfold declared_packages. tauto. }
  rewrite (assign_all_length_keys eqb pds).
  split.
  - apply NoDup_incl_length; [exact Hnd|]. intros x. apply Hin.
  - split.
    + intros Hlen. apply (NoDup_incl_NoDup (l := PyDict.keys pds));
        [exact Hnd|lia|]. intros x. apply Hin.
    + intros Hd. apply Nat.le_antisymm.
      * apply NoDup_incl_length; [exact Hnd|]. intros x. apply Hin.
      * apply NoDup_incl_length; [exact Hd|]. intros x. apply Hin.
Qed.

Lemma summary_counts_packages_by_name_witness :
  let fs := asts_of two_foos [py "a.pm"; py "b.pm"] in
  match combine_asts fs with
  | Some combined_ast =>
      let s := create_summary_report [] (analyze_cross_file_calls combined_ast)
      in
      s_total_packages s <= length (declared_packages fs)
      /\ (s_total_packages s = length (declared_packages fs)
          <-> NoDup (declared_packages fs))
  | None => False
  end.
Proof.
  intros fs. destruct (combine_asts fs) as [combined_ast|] eqn:E.
  - exact (summary_counts_packages_by_name [] fs combined_ast E).
  - vm_compute in E. discriminate E.
Defined.

(** ** Storage: cleaned values and batches *)

Lemma slice_prefix (t : text) (n : Z) :
  (0 <= n <= Z.of_nat (length t))%Z ->
  slice t 0 n = firstn (Z.to_nat n) t.
Proof.
  intros H. unfold slice, clamp.
  replace (0 <? 0)%Z with false by reflexivity.
  destruct (n <? 0)%Z eqn:E; [apply Z.ltb_lt in E; lia|].
  rewrite (Z.min_r _ n) by lia. rewrite (Z.max_r 0 n) by lia.
  rewrite (Z.min_r _ 0) by lia. rewrite Z.max_id.
  cbn [Z.to_nat skipn]. now rewrite Z.sub_0_r.
Qed.

(** A stored text is the text given, cut after its first 5000
    characters; booleans and integers are stored as they are; and
    cleaning a cleaned value changes nothing. *)
Theorem clean_value_truncates (v : value) :
  match v with
  | VStr t =>
      _clean_value v = VStr (firstn (Z.to_nat 5000) t)
      /\ (Z.of_nat (length (firstn (Z.to_nat 5000) t)) <= 5000)%Z
      /\ ((Z.of_nat (length t) <= 5000)%Z -> _clean_value v = v)
  | _ => _clean_value v = v
  end
  /\ _clean_value (_clean_value v) = _clean_value v.
Proof.
  assert (H : forall t, _clean_value (VStr t)
                        = VStr (firstn (Z.to_nat 5000) t)).
  { intros t. cbn [_clean_value].
    destruct (5000 <? Z.of_nat (length t))%Z eqn:E.
    - apply Z.ltb_lt in E. now rewrite slice_prefix by lia.
    - apply Z.ltb_ge in E. rewrite firstn_all2; [reflexivity|lia]. }
  assert (L : forall t : text,
             (Z.of_nat (length (firstn (Z.to_nat 5000) t)) <= 5000)%Z).
  { intros t. rewrite length_firstn. lia. }
  destruct v as [t|b|z]; [|now split|now split].
  split; [split; [apply H|split; [apply L|]]|].
  - intros Hle. rewrite H, firstn_all2; [reflexivity|lia].
  - rewrite !H. f_equal. apply firstn_all2. specialize (L t). lia.
Qed.

Section GroupingFacts.
Context {A : Type} (type_of : A -> text).

Lemma group_step_eq (d : PyDict.dict text (list A)) (x : A) :
  group_step type_of d x
  = PyDict.setitem eqb (type_of x)
      (match PyDict.get eqb (type_of x) d with
       | Some l => l ++ [x] | None => [x] end) d.
Proof.
  unfold group_step, PyDict.mem.
  destruct (PyDict.get eqb (type_of x) d) as [l|] eqn:E.
  - now rewrite E.
  - rewrite (get_setitem_same eqb eqb_eq).
    induction d as [|[k l] d IH]; [cbn; now rewrite eqb_refl|].
    cbn [PyDict.get] in E. cbn [PyDict.setitem].
    destruct (eqb (type_of x) k) eqn:Ek; [discriminate|].
    cbn [PyDict.setitem]. rewrite Ek. now rewrite (IH E).
Qed.

Lemma group_get (t : text) (xs : list A) :
  forall d,
    PyDict.get eqb t (fold_left (group_step type_of) xs d)
    = match PyDict.get eqb t d with
      | Some l => Some (l ++ of_type type_of t xs)
      | None => match of_type type_of t xs with
                | [] => None
                | l => Some l
                end
      end.
Proof.
  unfold of_type.
  induction xs as [|x xs IH]; intros d; cbn [fold_left filter].
  - destruct (PyDict.get eqb t d); [now rewrite app_nil_r|reflexivity].
  - rewrite IH, group_step_eq.
    destruct (eqb (type_of x) t) eqn:E.
    + apply eqb_eq in E. subst t.
      rewrite (get_setitem_same eqb eqb_eq).
      destruct (PyDict.get eqb (type_of x) d); [|reflexivity].
      now rewrite <- app_assoc.
    + rewrite (get_setitem_other eqb eqb_eq).
      * destruct (PyDict.get eqb t d); [reflexivity|].
        now destruct (filter _ xs).
      * intros ->. now rewrite eqb_refl in E.
Qed.

Lemma group_keys_setitem (k : text) (v : list A)
      (d : PyDict.dict text (list A)) :
  PyDict.keys (PyDict.setitem eqb k v d)
  = if PyDict.set_mem eqb k (PyDict.keys d)
    then PyDict.keys d
    else PyDict.keys d ++ [k].
Proof.
  unfold PyDict.keys, PyDict.set_mem.
  induction d as [|[k1 d1] d IH];
    cbn [PyDict.setitem map fst existsb app]; [reflexivity|].
  destruct (eqb k k1) eqn:E; cbn [orb map fst].
  - apply eqb_eq in E. now subst k1.
  - rewrite IH. now destruct (existsb (eqb k) (map fst d)).
Qed.

Lemma group_keys (xs : list A) :
  forall d,
    PyDict.keys (fold_left (group_step type_of) xs d)
    = PyDict.keys d ++ first_types type_of (PyDict.keys d) xs.
Proof.
  induction xs as [|x xs IH]; intros d; cbn [fold_left first_types].
  - now rewrite app_nil_r.
  - rewrite IH, group_step_eq, group_keys_setitem.
    destruct (PyDict.set_mem eqb (type_of x) (PyDict.keys d));
      [reflexivity|now rewrite <- app_assoc].
Qed.

Lemma grouped_setitem (k : text) (v : list A) (d : PyDict.dict text (list A)) :
  grouped (PyDict.setitem eqb k v d)
  + match PyDict.get eqb k d with Some l => length l | None => 0 end
  = grouped d + length v.
Proof.
  unfold grouped.
  induction d as [|[k1 l1] d IH];
    cbn [PyDict.setitem PyDict.get map snd concat].
  - rewrite length_app. cbn. lia.
  - destruct (eqb k k1); cbn [map snd concat]; rewrite !length_app; lia.
Qed.

Lemma grouped_all (xs : list A) :
  forall d,
    grouped (fold_left (group_step type_of) xs d) = grouped d + length xs.
Proof.
  induction xs as [|x xs IH]; intros d; cbn [fold_left length]; [lia|].
  rewrite IH, group_step_eq.
  pose proof (grouped_setitem (type_of x)
                (match PyDict.get eqb (type_of x) d with
                 | Some l => l ++ [x] | None => [x] end) d) as H.
  destruct (PyDict.get eqb (type_of x) d); [rewrite length_app in H|];
    cbn [length] in H; lia.
Qed.

Lemma group_by_type_spec (xs : list A) :
  let groups := group_by_type type_of xs in
  PyDict.keys groups = first_types type_of [] xs
  /\ NoDup (PyDict.keys groups)
  /\ (forall t l, In (t, l) groups -> l <> [] /\ l = of_type type_of t xs)
  /\ grouped groups = length xs.
Proof.
  cbn zeta. unfold group_by_type.
  assert (Hnd : forall ys d, NoDup (PyDict.keys d) ->
                  NoDup (PyDict.keys (fold_left (group_step type_of) ys d))).
  { induction ys as [|y ys IH]; intros d H; cbn [fold_left]; [exact H|].
    apply IH. rewrite group_step_eq.
    now apply (keys_setitem_NoDup eqb eqb_eq). }
  split; [now rewrite group_keys|].
  split; [apply Hnd; constructor|].
  split; [|now rewrite grouped_all].
  intros t l Hin.
  apply (In_get eqb eqb_eq) in Hin; [|apply Hnd; constructor].
  rewrite group_get in Hin. cbn [PyDict.get] in Hin.
  destruct (of_type type_of t xs) as [|x l'] eqn:E; [discriminate|].
  injection Hin as <-. split; [discriminate|reflexivity].
Qed.

End GroupingFacts.

Lemma batch_keys {A B : Type} (f : list A -> list B)
      (groups : PyDict.dict text (list A)) :
  map fst (map (fun item => (fst item, f (snd item))) groups)
  = PyDict.keys groups.
Proof. unfold PyDict.keys. rewrite map_map. reflexivity. Qed.

Lemma batch_rows {A B : Type} (row : A -> B)
      (groups : PyDict.dict text (list A)) :
  length (concat (map snd (map (fun item => (fst item, map row (snd item)))
                               groups)))
  = grouped groups.
Proof.
  unfold grouped. induction groups as [|[k l] groups IH]; [reflexivity|].
  cbn [map snd concat]. rewrite !length_app, length_map. now rewrite IH.
Qed.

(** The relationships are sent in one batch per relationship type, the
    types in the order in which they first occur; the batch of a type
    is not empty and holds, in their order, the rows of exactly the
    relationships of that type; so every relationship is sent once. *)
Theorem relationship_batches_partition_by_type
        (relationships : list graph_relationship) :
  let batches := _create_relationships_batch relationships in
  map fst batches = first_types rel_type [] relationships
  /\ NoDup (map fst batches)
  /\ (forall t rows,
         In (t, rows) batches ->
         rows <> []
         /\ rows = map rel_row (of_type rel_type t relationships))
  /\ length (concat (map snd batches)) = length relationships.
Proof.
  cbn zeta. unfold _create_relationships_batch.
  destruct (group_by_type_spec rel_type relationships)
    as (Hk & Hnd & Hin & Hlen).
  rewrite batch_keys, batch_rows.
  split; [exact Hk|]. split; [exact Hnd|]. split; [|exact Hlen].
  intros t rows H. apply in_map_iff in H as [[t' l] [[= <- <-] H]].
  destruct (Hin t' l H) as [Hne ->]. split; [|reflexivity].
  cbn [snd]. destruct (of_type rel_type t' relationships);
    [now contradiction Hne|discriminate].
Qed.

(** The nodes are sent in one batch per node type, the types in the
    order in which they first occur; the batch of a type is not empty
    and holds, in their order, the rows of exactly the nodes of that
    type; so every node is sent once.  The row of a node carries the
    identifier and the display name of the node under [id] and [name],
    whatever the attributes of the node hold under these names. *)
Theorem node_batches_partition_by_type (nodes : list stored_node) :
  let batches := _create_node_batch nodes in
  map fst batches = first_types sn_type [] nodes
  /\ NoDup (map fst batches)
  /\ (forall t rows,
         In (t, rows) batches ->
         rows <> [] /\ rows = map node_row (of_type sn_type t nodes))
  /\ length (concat (map snd batches)) = length nodes
  /\ forall node,
       PyDict.get eqb (py "id") (node_row node) = Some (VStr (sn_id node))
       /\ PyDict.get eqb (py "name") (node_row node)
          = Some (VStr (sn_name node)).
Proof.
  cbn zeta. unfold _create_node_batch.
  destruct (group_by_type_spec sn_type nodes) as (Hk & Hnd & Hin & Hlen).
  rewrite batch_keys, batch_rows.
  split; [exact Hk|]. split; [exact Hnd|]. split; [|split; [exact Hlen|]].
  - intros t rows H. apply in_map_iff in H as [[t' l] [[= <- <-] H]].
    destruct (Hin t' l H) as [Hne ->]. split; [|reflexivity].
    cbn [snd]. destruct (of_type sn_type t' nodes);
      [now contradiction Hne|discriminate].
  - intros node. unfold node_row. split.
    + rewrite (get_setitem_other eqb eqb_eq) by discriminate.
      apply (get_setitem_same eqb eqb_eq).
    + apply (get_setitem_same eqb eqb_eq).
Qed.

Lemma transformed_relationship_type (ast : project_ast)
      (r : graph_relationship) :
  In r (snd (_transform_perl_ast ast)) -> In (rel_type r) relationship_types.
Proof.
  unfold _transform_perl_ast. cbn [snd]. intros Hr.
  apply aggregate_relationships_In in Hr as [r0 [H0 Hk]].
  injection Hk as _ _ <-.
  rewrite raw_graph_eq in H0. cbn [snd] in H0.
  apply in_app_or in H0 as [H0 | H0].
  - apply in_flat_map in H0 as [f [_ H0]]. unfold rels_of_file in H0.
    apply in_app_or in H0 as [H0 | H0].
    + apply in_map_iff in H0 as [u [<- _]]. now left.
    + apply in_flat_map in H0 as [p [_ H0]].
      unfold rels_of_package in H0. cbn [app] in H0.
      destruct H0 as [<- | H0]; [right; now left|].
      apply in_app_or in H0 as [H0 | H0];
        [apply in_map_iff in H0 as [u [<- _]]; now left|].
      apply in_app_or in H0 as [H0 | H0];
        [apply in_map_iff in H0 as [m [<- _]]; right; right; now left|].
      destruct (p_script_execution p); [|destruct H0].
      destruct H0 as [<- | []]. right. right. right. now left.
  - apply in_map_iff in H0 as [c [<- _]].
    right. right. right. right. now left.
Qed.

(** Storing a project sends at most five relationship batches: the
    relationships the transformer returns have one of five types, and
    there is one batch per type that occurs. *)
Theorem store_ast_relationship_batches (ast : project_ast) :
  let batches :=
    _create_relationships_batch (snd (_transform_perl_ast ast)) in
  length batches <= 5
  /\ Forall (fun batch => In (fst batch) relationship_types) batches.
Proof.
  cbn zeta. set (rels := snd (_transform_perl_ast ast)).
  unfold _create_relationships_batch.
  destruct (group_by_type_spec rel_type rels) as (_ & Hnd & Hin & _).
  assert (Hincl : incl (PyDict.keys (group_by_type rel_type rels))
                       relationship_types).
  { intros t Ht. apply in_map_iff in Ht as [[t' l] [<- Ht]]. cbn [fst].
    destruct (Hin t' l Ht) as [Hne ->].
    destruct (of_type rel_type t' rels) as [|r l'] eqn:E;
      [now contradiction Hne|].
    assert (Hr : In r (of_type rel_type t' rels)) by (rewrite E; now left).
    apply filter_In in Hr as [Hr Ht']. apply eqb_eq in Ht'. subst t'.
    now apply (transformed_relationship_type ast). }
  split.
  - rewrite length_map. rewrite (assign_all_length_keys eqb).
    apply (NoDup_incl_length Hnd Hincl).
  - apply Forall_forall. intros [t rows] Hb. cbn [fst].
    apply Hincl. rewrite <- (batch_keys (map rel_row)).
    apply (in_map fst) in Hb. exact Hb.
Qed.

(** ** Registry: two files declaring one name *)

Lemma last_occurrence {V : Type} (l : list (text * V)) (k : text) :
  In k (map fst l) ->
  exists pre v post, l = pre ++ (k, v) :: post /\ ~ In k (map fst post).
Proof.
  induction l as [|[k1 v1] l IH] using rev_ind; [intros []|].
  rewrite map_app, in_app_iff. cbn [map fst In]. intros H.
  destruct (eqb k1 k) eqn:E.
  - apply eqb_eq in E. subst k1. exists l, v1, []. split; [reflexivity|].
    intros [].
  - apply eqb_neq in E.
    destruct H as [H | [H | []]]; [|contradiction].
    destruct (IH H) as (pre & v & post & -> & Hn).
    exists pre, v, (post ++ [(k1, v1)]). split.
    + now rewrite <- app_assoc.
    + rewrite map_app, in_app_iff. cbn [map fst In]. intros [H1 | [H1 | []]];
        [now apply Hn|now apply E].
Qed.

Lemma registrations_app (fs1 fs2 : list file_ast) :
  registrations (fs1 ++ fs2) = registrations fs1 ++ registrations fs2.
Proof. unfold registrations. apply flat_map_app. Qed.

(** C1, amended: when two files A then B, processed in that order, both
    declare the same qualified name inside a package, the registry entry
    for that name names B's file after assembly and is exactly the entry
    B alone would give, and the registry holds one entry per qualified
    name: the earlier declaration is overwritten.  A name has an entry
    only if a package of A or of B declares it, so a definition outside
    every package (in the global scope) is not registered at all.  No
    conflict record is produced: when A and B are different files, the
    only records the assembly derives that name both of them are call
    edges and import dependencies; no registry entry and no entry of the
    package table does. *)
Theorem C1_later_file_wins (ast : project_ast) (A B : file_ast) (q : text) :
  files ast = [A; B] ->
  declares A q ->
  declares B q ->
  let out := analyze_cross_file_calls ast in
  exists reg e,
    global_function_registry out = Some reg
    /\ PyDict.get eqb q reg = Some e
    /\ r_file e = f_source_file B
    /\ PyDict.get eqb q (build_registry [B]) = Some e
    /\ NoDup (PyDict.keys reg)
    /\ (forall e', In (q, e') reg -> e' = e)
    /\ (forall q', PyDict.get eqb q' reg = None
                   <-> ~ (declares A q' \/ declares B q'))
    /\ (f_source_file A <> f_source_file B ->
        forall r, In r (derived_records out) ->
                  In (f_source_file A) (files_named r) ->
                  In (f_source_file B) (files_named r) ->
                  (exists c, r = CallRecord c)
                  \/ (exists f ts, r = DependencyRecord f ts)).
Proof.
  intros Hf _ HB. cbn zeta.
  assert (HqB : In q (map fst (registrations [B]))).
  { apply registrations_keys. exists B. split; [now left|exact HB]. }
  destruct (last_occurrence _ _ HqB) as (pre & e & post & Hreg & Hpost).
  assert (HeB : In (q, e) (registrations [B])).
  { rewrite Hreg. apply in_or_app. right. now left. }
  apply registrations_In in HeB
    as (f & p & m & [<- | []] & Hp & Hm & Hq & He).
  assert (Hget : PyDict.get eqb q (build_registry [A; B]) = Some e).
  { rewrite build_registry_assign.
    change [A; B] with ([A] ++ [B]). rewrite registrations_app, Hreg.
    rewrite app_assoc. now apply (assign_all_last eqb eqb_eq). }
  assert (Hnd : NoDup (PyDict.keys (build_registry [A; B])))
    by apply build_registry_NoDup.
  exists (build_registry [A; B]), e.
  split; [unfold analyze_cross_file_calls; cbn [global_function_registry];
          now rewrite Hf|].
  split; [exact Hget|].
  split; [now rewrite He|].
  split; [rewrite build_registry_assign, Hreg;
          now apply (assign_all_last eqb eqb_eq)|].
  split; [exact Hnd|].
  split; [intros e' Hin; apply (In_get eqb eqb_eq _ _ _ Hnd) in Hin;
          congruence|].
  split.
  - intros q'. rewrite build_registry_assign.
    rewrite (get_None_keys eqb eqb_eq), (assign_all_keys eqb eqb_eq).
    rewrite registrations_keys. cbn [PyDict.keys map In]. split.
    + intros Hn [H | H]; apply Hn; right;
        [exists A|exists B]; (split; [cbn; tauto|exact H]).
    + intros Hn [[] | [f [[<- | [<- | []]] H]]]; apply Hn; tauto.
  - intros Hne r Hr HA HB'.
    unfold derived_records in Hr.
    apply in_app_or in Hr as [Hr | Hr].
    { apply in_map_iff in Hr as [[k e'] [<- _]].
      cbn [files_named fst snd In] in *.
      destruct HA as [HA | []], HB' as [HB' | []]. congruence. }
    apply in_app_or in Hr as [Hr | Hr].
    { apply in_map_iff in Hr as [c [<- _]]. left. now exists c. }
    apply in_app_or in Hr as [Hr | Hr].
    { apply in_map_iff in Hr as [[k ts] [<- _]]. right. now exists k, ts. }
    apply in_map_iff in Hr as [[k d] [<- _]].
    cbn [files_named fst snd In] in *.
    destruct HA as [HA | []], HB' as [HB' | []]. congruence.
Qed.

Lemma C1_later_file_wins_witness :
  let declaring (path body : string) :=
    PerlFile (py path) []
      [PackageDeclaration (py "Foo") []
         [SubDefinition (py "bar") [] (py body) (Some (py "Foo"))
                        (py "Foo::bar")]
         None (py path)] None in
  let A := declaring "A.pm"%string "return 1;"%string in
  let B := declaring "B.pm"%string "return 2;"%string in
  let q := py "Foo::bar" in
  let out := analyze_cross_file_calls (ProjectAST [A; B] 2 [] [] None None) in
  exists reg e,
    global_function_registry out = Some reg
    /\ PyDict.get eqb q reg = Some e
    /\ r_file e = f_source_file B
    /\ PyDict.get eqb q (build_registry [B]) = Some e
    /\ NoDup (PyDict.keys reg)
    /\ (forall e', In (q, e') reg -> e' = e)
    /\ (forall q', PyDict.get eqb q' reg = None
                   <-> ~ (declares A q' \/ declares B q'))
    /\ (f_source_file A <> f_source_file B ->
        forall r, In r (derived_records out) ->
                  In (f_source_file A) (files_named r) ->
                  In (f_source_file B) (files_named r) ->
                  (exists c, r = CallRecord c)
                  \/ (exists f ts, r = DependencyRecord f ts)).
Proof.
  intros declaring A B q.
  apply (C1_later_file_wins (ProjectAST [A; B] 2 [] [] None None) A B q).
  - reflexivity.
  - eexists. eexists. split; [left; reflexivity|].
    split; [left; reflexivity|reflexivity].
  - eexists. eexists. split; [left; reflexivity|].
    split; [left; reflexivity|reflexivity].
Defined.
